(** * Backfill maintenance jobs of the skills registry (convex/maintenance.ts)

    A shallow embedding of the two paginated backfill jobs
    (summary backfill and fingerprint backfill): the page fetchers, the
    patch appliers, the batch orchestrators and [clampInt], together with
    the properties the specification states about them. *)

From Stdlib Require Import List String Ascii Bool Arith ZArith QArith Qabs Lia Lqa.
Import ListNotations.
Local Open Scope string_scope.
Local Open Scope list_scope.
Local Open Scope nat_scope.

(* ================================================================= *)
(** ** JavaScript numbers *)

(** A JS number is an IEEE-754 double.  [clampInt] only truncates and
    compares, both of which are exact, so a finite double is carried as the
    rational it denotes; every double is such a rational and the truncation
    of a double is again a double.  The sign of zero is not tracked (it is
    invisible to [<], [Math.min] on distinct values and
    [Number.isFinite]). *)
Module JS.

Inductive number : Type :=
| NaN
| NegInfinity
| Fin (q : Q)
| PosInfinity.

Definition of_Z (z : Z) : number := Fin (inject_Z z).

(** [Number.isFinite] *)
Definition isFinite (x : number) : bool :=
  match x with Fin _ => true | _ => false end.

(** The integer part of a rational, rounding toward zero. *)
Definition Qtrunc (q : Q) : Z := Z.quot (Qnum q) (Zpos (Qden q)).

(** [Math.trunc]: NaN and the infinities are returned as they are. *)
Definition Math_trunc (x : number) : number :=
  match x with
  | Fin q => of_Z (Qtrunc q)
  | other => other
  end.

(** [a < b] on numbers; false as soon as one side is NaN. *)
Definition ltb (a b : number) : bool :=
  match a, b with
  | NaN, _ | _, NaN => false
  | NegInfinity, NegInfinity => false
  | NegInfinity, _ => true
  | _, NegInfinity => false
  | PosInfinity, _ => false
  | _, PosInfinity => true
  | Fin p, Fin q => match Qcompare p q with Lt => true | _ => false end
  end.

(** [a <= b] on numbers; false as soon as one side is NaN. *)
Definition leb (a b : number) : bool :=
  match a, b with
  | NaN, _ | _, NaN => false
  | NegInfinity, _ => true
  | _, NegInfinity => false
  | _, PosInfinity => true
  | PosInfinity, _ => false
  | Fin p, Fin q => match Qcompare p q with Gt => false | _ => true end
  end.

(** [Math.max(a, b)]: NaN if either argument is NaN, else the larger. *)
Definition Math_max (a b : number) : number :=
  match a, b with
  | NaN, _ | _, NaN => NaN
  | _, _ => if ltb a b then b else a
  end.

(** [Math.min(a, b)]: NaN if either argument is NaN, else the smaller. *)
Definition Math_min (a b : number) : number :=
  match a, b with
  | NaN, _ | _, NaN => NaN
  | _, _ => if ltb b a then b else a
  end.

(** The natural number a number denotes after a clamp to a range of
    non-negative integers (used for [numItems] and loop bounds). *)
Definition to_nat (x : number) : nat :=
  match x with
  | Fin q => Z.to_nat (Qtrunc q)
  | _ => 0
  end.

End JS.

Import JS.

(* ================================================================= *)
(** ** Constants and [clampInt] *)

Definition DEFAULT_BATCH_SIZE : number := of_Z 50.
Definition MAX_BATCH_SIZE : number := of_Z 200.
Definition DEFAULT_MAX_BATCHES : number := of_Z 20.
Definition MAX_MAX_BATCHES : number := of_Z 200.

Definition clampInt (value min max : number) : number :=
  let rounded := Math_trunc value in
  if negb (isFinite rounded) then min
  else Math_min max (Math_max min rounded).

(** The double written [0.9] in source text: 8106479329266893 / 2^53. *)
Definition double_0_9 : number := Fin (8106479329266893 # 9007199254740992).


(* ================================================================= *)
(** ** JavaScript strings, optional values and sets *)

(** A string is carried as the bytes of its UTF-8 form. *)
Definition utf8 (n : nat) : ascii := ascii_of_nat n.

(** Lower case of an ASCII character. *)
Definition lowerAscii (c : ascii) : ascii :=
  let n := nat_of_ascii c in
  if (65 <=? n)%nat && (n <=? 90)%nat then ascii_of_nat (n + 32) else c.

(** [String.prototype.toLowerCase].  The capitals [A] to [Z] go to their
    small letters; the Kelvin sign U+212A (bytes E2 84 AA) goes to [k];
    the capital I with dot U+0130 (bytes C4 B0) goes to [i] followed by
    the combining dot U+0307 (bytes CC 87).  These are the code points
    whose lower-case form holds an ASCII character without being ASCII
    small already.  Any other code point outside ASCII lower-cases to
    text outside ASCII and is carried through as it is: the jobs only
    compare the result with ASCII literals, and for that comparison the
    two are the same. *)
Fixpoint toLowerCase (s : string) : string :=
  match s with
  | EmptyString => EmptyString
  | String c rest =>
      match rest with
      | String c2 rest2 =>
          if Ascii.eqb c (utf8 196) && Ascii.eqb c2 (utf8 176)
          then String "i" (String (utf8 204) (String (utf8 135) (toLowerCase rest2)))
          else
            match rest2 with
            | String c3 rest3 =>
                if Ascii.eqb c (utf8 226) && Ascii.eqb c2 (utf8 132) &&
                   Ascii.eqb c3 (utf8 170)
                then String "k" (toLowerCase rest3)
                else String (lowerAscii c) (toLowerCase rest)
            | EmptyString => String (lowerAscii c) (toLowerCase rest)
            end
      | EmptyString => String (lowerAscii c) EmptyString
      end
  end.

(** [a ?? b] *)
Definition nullish {A} (a : option A) (b : A) : A :=
  match a with Some x => x | None => b end.

(** Truthiness of a [string | undefined]: the empty string is falsy. *)
Definition truthy (o : option string) : bool :=
  match o with
  | Some s => negb (String.eqb s "")
  | None => false
  end.

(** Truthiness of an [object | undefined]. *)
Definition defined {A} (o : option A) : bool :=
  match o with Some _ => true | None => false end.

(** [Boolean(x)] of a [boolean | undefined]. *)
Definition Boolean (o : option bool) : bool := nullish o false.

(** [a === b] between a [string | undefined] and a string. *)
Definition strictEq (a : option string) (b : string) : bool :=
  match a with Some x => String.eqb x b | None => false end.

(** [new Set(values)], kept as the list of its distinct members. *)
Definition Set_of (values : list string) : list string := nodup string_dec values.
Definition Set_size (s : list string) : nat := List.length s.
Definition Set_has (s : list string) (x : string) : bool := existsb (String.eqb x) s.

(* ================================================================= *)
(** ** The document store *)

(** Document identifiers. *)
Abbreviation Id := nat (only parsing).

(** A value accepted by [v.any()]. *)
#[local] Unset Elimination Schemes.
Inductive Value : Type :=
| VNull
| VBool (b : bool)
| VNumber (n : number)
| VString (s : string)
| VArray (elems : list Value)
| VObject (fields : list (string * Value)).
#[local] Set Elimination Schemes.

Record ParsedSkillData := {
  frontmatter : list (string * Value);
  metadata : option Value;
  clawdis : option Value
}.

Record SkillFile := {
  file_path : string;
  file_sha256 : string;
  file_storageId : Id
}.

Record Skill := {
  skill_id : Id;
  skill_latestVersionId : option Id;
  skill_summary : option string;
  skill_updatedAt : nat
}.

Record SkillVersion := {
  version_id : Id;
  version_skillId : Id;
  version_files : list SkillFile;
  version_parsed : ParsedSkillData;
  version_fingerprint : option string
}.

Record SkillVersionFingerprint := {
  entry_id : Id;
  entry_skillId : Id;
  entry_versionId : Id;
  entry_fingerprint : string;
  entry_createdAt : nat
}.

(** Every table keeps its documents in creation order, which is the order
    of [.order('asc')] and of an index scan within one index key.
    [nextId] is the next identifier the store hands out; identifiers are
    never reused. *)
Record Store := {
  skills : list Skill;
  skillVersions : list SkillVersion;
  skillVersionFingerprints : list SkillVersionFingerprint;
  storage : list (Id * string);
  nextId : Id
}.

(** Documents carry an [_id]. *)
Class Document (D : Type) := _id : D -> Id.
#[export] Instance Document_Skill : Document Skill := skill_id.
#[export] Instance Document_SkillVersion : Document SkillVersion := version_id.
#[export] Instance Document_Fingerprint : Document SkillVersionFingerprint := entry_id.

(** A table of the store: how to read its rows and how to write them back. *)
Record Table (D : Type) := {
  rows : Store -> list D;
  with_rows : list D -> Store -> Store
}.
Arguments rows {D} _ _.
Arguments with_rows {D} _ _ _.

Definition skillsTable : Table Skill := {|
  rows := skills;
  with_rows := fun r s =>
    {| skills := r; skillVersions := skillVersions s;
       skillVersionFingerprints := skillVersionFingerprints s;
       storage := storage s; nextId := nextId s |}
|}.

Definition skillVersionsTable : Table SkillVersion := {|
  rows := skillVersions;
  with_rows := fun r s =>
    {| skills := skills s; skillVersions := r;
       skillVersionFingerprints := skillVersionFingerprints s;
       storage := storage s; nextId := nextId s |}
|}.

Definition fingerprintsTable : Table SkillVersionFingerprint := {|
  rows := skillVersionFingerprints;
  with_rows := fun r s =>
    {| skills := skills s; skillVersions := skillVersions s;
       skillVersionFingerprints := r;
       storage := storage s; nextId := nextId s |}
|}.

Definition lookup {D} `{Document D} (id : Id) (tbl : list D) : option D :=
  find (fun d => _id d =? id)%nat tbl.

Definition patchRow {D} `{Document D} (id : Id) (upd : D -> D) (tbl : list D) : list D :=
  map (fun d => if (_id d =? id)%nat then upd d else d) tbl.

Definition deleteRow {D} `{Document D} (id : Id) (tbl : list D) : list D :=
  filter (fun d => negb (_id d =? id)%nat) tbl.

(* ================================================================= *)
(** ** Effects: store-passing computations that may throw *)

Inductive Outcome (A : Type) : Type :=
| Returned (a : A)
| Thrown (message : string).
Arguments Returned {A} a.
Arguments Thrown {A} message.

(** A computation started in a store ends in a store, with a value or a
    thrown error. *)
Definition M (A : Type) : Type := Store -> Store * Outcome A.

Definition ret {A} (a : A) : M A := fun s => (s, Returned a).

Definition throw {A} (message : string) : M A := fun s => (s, Thrown message).

Definition bind {A B} (m : M A) (k : A -> M B) : M B :=
  fun s =>
    match m s with
    | (s', Returned a) => k a s'
    | (s', Thrown e) => (s', Thrown e)
    end.

Declare Scope action_scope.
Delimit Scope action_scope with action.
Notation "x <- m ;; k" := (bind m (fun x => k))
  (at level 61, m at next level, right associativity) : action_scope.
Notation "' pat <- m ;; k" := (bind m (fun x => match x with pat => k end))
  (at level 61, pat pattern, m at next level, right associativity) : action_scope.
Notation "m ;;; k" := (bind m (fun _ => k))
  (at level 61, right associativity) : action_scope.
Local Open Scope action_scope.

(** [for (const x of xs) body], with the loop's local variables threaded
    through as [acc]. *)
Fixpoint forOf {A S} (xs : list A) (acc : S) (body : S -> A -> M S) : M S :=
  match xs with
  | [] => ret acc
  | x :: rest => acc' <- body acc x ;; forOf rest acc' body
  end.

(** [for (let i = 0; i < n; i++) { body; if (...) break }]: the body
    returns the updated locals and whether it breaks. *)
Fixpoint forBatches {S} (n : nat) (st : S) (body : S -> M (S * bool)) : M S :=
  match n with
  | O => ret st
  | Datatypes.S k =>
      r <- body st ;;
      if snd r then ret (fst r) else forBatches k (fst r) body
  end.

(** *** Database operations ([ctx.db]) *)

(** [ctx.db.get(id)] *)
Definition db_get {D} `{Document D} (T : Table D) (id : Id) : M (option D) :=
  fun s => (s, Returned (lookup id (rows T s))).

(** [ctx.db.patch(id, fields)]; the engine rejects an id that names no
    document. *)
Definition db_patch {D} `{Document D} (T : Table D) (id : Id) (upd : D -> D) : M unit :=
  fun s =>
    match lookup id (rows T s) with
    | None => (s, Thrown "Update on nonexistent document")
    | Some _ => (with_rows T (patchRow id upd (rows T s)) s, Returned tt)
    end.

(** [ctx.db.delete(id)]; the engine rejects an id that names no document. *)
Definition db_delete {D} `{Document D} (T : Table D) (id : Id) : M unit :=
  fun s =>
    match lookup id (rows T s) with
    | None => (s, Thrown "Delete on nonexistent document")
    | Some _ => (with_rows T (deleteRow id (rows T s)) s, Returned tt)
    end.

(** [ctx.db.insert('skillVersionFingerprints', fields)]: the new document
    gets a fresh id and goes last in creation order. *)
Definition db_insert_fingerprint (skillId versionId : Id) (fingerprint : string)
    (createdAt : nat) : M Id :=
  fun s =>
    let id := nextId s in
    ({| skills := skills s; skillVersions := skillVersions s;
        skillVersionFingerprints :=
          skillVersionFingerprints s ++
          [{| entry_id := id; entry_skillId := skillId; entry_versionId := versionId;
              entry_fingerprint := fingerprint; entry_createdAt := createdAt |}];
        storage := storage s; nextId := Datatypes.S id |},
     Returned id).

(** The pagination cursor is opaque to the jobs.  It is carried as the
    number of documents of the ordered table that earlier pages returned. *)
Abbreviation Cursor := nat (only parsing).

(** Modelled from the spec: [.paginate({ cursor, numItems })] of the
    database engine, which is not part of the sources.  Over a table in
    ascending order a page holds the next [numItems] documents after the
    cursor, or all that are left when they are fewer; a [null] cursor means
    the start; [isDone] is true when no further page follows, that is when
    no document comes after the page; [continueCursor] resumes after the
    page. *)
Definition paginate {D} (tbl : list D) (cursor : option Cursor) (numItems : nat)
  : list D * bool * Cursor :=
  let start := nullish cursor 0%nat in
  let remaining := skipn start tbl in
  let page := firstn numItems remaining in
  (page, List.length remaining <=? numItems, start + List.length page).

Definition db_paginate {D} (T : Table D) (cursor : option Cursor) (numItems : nat)
  : M (list D * bool * Cursor) :=
  fun s => (s, Returned (paginate (rows T s) cursor numItems)).

(** [.query('skillVersionFingerprints').withIndex('by_version', q =>
    q.eq('versionId', id)).take(n)] *)
Definition db_fingerprints_by_version (versionId : Id) (n : nat)
  : M (list SkillVersionFingerprint) :=
  fun s =>
    (s, Returned (firstn n (filter (fun e => entry_versionId e =? versionId)%nat
                                   (skillVersionFingerprints s)))).

(** [ctx.storage.get(id)] followed by [blob.text()]: the text of the blob,
    if the blob exists. *)
Definition storage_get (id : Id) : M (option string) :=
  fun s => (s, Returned (option_map snd (find (fun b => fst b =? id)%nat (storage s)))).

(** [ctx.runQuery]: the query handler runs against the store. *)
Definition runQuery {A} (handler : M A) : M A := handler.

(** [ctx.runMutation]: the handler runs as one transaction; if it throws,
    none of its writes are kept and the error reaches the caller. *)
Definition runMutation {A} (handler : M A) : M A :=
  fun s =>
    match handler s with
    | (s', Returned a) => (s', Returned a)
    | (_, Thrown e) => (s, Thrown e)
    end.

(** Arguments of both page fetchers. *)
Record PageArgs := {
  arg_cursor : option Cursor;
  arg_batchSize : option number
}.

(** [BackfillActionArgs] and [FingerprintBackfillActionArgs] (the same
    shape). *)
Record BackfillActionArgs := {
  arg_dryRun : option bool;
  batchSize : option number;
  maxBatches : option number
}.

Definition incompleteError : string := "Backfill incomplete (maxBatches reached)".

(* ================================================================= *)
(** ** Summary backfill *)

Module SummaryBackfill.

Record BackfillStats := {
  skillsScanned : nat;
  skillsPatched : nat;
  versionsPatched : nat;
  missingLatestVersion : nat;
  missingReadme : nat;
  missingStorageBlob : nat
}.

Inductive BackfillPageItem : Type :=
| kind_ok (skillId versionId : Id) (skillSummary : option string)
          (versionParsed : ParsedSkillData) (readmeStorageId : Id)
| kind_missingLatestVersion (skillId : Id)
| kind_missingVersionDoc (skillId versionId : Id)
| kind_missingReadme (skillId versionId : Id).

Record BackfillPageResult := {
  items : list BackfillPageItem;
  cursor : option Cursor;
  isDone : bool
}.

(** The callback of [version.files.find(...)]. *)
Definition isReadme (file : SkillFile) : bool :=
  String.eqb (toLowerCase (file_path file)) "skill.md" ||
  String.eqb (toLowerCase (file_path file)) "skills.md".

(** The body of [for (const skill of page)]; [items.push(x); continue] is
    the return of the extended list. *)
Definition classifySkill (items : list BackfillPageItem) (skill : Skill)
  : M (list BackfillPageItem) :=
  match skill_latestVersionId skill with
  | None => ret (items ++ [kind_missingLatestVersion (_id skill)])
  | Some latestVersionId =>
      version <- db_get skillVersionsTable latestVersionId ;;
      match version with
      | None => ret (items ++ [kind_missingVersionDoc (_id skill) latestVersionId])
      | Some version =>
          match find isReadme (version_files version) with
          | None => ret (items ++ [kind_missingReadme (_id skill) (_id version)])
          | Some readmeFile =>
              ret (items ++ [kind_ok (_id skill) (_id version) (skill_summary skill)
                                     (version_parsed version) (file_storageId readmeFile)])
          end
      end
  end.

Definition getSkillBackfillPageInternal (args : PageArgs) : M BackfillPageResult :=
  let batchSize := clampInt (nullish (arg_batchSize args) DEFAULT_BATCH_SIZE)
                            (of_Z 1) MAX_BATCH_SIZE in
  r <- db_paginate skillsTable (arg_cursor args) (JS.to_nat batchSize) ;;
  let '(page, isDone, continueCursor) := r in
  items <- forOf page [] classifySkill ;;
  ret {| items := items; cursor := Some continueCursor; isDone := isDone |}.

Record PatchArgs := {
  arg_skillId : Id;
  arg_versionId : Id;
  arg_summary : option string;
  arg_parsed : option ParsedSkillData
}.

(** [now] is what [Date.now()] returns inside the transaction. *)
Definition applySkillBackfillPatchInternal (now : nat) (args : PatchArgs) : M bool :=
  match arg_summary args with
  | Some summary =>
      db_patch skillsTable (arg_skillId args)
        (fun skill =>
           {| skill_id := skill_id skill;
              skill_latestVersionId := skill_latestVersionId skill;
              skill_summary := Some summary;
              skill_updatedAt := now |})
  | None => ret tt
  end ;;;
  match arg_parsed args with
  | Some parsed =>
      db_patch skillVersionsTable (arg_versionId args)
        (fun version =>
           {| version_id := version_id version;
              version_skillId := version_skillId version;
              version_files := version_files version;
              version_parsed := parsed;
              version_fingerprint := version_fingerprint version |})
  | None => ret tt
  end ;;;
  ret true.

(** The result of [buildSkillSummaryBackfillPatch]. *)
Record SummaryPatch := {
  patch_summary : option string;
  patch_parsed : option ParsedSkillData
}.

Record BackfillActionResult := {
  ok : bool;
  stats : BackfillStats
}.

Section Orchestrator.

(** [buildSkillSummaryBackfillPatch] of [lib/skillBackfill], a pure
    function of the README text, the current summary and the current
    parsed metadata.  Its definition is not part of this file's subject;
    the orchestrator is stated for any such function. *)
Variable buildSkillSummaryBackfillPatch :
  string -> option string -> ParsedSkillData -> SummaryPatch.

(** [Date_now n] is the reading of [Date.now()] inside the mutation
    issued for the [n]-th scanned item. *)
Variable Date_now : nat -> nat.

Definition bump_skillsScanned (t : BackfillStats) : BackfillStats :=
  {| skillsScanned := S (skillsScanned t); skillsPatched := skillsPatched t;
     versionsPatched := versionsPatched t;
     missingLatestVersion := missingLatestVersion t;
     missingReadme := missingReadme t; missingStorageBlob := missingStorageBlob t |}.

Definition bump_skillsPatched (t : BackfillStats) : BackfillStats :=
  {| skillsScanned := skillsScanned t; skillsPatched := S (skillsPatched t);
     versionsPatched := versionsPatched t;
     missingLatestVersion := missingLatestVersion t;
     missingReadme := missingReadme t; missingStorageBlob := missingStorageBlob t |}.

Definition bump_versionsPatched (t : BackfillStats) : BackfillStats :=
  {| skillsScanned := skillsScanned t; skillsPatched := skillsPatched t;
     versionsPatched := S (versionsPatched t);
     missingLatestVersion := missingLatestVersion t;
     missingReadme := missingReadme t; missingStorageBlob := missingStorageBlob t |}.

Definition bump_missingLatestVersion (t : BackfillStats) : BackfillStats :=
  {| skillsScanned := skillsScanned t; skillsPatched := skillsPatched t;
     versionsPatched := versionsPatched t;
     missingLatestVersion := S (missingLatestVersion t);
     missingReadme := missingReadme t; missingStorageBlob := missingStorageBlob t |}.

Definition bump_missingReadme (t : BackfillStats) : BackfillStats :=
  {| skillsScanned := skillsScanned t; skillsPatched := skillsPatched t;
     versionsPatched := versionsPatched t;
     missingLatestVersion := missingLatestVersion t;
     missingReadme := S (missingReadme t); missingStorageBlob := missingStorageBlob t |}.

Definition bump_missingStorageBlob (t : BackfillStats) : BackfillStats :=
  {| skillsScanned := skillsScanned t; skillsPatched := skillsPatched t;
     versionsPatched := versionsPatched t;
     missingLatestVersion := missingLatestVersion t;
     missingReadme := missingReadme t; missingStorageBlob := S (missingStorageBlob t) |}.

(** The body of [for (const item of page.items)]. *)
Definition processItem (dryRun : bool) (totals : BackfillStats)
    (item : BackfillPageItem) : M BackfillStats :=
  let totals := bump_skillsScanned totals in
  match item with
  | kind_missingLatestVersion _ => ret (bump_missingLatestVersion totals)
  | kind_missingVersionDoc _ _ => ret (bump_missingLatestVersion totals)
  | kind_missingReadme _ _ => ret (bump_missingReadme totals)
  | kind_ok skillId versionId skillSummary versionParsed readmeStorageId =>
      blob <- storage_get readmeStorageId ;;
      match blob with
      | None => ret (bump_missingStorageBlob totals)
      | Some readmeText =>
          let patch := buildSkillSummaryBackfillPatch readmeText skillSummary versionParsed in
          if negb (truthy (patch_summary patch)) &&
             negb (defined (patch_parsed patch))
          then ret totals
          else
            let totals := if truthy (patch_summary patch)
                          then bump_skillsPatched totals else totals in
            let totals := if defined (patch_parsed patch)
                          then bump_versionsPatched totals else totals in
            if dryRun then ret totals
            else
              runMutation
                (applySkillBackfillPatchInternal (Date_now (skillsScanned totals))
                   {| arg_skillId := skillId; arg_versionId := versionId;
                      arg_summary := patch_summary patch;
                      arg_parsed := patch_parsed patch |}) ;;;
              ret totals
      end
  end.

Definition zeroStats : BackfillStats :=
  {| skillsScanned := 0; skillsPatched := 0; versionsPatched := 0;
     missingLatestVersion := 0; missingReadme := 0; missingStorageBlob := 0 |}.

(** The locals of the handler that the batch loop updates. *)
Record LoopState := {
  loop_cursor : option Cursor;
  loop_isDone : bool;
  loop_totals : BackfillStats
}.

(** The body of [for (let i = 0; i < maxBatches; i++)], up to and
    including [if (isDone) break]. *)
Definition batchBody (dryRun : bool) (batchSize : number) (st : LoopState)
  : M (LoopState * bool) :=
  page <- runQuery (getSkillBackfillPageInternal
                      {| arg_cursor := loop_cursor st;
                         arg_batchSize := Some batchSize |}) ;;
  totals <- forOf (items page) (loop_totals st) (processItem dryRun) ;;
  ret ({| loop_cursor := cursor page; loop_isDone := isDone page;
          loop_totals := totals |}, isDone page).

Definition backfillSkillSummariesInternalHandler (args : BackfillActionArgs)
  : M BackfillActionResult :=
  let dryRun := Boolean (arg_dryRun args) in
  let batchSize := clampInt (nullish (batchSize args) DEFAULT_BATCH_SIZE)
                            (of_Z 1) MAX_BATCH_SIZE in
  let maxBatches := clampInt (nullish (maxBatches args) DEFAULT_MAX_BATCHES)
                             (of_Z 1) MAX_MAX_BATCHES in
  st <- forBatches (JS.to_nat maxBatches)
          {| loop_cursor := None; loop_isDone := false; loop_totals := zeroStats |}
          (batchBody dryRun batchSize) ;;
  if negb (loop_isDone st) then throw incompleteError
  else ret {| ok := true; stats := loop_totals st |}.

End Orchestrator.

End SummaryBackfill.

(* ================================================================= *)
(** ** Fingerprint backfill *)

Module FingerprintBackfill.

Record FingerprintBackfillStats := {
  versionsScanned : nat;
  versionsPatched : nat;
  fingerprintsInserted : nat;
  fingerprintMismatches : nat
}.

(** [{ path, sha256 }] *)
Record HashedFile := {
  path : string;
  sha256 : string
}.

(** [{ id, fingerprint }] *)
Record EntrySummary := {
  entryId : Id;
  entryFingerprint : string
}.

Record FingerprintBackfillPageItem := {
  skillId : Id;
  versionId : Id;
  versionFingerprint : option string;
  files : list HashedFile;
  existingEntries : list EntrySummary
}.

Record FingerprintBackfillPageResult := {
  items : list FingerprintBackfillPageItem;
  cursor : option Cursor;
  isDone : bool
}.

(** The body of [for (const version of page)]; [continue] before the push
    is the return of the list as it is. *)
Definition inspectVersion (items : list FingerprintBackfillPageItem)
    (version : SkillVersion) : M (list FingerprintBackfillPageItem) :=
  existingEntries <- db_fingerprints_by_version (_id version) 20 ;;
  let normalizedFiles :=
    map (fun file => {| path := file_path file; sha256 := file_sha256 file |})
        (version_files version) in
  let hasAnyEntry := 0 <? List.length existingEntries in
  let entryFingerprints := Set_of (map entry_fingerprint existingEntries) in
  let hasFingerprintMismatch :=
    match version_fingerprint version with
    | Some stored =>
        hasAnyEntry &&
        (negb (Set_size entryFingerprints =? 1) || negb (Set_has entryFingerprints stored))
    | None => false
    end in
  let needsFingerprintField := negb (truthy (version_fingerprint version)) in
  let needsFingerprintEntry := negb hasAnyEntry in
  if negb needsFingerprintField && negb needsFingerprintEntry && negb hasFingerprintMismatch
  then ret items
  else
    ret (items ++
         [{| skillId := version_skillId version;
             versionId := _id version;
             versionFingerprint := version_fingerprint version;
             files := normalizedFiles;
             existingEntries :=
               map (fun entry => {| entryId := _id entry;
                                    entryFingerprint := entry_fingerprint entry |})
                   existingEntries |}]).

Definition getSkillFingerprintBackfillPageInternal (args : PageArgs)
  : M FingerprintBackfillPageResult :=
  let batchSize := clampInt (nullish (arg_batchSize args) DEFAULT_BATCH_SIZE)
                            (of_Z 1) MAX_BATCH_SIZE in
  r <- db_paginate skillVersionsTable (arg_cursor args) (JS.to_nat batchSize) ;;
  let '(page, isDone, continueCursor) := r in
  items <- forOf page [] inspectVersion ;;
  ret {| items := items; cursor := Some continueCursor; isDone := isDone |}.

Record PatchArgs := {
  arg_versionId : Id;
  arg_fingerprint : string;
  arg_patchVersion : bool;
  arg_replaceEntries : bool;
  arg_existingEntryIds : option (list Id)
}.

(** [{ ok: true }] or [{ ok: false, reason: 'missingVersion' }] *)
Inductive PatchResult : Type :=
| patch_ok
| patch_failed (reason : string).

(** [now] is what [Date.now()] returns inside the transaction. *)
Definition applySkillFingerprintBackfillPatchInternal (now : nat) (args : PatchArgs)
  : M PatchResult :=
  version <- db_get skillVersionsTable (arg_versionId args) ;;
  match version with
  | None => ret (patch_failed "missingVersion")
  | Some version =>
      (if arg_patchVersion args then
         db_patch skillVersionsTable (_id version)
           (fun v =>
              {| version_id := version_id v;
                 version_skillId := version_skillId v;
                 version_files := version_files v;
                 version_parsed := version_parsed v;
                 version_fingerprint := Some (arg_fingerprint args) |})
       else ret tt) ;;;
      (if arg_replaceEntries args then
         let existing := nullish (arg_existingEntryIds args) [] in
         forOf existing tt (fun _ id => db_delete fingerprintsTable id) ;;;
         db_insert_fingerprint (version_skillId version) (_id version)
                               (arg_fingerprint args) now ;;;
         ret tt
       else ret tt) ;;;
      ret patch_ok
  end.

Record FingerprintBackfillActionResult := {
  ok : bool;
  stats : FingerprintBackfillStats
}.

Section Orchestrator.

(** [hashSkillFiles] of [lib/skills]: the canonical hash of a file list,
    a pure function.  The orchestrator is stated for any such function. *)
Variable hashSkillFiles : list HashedFile -> string.

(** [Date_now n] is the reading of [Date.now()] inside the mutation
    issued for the [n]-th scanned item. *)
Variable Date_now : nat -> nat.

Definition bump_versionsScanned (t : FingerprintBackfillStats) :=
  {| versionsScanned := S (versionsScanned t); versionsPatched := versionsPatched t;
     fingerprintsInserted := fingerprintsInserted t;
     fingerprintMismatches := fingerprintMismatches t |}.

Definition bump_versionsPatched (t : FingerprintBackfillStats) :=
  {| versionsScanned := versionsScanned t; versionsPatched := S (versionsPatched t);
     fingerprintsInserted := fingerprintsInserted t;
     fingerprintMismatches := fingerprintMismatches t |}.

Definition bump_fingerprintsInserted (t : FingerprintBackfillStats) :=
  {| versionsScanned := versionsScanned t; versionsPatched := versionsPatched t;
     fingerprintsInserted := S (fingerprintsInserted t);
     fingerprintMismatches := fingerprintMismatches t |}.

Definition bump_fingerprintMismatches (t : FingerprintBackfillStats) :=
  {| versionsScanned := versionsScanned t; versionsPatched := versionsPatched t;
     fingerprintsInserted := fingerprintsInserted t;
     fingerprintMismatches := S (fingerprintMismatches t) |}.

(** The body of [for (const item of page.items)].  The value the applier
    returns is not looked at. *)
Definition processItem (dryRun : bool) (totals : FingerprintBackfillStats)
    (item : FingerprintBackfillPageItem) : M FingerprintBackfillStats :=
  let totals := bump_versionsScanned totals in
  let fingerprint := hashSkillFiles (files item) in
  let existingFingerprints := Set_of (map entryFingerprint (existingEntries item)) in
  let hasAnyEntry := 0 <? List.length (existingEntries item) in
  let entryIsCorrect :=
    hasAnyEntry && (Set_size existingFingerprints =? 1) &&
    Set_has existingFingerprints fingerprint in
  let versionFingerprintIsCorrect := strictEq (versionFingerprint item) fingerprint in
  let totals := if hasAnyEntry && negb entryIsCorrect
                then bump_fingerprintMismatches totals else totals in
  let shouldPatchVersion := negb versionFingerprintIsCorrect in
  let shouldReplaceEntries := negb entryIsCorrect in
  if negb shouldPatchVersion && negb shouldReplaceEntries then ret totals
  else
    let totals := if shouldPatchVersion then bump_versionsPatched totals else totals in
    let totals := if shouldReplaceEntries then bump_fingerprintsInserted totals else totals in
    if dryRun then ret totals
    else
      runMutation
        (applySkillFingerprintBackfillPatchInternal (Date_now (versionsScanned totals))
           {| arg_versionId := versionId item;
              arg_fingerprint := fingerprint;
              arg_patchVersion := shouldPatchVersion;
              arg_replaceEntries := shouldReplaceEntries;
              arg_existingEntryIds :=
                Some (if shouldReplaceEntries
                      then map entryId (existingEntries item) else []) |}) ;;;
      ret totals.

Definition zeroStats : FingerprintBackfillStats :=
  {| versionsScanned := 0; versionsPatched := 0;
     fingerprintsInserted := 0; fingerprintMismatches := 0 |}.

(** The locals of the handler that the batch loop updates. *)
Record LoopState := {
  loop_cursor : option Cursor;
  loop_isDone : bool;
  loop_totals : FingerprintBackfillStats
}.

(** The body of [for (let i = 0; i < maxBatches; i++)], up to and
    including [if (isDone) break]. *)
Definition batchBody (dryRun : bool) (batchSize : number) (st : LoopState)
  : M (LoopState * bool) :=
  page <- runQuery (getSkillFingerprintBackfillPageInternal
                      {| arg_cursor := loop_cursor st;
                         arg_batchSize := Some batchSize |}) ;;
  totals <- forOf (items page) (loop_totals st) (processItem dryRun) ;;
  ret ({| loop_cursor := cursor page; loop_isDone := isDone page;
          loop_totals := totals |}, isDone page).

Definition backfillSkillFingerprintsInternalHandler (args : BackfillActionArgs)
  : M FingerprintBackfillActionResult :=
  let dryRun := Boolean (arg_dryRun args) in
  let batchSize := clampInt (nullish (batchSize args) DEFAULT_BATCH_SIZE)
                            (of_Z 1) MAX_BATCH_SIZE in
  let maxBatches := clampInt (nullish (maxBatches args) DEFAULT_MAX_BATCHES)
                             (of_Z 1) MAX_MAX_BATCHES in
  st <- forBatches (JS.to_nat maxBatches)
          {| loop_cursor := None; loop_isDone := false; loop_totals := zeroStats |}
          (batchBody dryRun batchSize) ;;
  if negb (loop_isDone st) then throw incompleteError
  else ret {| ok := true; stats := loop_totals st |}.

End Orchestrator.

End FingerprintBackfill.

(* ================================================================= *)
(** ** Notions used to state the properties *)

(** The fingerprint entries of one version, in creation order (what the
    [by_version] index holds under that version's key). *)
Definition entriesOf (versionId : Id) (s : Store) : list SkillVersionFingerprint :=
  filter (fun e => entry_versionId e =? versionId) (skillVersionFingerprints s).

(** The integrity of a store that the application keeps up: identifiers
    are unique in each table and were handed out before [nextId], and a
    skill's latest version is a version of that skill (its [skillId]
    back-reference, which the database engine does not enforce). *)
Definition store_wf (s : Store) : Prop :=
  NoDup (map skill_id (skills s)) /\
  NoDup (map version_id (skillVersions s)) /\
  NoDup (map entry_id (skillVersionFingerprints s)) /\
  Forall (fun e => entry_id e < nextId s) (skillVersionFingerprints s) /\
  (forall skill latest version,
      In skill (skills s) ->
      skill_latestVersionId skill = Some latest ->
      lookup latest (skillVersions s) = Some version ->
      version_skillId version = skill_id skill).

(** The part of that integrity the database engine itself enforces:
    identifiers are unique in each table, and those of the fingerprint
    entries were handed out before [nextId]. *)
Definition ids_wf (s : Store) : Prop :=
  NoDup (map skill_id (skills s)) /\
  NoDup (map version_id (skillVersions s)) /\
  NoDup (map entry_id (skillVersionFingerprints s)) /\
  Forall (fun e => entry_id e < nextId s) (skillVersionFingerprints s).

(** No version document is the latest version of two skills. *)
Definition latest_unshared (s : Store) : Prop :=
  forall skill skill' latest,
    In skill (skills s) -> In skill' (skills s) ->
    skill_latestVersionId skill = Some latest ->
    skill_latestVersionId skill' = Some latest ->
    lookup latest (skillVersions s) <> None ->
    skill_id skill = skill_id skill'.

(** Engine integrity, with every latest version belonging to one skill
    only. *)
Definition latest_wf (s : Store) : Prop := ids_wf s /\ latest_unshared s.

(** The clamped batch size and batch count of a run, as natural numbers. *)
Definition batchSizeOf (args : BackfillActionArgs) : nat :=
  JS.to_nat (clampInt (nullish (batchSize args) DEFAULT_BATCH_SIZE) (of_Z 1) MAX_BATCH_SIZE).

Definition maxBatchesOf (args : BackfillActionArgs) : nat :=
  JS.to_nat (clampInt (nullish (maxBatches args) DEFAULT_MAX_BATCHES) (of_Z 1) MAX_MAX_BATCHES).

(** The values [f] yields on a list, in order. *)
Definition keep {A B} (f : A -> option B) (xs : list A) : list B :=
  flat_map (fun x => match f x with Some y => [y] | None => [] end) xs.

(** The batch loop that the two orchestrators share, over any table: each
    batch fetches a page, makes the items ([classify] is the fetcher's
    per-document work as a function of the store, [None] when it pushes
    nothing), processes them in order, and stops when the page is flagged
    done.  Both handlers are shown to be instances of it. *)
Section ScanLoop.
Context {Doc Item Totals : Type}.
Variable T : Table Doc.
Variable classify : Store -> Doc -> option Item.
Variable process : Totals -> Item -> M Totals.

Fixpoint scan (numItems n : nat) (cursor : option Cursor) (isDone : bool)
    (totals : Totals) : M (option Cursor * bool * Totals) :=
  match n with
  | O => ret (cursor, isDone, totals)
  | S k => fun s =>
      let '(page, done, continueCursor) := paginate (rows T s) cursor numItems in
      match forOf (keep (classify s) page) totals process s with
      | (s', Returned totals') =>
          if done then (s', Returned (Some continueCursor, done, totals'))
          else scan numItems k (Some continueCursor) done totals' s'
      | (s', Thrown e) => (s', Thrown e)
      end
  end.
End ScanLoop.

Module SB := SummaryBackfill.
Module FB := FingerprintBackfill.

(** *** What the summary page fetcher pushes for one skill *)

Definition latestVersionOf (s : Store) (skill : Skill) : option SkillVersion :=
  match skill_latestVersionId skill with
  | Some latest => lookup latest (skillVersions s)
  | None => None
  end.

Definition summaryItemFor (skill : Skill) (version : option SkillVersion)
  : SB.BackfillPageItem :=
  match skill_latestVersionId skill with
  | None => SB.kind_missingLatestVersion (skill_id skill)
  | Some latest =>
      match version with
      | None => SB.kind_missingVersionDoc (skill_id skill) latest
      | Some version =>
          match find SB.isReadme (version_files version) with
          | None => SB.kind_missingReadme (skill_id skill) (version_id version)
          | Some readmeFile =>
              SB.kind_ok (skill_id skill) (version_id version) (skill_summary skill)
                         (version_parsed version) (file_storageId readmeFile)
          end
      end
  end.

Definition summaryItemOf (s : Store) (skill : Skill) : SB.BackfillPageItem :=
  summaryItemFor skill (latestVersionOf s skill).

(** The Kelvin sign U+212A. *)
Definition kelvinSign : string :=
  String (utf8 226) (String (utf8 132) (String (utf8 170) EmptyString)).

(** [C] is the capital of the small ASCII letter [c]. *)
Definition capitalOf (C c : ascii) : Prop :=
  (97 <= nat_of_ascii c <= 122)%nat /\ (nat_of_ascii C + 32 = nat_of_ascii c)%nat.

(** The README test of section 4.1 in the words of the specification:
    [path] equals the lower-case name [name] case-insensitively.  Read
    letter by letter: each character of [path] is the character of
    [name], or its capital, or, for [k], the Kelvin sign, the one
    character outside ASCII whose lower-case form is an ASCII letter. *)
Inductive equalsIgnoringCase : string -> string -> Prop :=
| eic_end : equalsIgnoringCase EmptyString EmptyString
| eic_same (c : ascii) (path name : string) :
    equalsIgnoringCase path name -> equalsIgnoringCase (String c path) (String c name)
| eic_capital (C c : ascii) (path name : string) :
    capitalOf C c ->
    equalsIgnoringCase path name -> equalsIgnoringCase (String C path) (String c name)
| eic_kelvin (path name : string) :
    equalsIgnoringCase path name ->
    equalsIgnoringCase (kelvinSign ++ path)%string (String "k" name).

Definition namesReadme (path : string) : Prop :=
  equalsIgnoringCase path "skill.md" \/ equalsIgnoringCase path "skills.md".

(** A name made of ASCII characters none of which is a capital. *)
Fixpoint lowerName (name : string) : bool :=
  match name with
  | EmptyString => true
  | String c rest =>
      (nat_of_ascii c <? 128)%nat &&
      negb ((65 <=? nat_of_ascii c)%nat && (nat_of_ascii c <=? 90)%nat) &&
      lowerName rest
  end.

(** The classification of section 4.1, case by case. *)
Inductive classifiedAs (s : Store) (skill : Skill) : SB.BackfillPageItem -> Prop :=
| as_missingLatestVersion :
    skill_latestVersionId skill = None ->
    classifiedAs s skill (SB.kind_missingLatestVersion (skill_id skill))
| as_missingVersionDoc (latest : Id) :
    skill_latestVersionId skill = Some latest ->
    lookup latest (skillVersions s) = None ->
    classifiedAs s skill (SB.kind_missingVersionDoc (skill_id skill) latest)
| as_missingReadme (latest : Id) (version : SkillVersion) :
    skill_latestVersionId skill = Some latest ->
    lookup latest (skillVersions s) = Some version ->
    (forall file, In file (version_files version) -> ~ namesReadme (file_path file)) ->
    classifiedAs s skill (SB.kind_missingReadme (skill_id skill) (version_id version))
| as_ok (latest : Id) (version : SkillVersion) (before after : list SkillFile)
        (readme : SkillFile) :
    skill_latestVersionId skill = Some latest ->
    lookup latest (skillVersions s) = Some version ->
    version_files version = before ++ readme :: after ->
    (forall file, In file before -> ~ namesReadme (file_path file)) ->
    namesReadme (file_path readme) ->
    classifiedAs s skill
      (SB.kind_ok (skill_id skill) (version_id version) (skill_summary skill)
                  (version_parsed version) (file_storageId readme)).

(** *** What the fingerprint page fetcher pushes for one version *)

Definition fingerprintItemFor (version : SkillVersion)
    (fetched : list SkillVersionFingerprint) : option FB.FingerprintBackfillPageItem :=
  let hasAnyEntry := 0 <? List.length fetched in
  let entryFingerprints := Set_of (map entry_fingerprint fetched) in
  let hasFingerprintMismatch :=
    match version_fingerprint version with
    | Some stored =>
        hasAnyEntry &&
        (negb (Set_size entryFingerprints =? 1) || negb (Set_has entryFingerprints stored))
    | None => false
    end in
  if negb (negb (truthy (version_fingerprint version))) && negb (negb hasAnyEntry) &&
     negb hasFingerprintMismatch
  then None
  else Some {| FB.skillId := version_skillId version;
               FB.versionId := version_id version;
               FB.versionFingerprint := version_fingerprint version;
               FB.files := map (fun file => {| FB.path := file_path file;
                                               FB.sha256 := file_sha256 file |})
                               (version_files version);
               FB.existingEntries :=
                 map (fun entry => {| FB.entryId := entry_id entry;
                                      FB.entryFingerprint := entry_fingerprint entry |})
                     fetched |}.

Definition fingerprintItemOf (s : Store) (version : SkillVersion)
  : option FB.FingerprintBackfillPageItem :=
  fingerprintItemFor version (firstn 20 (entriesOf (version_id version) s)).

(** The fetched entries carry one single fingerprint value. *)
Definition oneFingerprint (fetched : list SkillVersionFingerprint) : bool :=
  Set_size (Set_of (map entry_fingerprint fetched)) =? 1.

(** The three conditions of section 4.4 on a version's stored fingerprint
    and the entries fetched for it; [absent] says when the stored field
    counts as absent. *)
Definition entriesDisagree (fetched : list SkillVersionFingerprint) : Prop :=
  exists e1 e2, In e1 fetched /\ In e2 fetched /\
                entry_fingerprint e1 <> entry_fingerprint e2.

Definition needsWork (absent : option string -> Prop) (stored : option string)
    (fetched : list SkillVersionFingerprint) : Prop :=
  absent stored \/
  fetched = [] \/
  (exists fp, stored = Some fp /\ fetched <> [] /\
     (entriesDisagree fetched \/
      forall e, In e fetched -> entry_fingerprint e <> fp)).

(** "Absent" read as "not set". *)
Definition fieldUnset (stored : option string) : Prop := stored = None.

(** "Absent" as the code tests it ([!version.fingerprint]): not set, or the
    empty string. *)
Definition fieldFalsy (stored : option string) : Prop :=
  stored = None \/ stored = Some "".

(** A version whose stored fingerprint is the empty string, with one entry
    carrying the same value. *)
Definition emptyFingerprintVersion : SkillVersion :=
  {| version_id := 1; version_skillId := 0; version_files := [];
     version_parsed := {| frontmatter := []; metadata := None; clawdis := None |};
     version_fingerprint := Some "" |}.

Definition emptyFingerprintEntry : SkillVersionFingerprint :=
  {| entry_id := 2; entry_skillId := 0; entry_versionId := 1;
     entry_fingerprint := ""; entry_createdAt := 0 |}.

Definition emptyFingerprintStore : Store :=
  {| skills := []; skillVersions := [emptyFingerprintVersion];
     skillVersionFingerprints := [emptyFingerprintEntry];
     storage := []; nextId := 3 |}.

(** *** What the fingerprint orchestrator does with one item *)

Section FingerprintItem.
Variable hashSkillFiles : list FB.HashedFile -> string.

(** [entryIsCorrect] of the orchestrator, on the entry summaries of an
    item. *)
Definition entryIsCorrect (item : FB.FingerprintBackfillPageItem) : bool :=
  (0 <? List.length (FB.existingEntries item)) &&
  (Set_size (Set_of (map FB.entryFingerprint (FB.existingEntries item))) =? 1) &&
  Set_has (Set_of (map FB.entryFingerprint (FB.existingEntries item)))
          (hashSkillFiles (FB.files item)).

(** [versionFingerprintIsCorrect] of the orchestrator. *)
Definition versionFingerprintIsCorrect (item : FB.FingerprintBackfillPageItem) : bool :=
  strictEq (FB.versionFingerprint item) (hashSkillFiles (FB.files item)).

(** The counters after one item. *)
Definition fingerprintTally (item : FB.FingerprintBackfillPageItem)
    (totals : FB.FingerprintBackfillStats) : FB.FingerprintBackfillStats :=
  let totals := FB.bump_versionsScanned totals in
  let totals := if (0 <? List.length (FB.existingEntries item)) && negb (entryIsCorrect item)
                then FB.bump_fingerprintMismatches totals else totals in
  let totals := if negb (versionFingerprintIsCorrect item)
                then FB.bump_versionsPatched totals else totals in
  if negb (entryIsCorrect item) then FB.bump_fingerprintsInserted totals else totals.

(** The arguments the orchestrator hands to the applier for an item. *)
Definition fingerprintPatchArgs (item : FB.FingerprintBackfillPageItem) : FB.PatchArgs :=
  {| FB.arg_versionId := FB.versionId item;
     FB.arg_fingerprint := hashSkillFiles (FB.files item);
     FB.arg_patchVersion := negb (versionFingerprintIsCorrect item);
     FB.arg_replaceEntries := negb (entryIsCorrect item);
     FB.arg_existingEntryIds :=
       Some (if negb (entryIsCorrect item)
             then map FB.entryId (FB.existingEntries item) else []) |}.

End FingerprintItem.

(** *** What the fingerprint scan reads and writes about one version *)

(** The version document with a given id, if any, and the version's
    fingerprint entries. *)
Definition FingerprintView : Type := option SkillVersion * list SkillVersionFingerprint.

Definition fingerprintView (s : Store) (versionId : Id) : FingerprintView :=
  (lookup versionId (skillVersions s), entriesOf versionId s).

Definition fingerprintDecision (v : FingerprintView)
  : option FB.FingerprintBackfillPageItem :=
  match fst v with
  | Some version => fingerprintItemFor version (firstn 20 (snd v))
  | None => None
  end.

(** The version document after [patch(version._id, { fingerprint })]. *)
Definition setFingerprint (fingerprint : string) (v : SkillVersion) : SkillVersion :=
  {| version_id := version_id v;
     version_skillId := version_skillId v;
     version_files := version_files v;
     version_parsed := version_parsed v;
     version_fingerprint := Some fingerprint |}.

(** The rows left once the rows carrying the given ids are gone. *)
Definition removeIds (ids : list Id) (tbl : list SkillVersionFingerprint)
  : list SkillVersionFingerprint :=
  filter (fun e => negb (existsb (Nat.eqb (entry_id e)) ids)) tbl.

Section FingerprintStep.
Variable hashSkillFiles : list FB.HashedFile -> string.

Definition fingerprintCount (v : FingerprintView) (totals : FB.FingerprintBackfillStats)
  : FB.FingerprintBackfillStats :=
  match fingerprintDecision v with
  | Some item => fingerprintTally hashSkillFiles item totals
  | None => totals
  end.

(** The view of an emitted version before and after a real run processed
    its item: the stored field is the computed fingerprint; the entries
    are as before when they were correct, and otherwise the fetched ones
    are gone and one new entry follows the rest. *)
Definition fingerprintStep (v v' : FingerprintView) : Prop :=
  exists version item,
    fst v = Some version /\
    fingerprintDecision v = Some item /\
    fst v' = Some (if versionFingerprintIsCorrect hashSkillFiles item then version
                   else setFingerprint (hashSkillFiles (FB.files item)) version) /\
    if entryIsCorrect hashSkillFiles item then snd v' = snd v
    else exists newId now,
        ~ In newId (map entry_id (snd v)) /\
        snd v' = removeIds (map entry_id (firstn 20 (snd v))) (snd v)
                 ++ [{| entry_id := newId;
                        entry_skillId := version_skillId version;
                        entry_versionId := version_id version;
                        entry_fingerprint := hashSkillFiles (FB.files item);
                        entry_createdAt := now |}].

(** Nothing is left to do for the version: the fetcher skips it, or the
    orchestrator finds both the stored field and the entries correct. *)
Definition fingerprintSettled (v : FingerprintView) : Prop :=
  forall item, fingerprintDecision v = Some item ->
               entryIsCorrect hashSkillFiles item = true /\
               versionFingerprintIsCorrect hashSkillFiles item = true.

End FingerprintStep.

(** *** Notions for the fingerprint claims *)

(** [hash(files)]: the canonical fingerprint of a version, as the
    orchestrator computes it from the item's [{ path, sha256 }] list. *)
Definition fingerprintOf (hashSkillFiles : list FB.HashedFile -> string)
    (version : SkillVersion) : string :=
  hashSkillFiles (map (fun file => {| FB.path := file_path file;
                                      FB.sha256 := file_sha256 file |})
                      (version_files version)).



(** *** Sample data for closed statements *)

(** A stand-in for [hashSkillFiles]: the file digests, joined. *)
Definition sampleHash (files : list FB.HashedFile) : string :=
  String.concat ":" (map FB.sha256 files).

(** A clock for closed statements. *)
Definition sampleClock (n : nat) : nat := 1000 + n.

Definition defaultArgs : BackfillActionArgs :=
  {| arg_dryRun := None; batchSize := None; maxBatches := None |}.

Definition emptyParsed : ParsedSkillData :=
  {| frontmatter := []; metadata := None; clawdis := None |}.

Definition sampleFiles : list SkillFile :=
  [{| file_path := "SKILL.md"; file_sha256 := "a"; file_storageId := 50 |};
   {| file_path := "x.ts"; file_sha256 := "b"; file_storageId := 51 |}].

Definition sampleVersion (stored : option string) : SkillVersion :=
  {| version_id := 1; version_skillId := 0; version_files := sampleFiles;
     version_parsed := emptyParsed; version_fingerprint := stored |}.

Definition sampleEntry (id : Id) (fingerprint : string) : SkillVersionFingerprint :=
  {| entry_id := id; entry_skillId := 0; entry_versionId := 1;
     entry_fingerprint := fingerprint; entry_createdAt := 0 |}.

Definition sampleStore (stored : option string) (entries : list SkillVersionFingerprint)
  : Store :=
  {| skills := [{| skill_id := 0; skill_latestVersionId := Some 1;
                   skill_summary := None; skill_updatedAt := 0 |}];
     skillVersions := [sampleVersion stored];
     skillVersionFingerprints := entries;
     storage := [(50, "readme")];
     nextId := 100 |}.

(** Stored field and single entry agree on a value that is not the hash of
    the files. *)
Definition staleStore : Store := sampleStore (Some "stale") [sampleEntry 2 "stale"].

(** No stored field; two entries that both carry the hash of the files. *)
Definition duplicateStore : Store :=
  sampleStore None [sampleEntry 2 "a:b"; sampleEntry 3 "a:b"].

(** No stored field; twenty-one entries with an outdated value. *)
Definition crowdedStore : Store :=
  sampleStore None (map (fun i => sampleEntry (2 + i) "old") (seq 0 21)).

(** *** What the summary scan reads and writes about one skill *)

(** The text of a stored blob, if the blob exists. *)
Definition blobText (blobs : list (Id * string)) (id : Id) : option string :=
  option_map snd (find (fun b => fst b =? id) blobs).

(** [!patch.summary && !patch.parsed] *)
Definition patchIsEmpty (patch : SB.SummaryPatch) : bool :=
  negb (truthy (SB.patch_summary patch)) && negb (defined (SB.patch_parsed patch)).

(** The skill and version documents after the applier's two patches. *)
Definition patchSkill (now : nat) (patch : SB.SummaryPatch) (skill : Skill) : Skill :=
  match SB.patch_summary patch with
  | Some summary =>
      {| skill_id := skill_id skill;
         skill_latestVersionId := skill_latestVersionId skill;
         skill_summary := Some summary;
         skill_updatedAt := now |}
  | None => skill
  end.

Definition patchVersion (patch : SB.SummaryPatch) (version : SkillVersion) : SkillVersion :=
  match SB.patch_parsed patch with
  | Some parsed =>
      {| version_id := version_id version;
         version_skillId := version_skillId version;
         version_files := version_files version;
         version_parsed := parsed;
         version_fingerprint := version_fingerprint version |}
  | None => version
  end.

(** The skill document with a given id, the version document its
    [latestVersionId] resolves to, and the blob store. *)
Definition SummaryView : Type := option Skill * option SkillVersion * list (Id * string).

Definition summaryView (s : Store) (skillId : Id) : SummaryView :=
  (lookup skillId (skills s),
   match lookup skillId (skills s) with
   | Some skill => latestVersionOf s skill
   | None => None
   end,
   storage s).

Definition summaryDecision (v : SummaryView) : option SB.BackfillPageItem :=
  match fst (fst v) with
  | Some skill => Some (summaryItemFor skill (snd (fst v)))
  | None => None
  end.

Section SummaryItem.
Variable buildSkillSummaryBackfillPatch :
  string -> option string -> ParsedSkillData -> SB.SummaryPatch.

(** The patch the orchestrator computes for an item, when it gets as far
    as computing one. *)
Definition summaryPatchFor (blobs : list (Id * string)) (item : SB.BackfillPageItem)
  : option SB.SummaryPatch :=
  match item with
  | SB.kind_ok _ _ skillSummary versionParsed readmeStorageId =>
      match blobText blobs readmeStorageId with
      | Some readmeText =>
          Some (buildSkillSummaryBackfillPatch readmeText skillSummary versionParsed)
      | None => None
      end
  | _ => None
  end.

(** The counters after one item. *)
Definition summaryTally (blobs : list (Id * string)) (item : SB.BackfillPageItem)
    (totals : SB.BackfillStats) : SB.BackfillStats :=
  let totals := SB.bump_skillsScanned totals in
  match item with
  | SB.kind_missingLatestVersion _ => SB.bump_missingLatestVersion totals
  | SB.kind_missingVersionDoc _ _ => SB.bump_missingLatestVersion totals
  | SB.kind_missingReadme _ _ => SB.bump_missingReadme totals
  | SB.kind_ok _ _ skillSummary versionParsed readmeStorageId =>
      match blobText blobs readmeStorageId with
      | None => SB.bump_missingStorageBlob totals
      | Some readmeText =>
          let patch := buildSkillSummaryBackfillPatch readmeText skillSummary versionParsed in
          let totals := if truthy (SB.patch_summary patch)
                        then SB.bump_skillsPatched totals else totals in
          if defined (SB.patch_parsed patch) then SB.bump_versionsPatched totals else totals
      end
  end.

Definition summaryCount (v : SummaryView) (totals : SB.BackfillStats) : SB.BackfillStats :=
  match summaryDecision v with
  | Some item => summaryTally (snd v) item totals
  | None => totals
  end.

(** The view of a skill before and after a real run processed its item:
    as before when no patch was computed or the patch was empty, and
    otherwise with the patch applied to the skill and to its version. *)
Definition summaryStep (v v' : SummaryView) : Prop :=
  exists skill item,
    fst (fst v) = Some skill /\
    summaryDecision v = Some item /\
    match summaryPatchFor (snd v) item with
    | None => v' = v
    | Some patch =>
        if patchIsEmpty patch then v' = v
        else exists now,
            v' = (Some (patchSkill now patch skill),
                  option_map (patchVersion patch) (snd (fst v)),
                  snd v)
    end.

(** Nothing is left to do for the skill: no patch is computed for it, or
    the patch is empty. *)
Definition summarySettled (v : SummaryView) : Prop :=
  forall item patch,
    summaryDecision v = Some item ->
    summaryPatchFor (snd v) item = Some patch ->
    patchIsEmpty patch = true.


End SummaryItem.

(** A stand-in for [buildSkillSummaryBackfillPatch]: the summary is to be
    the README text; the parsed metadata is left alone. *)
Definition sampleBuild (readmeText : string) (currentSummary : option string)
    (currentParsed : ParsedSkillData) : SB.SummaryPatch :=
  {| SB.patch_summary := if strictEq currentSummary readmeText then None else Some readmeText;
     SB.patch_parsed := None |}.

(** One batch of one document. *)
Definition oneByOneArgs : BackfillActionArgs :=
  {| arg_dryRun := None; batchSize := Some (of_Z 1); maxBatches := Some (of_Z 1) |}.

(** A store whose only skill has no latest version. *)
Definition orphanSkillStore : Store :=
  {| skills := [{| skill_id := 0; skill_latestVersionId := None;
                   skill_summary := None; skill_updatedAt := 0 |}];
     skillVersions := []; skillVersionFingerprints := []; storage := []; nextId := 1 |}.

(** *** Notions for paginated scans *)

Section ScanNotions.
Context {Doc Item Totals V : Type} `{Document Doc}.
Variable T : Table Doc.
(** What the scan reads and writes about the document with a given id. *)
Variable view : Store -> Id -> V.
(** The fetcher's decision, from the view of the document. *)
Variable classifyV : V -> option Item.
(** The counters after the document, from its view. *)
Variable count : V -> Totals -> Totals.
(** The standing assumption on stores. *)
Variable Inv : Store -> Prop.
(** How processing a document changes its view. *)
Variable Step : V -> V -> Prop.

Definition keysOf (s : Store) : list Id := map _id (rows T s).

(** The counters after the documents [ks], read off the store [s]. *)
Definition tallyAll (s : Store) (ks : list Id) (t : Totals) : Totals :=
  fold_left (fun t k => count (view s k) t) ks t.

Definition VisitRel (v v' : V) : Prop :=
  match classifyV v with
  | Some _ => Step v v'
  | None => v' = v
  end.

(** [s1] is [s0] after the documents [ks] were visited, each once. *)
Definition Visited (ks : list Id) (s0 s1 : Store) : Prop :=
  Inv s1 /\ keysOf s1 = keysOf s0 /\
  forall k, (In k ks -> VisitRel (view s0 k) (view s1 k)) /\
            (~ In k ks -> view s1 k = view s0 k).

End ScanNotions.

(** Whether a scan that fetches up to [n] pages of [numItems] documents
    sees [isDone] on one of them. *)
Fixpoint reachesDone {D} (tbl : list D) (numItems n : nat) (cursor : option Cursor) : bool :=
  match n with
  | O => false
  | S k =>
      let '(_, done, continueCursor) := paginate tbl cursor numItems in
      done || reachesDone tbl numItems k (Some continueCursor)
  end.

(** *** Results of whole runs *)

Section FingerprintRunNotions.
Variable hashSkillFiles : list FB.HashedFile -> string.
Variable Date_now : nat -> nat.

(** The store an applier call that finds its version ends in, given that
    the listed entries exist. *)
Definition fingerprintPatched (now : nat) (args : FB.PatchArgs) (version : SkillVersion)
    (s : Store) : Store :=
  {| skills := skills s;
     skillVersions :=
       if FB.arg_patchVersion args
       then patchRow (version_id version) (setFingerprint (FB.arg_fingerprint args))
                     (skillVersions s)
       else skillVersions s;
     skillVersionFingerprints :=
       if FB.arg_replaceEntries args
       then removeIds (nullish (FB.arg_existingEntryIds args) [])
                      (skillVersionFingerprints s)
            ++ [{| entry_id := nextId s;
                   entry_skillId := version_skillId version;
                   entry_versionId := version_id version;
                   entry_fingerprint := FB.arg_fingerprint args;
                   entry_createdAt := now |}]
       else skillVersionFingerprints s;
     storage := storage s;
     nextId := if FB.arg_replaceEntries args then S (nextId s) else nextId s |}.

(** The reading of the clock the mutation for an item sees. *)
Definition fingerprintPatchTime (item : FB.FingerprintBackfillPageItem)
    (totals : FB.FingerprintBackfillStats) : nat :=
  Date_now (FB.versionsScanned (fingerprintTally hashSkillFiles item totals)).

(** The result of the handler, from the result of the scan. *)
Definition fingerprintResult
    (r : Store * Outcome (option Cursor * bool * FB.FingerprintBackfillStats))
  : Store * Outcome FB.FingerprintBackfillActionResult :=
  match r with
  | (s', Returned (_, isDone, totals)) =>
      if isDone then (s', Returned {| FB.ok := true; FB.stats := totals |})
      else (s', Thrown incompleteError)
  | (s', Thrown e) => (s', Thrown e)
  end.

(** The versions a run reaches: pagination stops after [maxBatches] pages
    of [batchSize] versions. *)
Definition versionsReached (args : BackfillActionArgs) (s : Store) : list Id :=
  firstn (maxBatchesOf args * batchSizeOf args) (map version_id (skillVersions s)).

(** What a run returns or throws, read off the store it starts in. *)
Definition fingerprintOutcome (args : BackfillActionArgs) (s : Store)
  : Outcome FB.FingerprintBackfillActionResult :=
  if List.length (skillVersions s) <=? maxBatchesOf args * batchSizeOf args
  then Returned {| FB.ok := true;
                   FB.stats := tallyAll fingerprintView (fingerprintCount hashSkillFiles) s
                                        (versionsReached args s) FB.zeroStats |}
  else Thrown incompleteError.

End FingerprintRunNotions.

Section SummaryRunNotions.
Variable buildSkillSummaryBackfillPatch :
  string -> option string -> ParsedSkillData -> SB.SummaryPatch.

(** The store after the summary applier ran with a patch. *)
Definition summaryPatched (now : nat) (patch : SB.SummaryPatch) (skillId versionId : Id)
    (s : Store) : Store :=
  {| skills := patchRow skillId (patchSkill now patch) (skills s);
     skillVersions := patchRow versionId (patchVersion patch) (skillVersions s);
     skillVersionFingerprints := skillVersionFingerprints s;
     storage := storage s;
     nextId := nextId s |}.

(** The result of the handler, from the result of the scan. *)
Definition summaryResult
    (r : Store * Outcome (option Cursor * bool * SB.BackfillStats))
  : Store * Outcome SB.BackfillActionResult :=
  match r with
  | (s', Returned (_, isDone, totals)) =>
      if isDone then (s', Returned {| SB.ok := true; SB.stats := totals |})
      else (s', Thrown incompleteError)
  | (s', Thrown e) => (s', Thrown e)
  end.

(** The skills a run reaches. *)
Definition skillsReached (args : BackfillActionArgs) (s : Store) : list Id :=
  firstn (maxBatchesOf args * batchSizeOf args) (map skill_id (skills s)).

(** What a run returns or throws, read off the store it starts in. *)
Definition summaryOutcome (args : BackfillActionArgs) (s : Store)
  : Outcome SB.BackfillActionResult :=
  if List.length (skills s) <=? maxBatchesOf args * batchSizeOf args
  then Returned {| SB.ok := true;
                   SB.stats := tallyAll summaryView
                                        (summaryCount buildSkillSummaryBackfillPatch) s
                                        (skillsReached args s) SB.zeroStats |}
  else Thrown incompleteError.

End SummaryRunNotions.

(** The store invariants the analysis of a job can be carried out under:
    they hold engine integrity (for the summary job also unshared latest
    versions), and the job's applier keeps them. *)
Class FingerprintInvariant (Inv : Store -> Prop) : Prop := {
  fingerprint_inv_ids : forall s, Inv s -> ids_wf s;
  fingerprint_inv_patched :
    forall now args version s,
      Inv s -> lookup (FB.arg_versionId args) (skillVersions s) = Some version ->
      Inv (fingerprintPatched now args version s)
}.

Class SummaryInvariant (Inv : Store -> Prop) : Prop := {
  summary_inv_ids : forall s, Inv s -> ids_wf s;
  summary_inv_unshared : forall s, Inv s -> latest_unshared s;
  summary_inv_patched :
    forall now patch skillId versionId s,
      Inv s -> Inv (summaryPatched now patch skillId versionId s)
}.

(* ================================================================= *)
(** ** What a run leaves as it is *)

(** A computation keeps a relation between the store it starts in and the
    store it ends in, whether it returns or throws. *)
Definition keeps {A} (R : Store -> Store -> Prop) (m : M A) : Prop :=
  forall s, R s (fst (m s)).

(** A skill document apart from the fields the summary applier writes
    ([summary] and [updatedAt]). *)
Definition skillApartFromSummary (skill : Skill) : Id * option Id :=
  (skill_id skill, skill_latestVersionId skill).

(** A version document apart from [parsed]. *)
Definition versionApartFromParsed (version : SkillVersion)
  : Id * Id * list SkillFile * option string :=
  (version_id version, version_skillId version, version_files version,
   version_fingerprint version).

(** A version document apart from [fingerprint]. *)
Definition versionApartFromFingerprint (version : SkillVersion)
  : Id * Id * list SkillFile * ParsedSkillData :=
  (version_id version, version_skillId version, version_files version,
   version_parsed version).

(** What no write of the summary job reaches: the documents of both tables
    are the same, in the same order, up to [summary], [updatedAt] and
    [parsed]; fingerprint entries, blobs and the id counter are as they
    were. *)
Definition summaryFrame (s s' : Store) : Prop :=
  map skillApartFromSummary (skills s') = map skillApartFromSummary (skills s) /\
  map versionApartFromParsed (skillVersions s')
    = map versionApartFromParsed (skillVersions s) /\
  skillVersionFingerprints s' = skillVersionFingerprints s /\
  storage s' = storage s /\
  nextId s' = nextId s.

(** What no write of the fingerprint job reaches: skills and blobs are as
    they were; the versions are the same, in the same order, up to
    [fingerprint]; an entry present afterwards was there before,
    unmodified, or carries an id handed out since. *)
Definition fingerprintFrame (s s' : Store) : Prop :=
  skills s' = skills s /\
  map versionApartFromFingerprint (skillVersions s')
    = map versionApartFromFingerprint (skillVersions s) /\
  storage s' = storage s /\
  nextId s <= nextId s' /\
  forall e, In e (skillVersionFingerprints s') ->
            In e (skillVersionFingerprints s) \/ nextId s <= entry_id e.

(** The counters of a summary run add up: every scanned skill is counted
    in at most one of the "missing" counters or as patched. *)
Definition summaryStatsAddUp (t : SB.BackfillStats) : Prop :=
  SB.missingLatestVersion t + SB.missingReadme t + SB.missingStorageBlob t
    + Nat.max (SB.skillsPatched t) (SB.versionsPatched t) <= SB.skillsScanned t.

(** The counters of a fingerprint run add up. *)
Definition fingerprintStatsAddUp (t : FB.FingerprintBackfillStats) : Prop :=
  FB.fingerprintMismatches t <= FB.fingerprintsInserted t /\
  FB.fingerprintsInserted t <= FB.versionsScanned t /\
  FB.versionsPatched t <= FB.versionsScanned t.

(* ================================================================= *)
(** ** The scheduling entry points *)

(** The internal actions a call can be scheduled for. *)
Inductive InternalAction : Type :=
| backfillSkillSummariesInternal
| backfillSkillFingerprintsInternal.

(** A call queued by [ctx.scheduler.runAfter(delayMs, fn, args)]. *)
Record ScheduledCall := {
  call_delayMs : nat;
  call_function : InternalAction;
  call_args : BackfillActionArgs
}.

(** What a public action acts on: the documents and the scheduler's
    queue. *)
Record ActionCtx := {
  ctx_store : Store;
  ctx_scheduled : list ScheduledCall
}.

Definition Action (A : Type) : Type := ActionCtx -> ActionCtx * Outcome A.

Definition andThen {A B} (m : Action A) (k : A -> Action B) : Action B :=
  fun c =>
    match m c with
    | (c', Returned a) => k a c'
    | (c', Thrown e) => (c', Thrown e)
    end.

(** [ctx.scheduler.runAfter]: the call joins the queue; nothing runs
    yet. *)
Definition scheduler_runAfter (delayMs : nat) (fn : InternalAction)
    (args : BackfillActionArgs) : Action unit :=
  fun c =>
    ({| ctx_store := ctx_store c;
        ctx_scheduled := ctx_scheduled c ++
          [{| call_delayMs := delayMs; call_function := fn; call_args := args |}] |},
     Returned tt).

Section PublicActions.

(** [requireUserFromAction] and [assertRole] of [lib/access].  Their
    definitions are not part of this file's subject; the entry points are
    stated for any such functions.  [assertRole] returns or throws without
    touching the context. *)
Variable User : Type.
Variable requireUserFromAction : Action User.
Variable assertRole : User -> list string -> Outcome unit.

Definition scheduleBackfillSkillSummaries (dryRun : option bool) : Action bool :=
  andThen requireUserFromAction (fun user =>
  andThen (fun c => (c, assertRole user ["admin"])) (fun _ =>
  andThen (scheduler_runAfter 0 backfillSkillSummariesInternal
             {| arg_dryRun := Some (Boolean dryRun);
                batchSize := Some DEFAULT_BATCH_SIZE;
                maxBatches := Some DEFAULT_MAX_BATCHES |}) (fun _ =>
  fun c => (c, Returned true)))).

Definition scheduleBackfillSkillFingerprints (dryRun : option bool) : Action bool :=
  andThen requireUserFromAction (fun user =>
  andThen (fun c => (c, assertRole user ["admin"])) (fun _ =>
  andThen (scheduler_runAfter 0 backfillSkillFingerprintsInternal
             {| arg_dryRun := Some (Boolean dryRun);
                batchSize := Some DEFAULT_BATCH_SIZE;
                maxBatches := Some DEFAULT_MAX_BATCHES |}) (fun _ =>
  fun c => (c, Returned true)))).

End PublicActions.

(** Stand-ins for the access checks in closed statements: every caller is
    the one user, who passes. *)
Definition sampleRequireUser : Action unit := fun c => (c, Returned tt).
Definition sampleAssertRole (user : unit) (roles : list string) : Outcome unit :=
  Returned tt.

(** Arguments that differ from [oneByOneArgs] before clamping only. *)
Definition unclampedArgs : BackfillActionArgs :=
  {| arg_dryRun := Some false; batchSize := Some NaN;
     maxBatches := Some double_0_9 |}.

(** An item of the fingerprint job that lists an entry the store does not
    hold (the entry was deleted after the page was fetched). *)
Definition staleItem : FB.FingerprintBackfillPageItem :=
  {| FB.skillId := 0; FB.versionId := 1; FB.versionFingerprint := None;
     FB.files := [];
     FB.existingEntries := [{| FB.entryId := 7; FB.entryFingerprint := "old" |}] |}.

(** Two skills, each with a version whose README is stored and whose
    summary is still to be filled in. *)
Definition twoSkillStore : Store :=
  {| skills := [{| skill_id := 0; skill_latestVersionId := Some 1;
                   skill_summary := None; skill_updatedAt := 0 |};
                {| skill_id := 2; skill_latestVersionId := Some 3;
                   skill_summary := None; skill_updatedAt := 0 |}];
     skillVersions := [{| version_id := 1; version_skillId := 0;
                          version_files := sampleFiles; version_parsed := emptyParsed;
                          version_fingerprint := None |};
                       {| version_id := 3; version_skillId := 2;
                          version_files := sampleFiles; version_parsed := emptyParsed;
                          version_fingerprint := None |}];
     skillVersionFingerprints := [];
     storage := [(50, "readme")];
     nextId := 100 |}.

(** Stored field and single entry both carry the hash of the files. *)
Definition settledStore : Store := sampleStore (Some "a:b") [sampleEntry 2 "a:b"].

(* ================================================================= *)
(** ** What the counters of a completed run count *)

Section SummaryCounters.
Variable buildSkillSummaryBackfillPatch :
  string -> option string -> ParsedSkillData -> SB.SummaryPatch.

(** The README file of a skill's latest version, if there is one. *)
Definition readmeOf (s : Store) (skill : Skill) : option SkillFile :=
  match latestVersionOf s skill with
  | Some version => find SB.isReadme (version_files version)
  | None => None
  end.

(** The patch the job computes for a skill, when its latest version has a
    README file whose blob is stored. *)
Definition summaryPatchOf (s : Store) (skill : Skill) : option SB.SummaryPatch :=
  match latestVersionOf s skill with
  | Some version =>
      match find SB.isReadme (version_files version) with
      | Some readme =>
          match blobText (storage s) (file_storageId readme) with
          | Some readmeText =>
              Some (buildSkillSummaryBackfillPatch readmeText (skill_summary skill)
                                                   (version_parsed version))
          | None => None
          end
      | None => None
      end
  | None => None
  end.

(** The counters of the summary job, read off the skills of a store. *)
Definition summaryCounters (s : Store) : SB.BackfillStats :=
  let count := fun p : Skill -> bool => List.length (filter p (skills s)) in
  {| SB.skillsScanned := List.length (skills s);
     SB.skillsPatched :=
       count (fun skill => match summaryPatchOf s skill with
                           | Some patch => truthy (SB.patch_summary patch)
                           | None => false
                           end);
     SB.versionsPatched :=
       count (fun skill => match summaryPatchOf s skill with
                           | Some patch => defined (SB.patch_parsed patch)
                           | None => false
                           end);
     SB.missingLatestVersion :=
       count (fun skill => negb (defined (latestVersionOf s skill)));
     SB.missingReadme :=
       count (fun skill => defined (latestVersionOf s skill) &&
                           negb (defined (readmeOf s skill)));
     SB.missingStorageBlob :=
       count (fun skill => match readmeOf s skill with
                           | Some readme =>
                               negb (defined (blobText (storage s) (file_storageId readme)))
                           | None => false
                           end) |}.

End SummaryCounters.

Section FingerprintCounters.
Variable hashSkillFiles : list FB.HashedFile -> string.

(** The entries fetched for a version are there, and all carry the hash
    of the version's files. *)
Definition fetchedCorrect (s : Store) (version : SkillVersion) : bool :=
  let fetched := firstn 20 (entriesOf (version_id version) s) in
  (0 <? List.length fetched) && oneFingerprint fetched &&
  Set_has (Set_of (map entry_fingerprint fetched)) (fingerprintOf hashSkillFiles version).

(** The counters of the fingerprint job, read off the versions of a
    store. *)
Definition fingerprintCounters (s : Store) : FB.FingerprintBackfillStats :=
  let emitted := fun version => defined (fingerprintItemOf s version) in
  let count := fun p : SkillVersion -> bool => List.length (filter p (skillVersions s)) in
  {| FB.versionsScanned := count emitted;
     FB.versionsPatched :=
       count (fun version =>
                emitted version &&
                negb (strictEq (version_fingerprint version)
                               (fingerprintOf hashSkillFiles version)));
     FB.fingerprintsInserted :=
       count (fun version => emitted version && negb (fetchedCorrect s version));
     FB.fingerprintMismatches :=
       count (fun version =>
                emitted version &&
                (0 <? List.length (firstn 20 (entriesOf (version_id version) s))) &&
                negb (fetchedCorrect s version)) |}.

End FingerprintCounters.


(* ================================================================= *)
(** ** Stores that look the same to a job *)

(** Two computations, started in stores related by [R], end with the same
    value or error, in stores related by [R]. *)
Definition related {A} (R : Store -> Store -> Prop) (m1 m2 : M A) : Prop :=
  forall s1 s2, R s1 s2 ->
                snd (m1 s1) = snd (m2 s2) /\ R (fst (m1 s1)) (fst (m2 s2)).

(** The two stores agree on everything the summary job reads or writes:
    the skills, the versions up to [fingerprint], and the blobs. *)
Definition sameForSummary (s1 s2 : Store) : Prop :=
  skills s1 = skills s2 /\
  map versionApartFromFingerprint (skillVersions s1)
    = map versionApartFromFingerprint (skillVersions s2) /\
  storage s1 = storage s2.

(** The two stores agree on everything the fingerprint job reads or
    writes: the versions up to [parsed], the fingerprint entries and the
    id counter. *)
Definition sameForFingerprint (s1 s2 : Store) : Prop :=
  map versionApartFromParsed (skillVersions s1)
    = map versionApartFromParsed (skillVersions s2) /\
  skillVersionFingerprints s1 = skillVersionFingerprints s2 /\
  nextId s1 = nextId s2.

(** A stand-in for [buildSkillSummaryBackfillPatch] that also writes the
    parsed metadata: the summary is to be the README text, and a version
    whose parsed frontmatter is empty gets the README text as its
    description. *)
Definition fillBuild (readmeText : string) (currentSummary : option string)
    (currentParsed : ParsedSkillData) : SB.SummaryPatch :=
  {| SB.patch_summary := if strictEq currentSummary readmeText then None else Some readmeText;
     SB.patch_parsed :=
       match frontmatter currentParsed with
       | [] => Some {| frontmatter := [("description", VString readmeText)];
                       metadata := metadata currentParsed;
                       clawdis := clawdis currentParsed |}
       | _ :: _ => None
       end |}.

(** Two skills that name the same version document as their latest
    version. *)
Definition sharedVersionStore : Store :=
  {| skills := [{| skill_id := 0; skill_latestVersionId := Some 1;
                   skill_summary := None; skill_updatedAt := 0 |};
                {| skill_id := 2; skill_latestVersionId := Some 1;
                   skill_summary := None; skill_updatedAt := 0 |}];
     skillVersions := [sampleVersion None];
     skillVersionFingerprints := [];
     storage := [(50, "readme")];
     nextId := 100 |}.

(** Pages of one document, with the default number of batches. *)
Definition onePerPage (dryRun : bool) : BackfillActionArgs :=
  {| arg_dryRun := Some dryRun; batchSize := Some (of_Z 1); maxBatches := None |}.

(** Stored field and the first twenty entries carry the hash of the
    files; a twenty-first entry carries an outdated value. *)
Definition hiddenStore : Store :=
  sampleStore (Some "a:b")
    (map (fun i => sampleEntry (2 + i) "a:b") (seq 0 20) ++ [sampleEntry 22 "old"]).

(** The skills and versions of [s'] are those of [s], by id. *)
Definition sameDocuments (s s' : Store) : Prop :=
  map skill_id (skills s') = map skill_id (skills s) /\
  map version_id (skillVersions s') = map version_id (skillVersions s).

(** The documents an [ok] item names are in the store. *)
Definition itemInStore (s : Store) (item : SB.BackfillPageItem) : Prop :=
  match item with
  | SB.kind_ok skillId versionId _ _ _ =>
      In skillId (map skill_id (skills s)) /\
      In versionId (map version_id (skillVersions s))
  | _ => True
  end.

(* ================================================================= *)
(** * Properties *)

(** ** Numbers and [clampInt] *)

Lemma Qtrunc_abs (q : Q) :
  (Z.abs (Qtrunc q) * Zpos (Qden q) <= Z.abs (Qnum q)
   < (Z.abs (Qtrunc q) + 1) * Zpos (Qden q))%Z.
Proof.
  unfold Qtrunc. destruct q as [n d]; simpl.
  rewrite <- (Z.quot_abs n (Zpos d)) by lia.
  replace (Z.abs (Zpos d)) with (Zpos d) by lia.
  rewrite Z.quot_div_nonneg by lia.
  pose proof (Z.mul_div_le (Z.abs n) (Zpos d) ltac:(lia)).
  pose proof (Z.mul_succ_div_gt (Z.abs n) (Zpos d) ltac:(lia)).
  lia.
Qed.

Lemma Qtrunc_sign (q : Q) : (0 <= Qtrunc q * Qnum q)%Z.
Proof.
  unfold Qtrunc. destruct q as [n d]; simpl.
  destruct (Z.le_gt_cases 0 n) as [Hn|Hn].
  - pose proof (Z.quot_pos n (Zpos d) Hn ltac:(lia)). nia.
  - assert (n ÷ Zpos d <= 0)%Z.
    { rewrite <- (Z.opp_involutive n). rewrite Z.quot_opp_l by lia.
      pose proof (Z.quot_pos (-n) (Zpos d) ltac:(lia) ltac:(lia)). lia. }
    nia.
Qed.

(** [Qtrunc] drops the fractional part: the integer it returns is no
    farther from zero than [q], less than one away from it, and on the
    same side of zero. *)
Lemma Qtrunc_toward_zero (q : Q) :
  (Qabs (inject_Z (Qtrunc q)) <= Qabs q)%Q /\
  (Qabs q < Qabs (inject_Z (Qtrunc q)) + 1)%Q /\
  (0 <= inject_Z (Qtrunc q) * q)%Q.
Proof.
  pose proof (Qtrunc_abs q) as Ha. pose proof (Qtrunc_sign q) as Hs.
  destruct q as [n d].
  unfold Qle, Qlt, Qabs, inject_Z, Qplus, Qmult in *; simpl in *.
  repeat split; lia.
Qed.

Lemma Qtrunc_inject_Z (z : Z) : Qtrunc (inject_Z z) = z.
Proof. unfold Qtrunc, inject_Z; simpl. apply Z.quot_1_r. Qed.

Ltac number_cases :=
  repeat match goal with
  | |- context [Qcompare ?p ?q] => destruct (Qcompare_spec p q)
  | H : context [Qcompare ?p ?q] |- _ => destruct (Qcompare_spec p q)
  end; simpl in *; try discriminate; try reflexivity; try lra.

Lemma clampInt_in_range (x lo hi : number) :
  JS.leb lo hi = true ->
  JS.leb lo (clampInt x lo hi) = true /\ JS.leb (clampInt x lo hi) hi = true.
Proof.
  intros Hb. unfold clampInt.
  destruct x as [| |q|]; simpl;
    try (split; [destruct lo; simpl in *; try discriminate; number_cases | exact Hb]).
  unfold of_Z. set (t := inject_Z (Qtrunc q)). clearbody t.
  destruct lo as [| |l|], hi as [| |h|]; simpl in *; try discriminate; auto;
    unfold Math_min, Math_max, JS.ltb, JS.leb; number_cases; split; number_cases.
Qed.

Lemma inject_Z_compare (a b : Z) : Qcompare (inject_Z a) (inject_Z b) = Z.compare a b.
Proof. unfold Qcompare, inject_Z; simpl. now rewrite !Z.mul_1_r. Qed.

Lemma Math_max_of_Z (a b : Z) : Math_max (of_Z a) (of_Z b) = of_Z (Z.max a b).
Proof.
  unfold Math_max, JS.ltb, of_Z. rewrite inject_Z_compare.
  destruct (Z.compare_spec a b); f_equal; f_equal; lia.
Qed.

Lemma Math_min_of_Z (a b : Z) : Math_min (of_Z a) (of_Z b) = of_Z (Z.min a b).
Proof.
  unfold Math_min, JS.ltb, of_Z. rewrite inject_Z_compare.
  destruct (Z.compare_spec b a); f_equal; f_equal; lia.
Qed.

(** Between integer bounds the clamp is one of the bounds or the
    truncated input, hence an integer between them. *)
Lemma clampInt_integer (x : number) (a b : Z) :
  (a <= b)%Z ->
  exists z, (a <= z <= b)%Z /\ clampInt x (of_Z a) (of_Z b) = of_Z z.
Proof.
  intros Hab.
  destruct x as [| |q|]; try (exists a; split; [lia | reflexivity]).
  change (clampInt (Fin q) (of_Z a) (of_Z b))
    with (Math_min (of_Z b) (Math_max (of_Z a) (of_Z (Qtrunc q)))).
  rewrite Math_max_of_Z, Math_min_of_Z. eexists; split; [|reflexivity]. lia.
Qed.

(** Clamping a value that is already an integer within the bounds gives
    it back: the page fetchers clamp the batch size a second time. *)
Lemma clampInt_fixed (a b z : Z) :
  (a <= z <= b)%Z -> clampInt (of_Z z) (of_Z a) (of_Z b) = of_Z z.
Proof.
  intros Hz.
  change (clampInt (of_Z z) (of_Z a) (of_Z b))
    with (Math_min (of_Z b) (Math_max (of_Z a) (of_Z (Qtrunc (inject_Z z))))).
  rewrite Qtrunc_inject_Z, Math_max_of_Z, Math_min_of_Z. f_equal. lia.
Qed.

Lemma clampInt_twice (x : number) (a b : Z) :
  (a <= b)%Z ->
  clampInt (clampInt x (of_Z a) (of_Z b)) (of_Z a) (of_Z b) = clampInt x (of_Z a) (of_Z b).
Proof.
  intros Hab. destruct (clampInt_integer x a b Hab) as (z & Hz & ->).
  now apply clampInt_fixed.
Qed.

Lemma to_nat_of_Z (z : Z) : JS.to_nat (of_Z z) = Z.to_nat z.
Proof. unfold JS.to_nat, of_Z. now rewrite Qtrunc_inject_Z. Qed.

Lemma batchSizeOf_bounds (args : BackfillActionArgs) : 1 <= batchSizeOf args <= 200.
Proof.
  unfold batchSizeOf, MAX_BATCH_SIZE.
  destruct (clampInt_integer (nullish (batchSize args) DEFAULT_BATCH_SIZE) 1 200 ltac:(lia))
    as (z & Hz & ->).
  rewrite to_nat_of_Z. lia.
Qed.

Lemma maxBatchesOf_bounds (args : BackfillActionArgs) : 1 <= maxBatchesOf args <= 200.
Proof.
  unfold maxBatchesOf, MAX_MAX_BATCHES.
  destruct (clampInt_integer (nullish (maxBatches args) DEFAULT_MAX_BATCHES) 1 200 ltac:(lia))
    as (z & Hz & ->).
  rewrite to_nat_of_Z. lia.
Qed.

(** C9.  [clampInt] returns a value between its bounds whenever
    [min <= max]; a non-finite input (NaN or an infinity) is mapped to
    [min]; a finite input is first truncated toward zero, the result being
    [Math.min(max, Math.max(min, t))] for the integer [t] obtained by
    dropping the fractional part of the input.  In particular
    [clampInt(500, 1, 200) = 200], [clampInt(0.9, 1, 200) = 1] and
    [clampInt(NaN, 1, 200) = 1]. *)
Theorem clampInt_contract (x min max : number) (Hbounds : JS.leb min max = true) :
  (JS.leb min (clampInt x min max) = true /\ JS.leb (clampInt x min max) max = true) /\
  (isFinite x = false -> clampInt x min max = min) /\
  (forall q, x = Fin q ->
     clampInt x min max = Math_min max (Math_max min (of_Z (Qtrunc q))) /\
     (Qabs (inject_Z (Qtrunc q)) <= Qabs q)%Q /\
     (Qabs q < Qabs (inject_Z (Qtrunc q)) + 1)%Q /\
     (0 <= inject_Z (Qtrunc q) * q)%Q) /\
  clampInt (of_Z 500) (of_Z 1) (of_Z 200) = of_Z 200 /\
  clampInt double_0_9 (of_Z 1) (of_Z 200) = of_Z 1 /\
  clampInt NaN (of_Z 1) (of_Z 200) = of_Z 1.
Proof.
  split; [now apply clampInt_in_range|].
  split; [intros Hx; unfold clampInt; destruct x; simpl in *; try reflexivity; discriminate|].
  split; [intros q ->; split; [reflexivity | apply Qtrunc_toward_zero]|].
  repeat split.
Qed.

(** The contract at [clampInt(-3.5, 1, 200)]. *)
Lemma clampInt_contract_witness :
  JS.leb (of_Z 1) (of_Z 200) = true /\
  JS.leb (clampInt (Fin (-7 # 2)) (of_Z 1) (of_Z 200)) (of_Z 200) = true.
Proof.
  split; [reflexivity|].
  exact (proj2 (proj1 (clampInt_contract (Fin (-7 # 2)) (of_Z 1) (of_Z 200) eq_refl))).
Defined.

(** ** Tables *)

Section TableFacts.
Context {D : Type} `{Document D}.

Lemma lookup_Some (id : Id) (tbl : list D) (d : D) :
  lookup id tbl = Some d -> In d tbl /\ _id d = id.
Proof.
  unfold lookup. intros Hf. apply find_some in Hf as [Hin Heq].
  apply Nat.eqb_eq in Heq. now split.
Qed.

Lemma lookup_None (id : Id) (tbl : list D) :
  lookup id tbl = None <-> ~ In id (map _id tbl).
Proof.
  unfold lookup. induction tbl as [|d tbl IH]; simpl.
  - split; auto.
  - destruct (Nat.eqb_spec (_id d) id) as [E|E].
    + split; [discriminate | intros Hn; exfalso; apply Hn; now left].
    + rewrite IH. split; [intros Hn [?|?]; [congruence | auto] | intros Hn ?; apply Hn; now right].
Qed.

Lemma lookup_In_key (id : Id) (tbl : list D) :
  In id (map _id tbl) -> exists d, lookup id tbl = Some d.
Proof.
  intros Hin. destruct (lookup id tbl) as [d|] eqn:E; [now exists d|].
  apply lookup_None in E. contradiction.
Qed.

Lemma lookup_unique (tbl : list D) (d : D) :
  NoDup (map _id tbl) -> In d tbl -> lookup (_id d) tbl = Some d.
Proof.
  unfold lookup. induction tbl as [|x tbl IH]; simpl; [tauto|].
  intros Hnd [->|Hin].
  - now rewrite Nat.eqb_refl.
  - inversion Hnd as [|? ? Hx Hnd']; subst.
    destruct (Nat.eqb_spec (_id x) (_id d)) as [E|E]; [|now apply IH].
    exfalso. apply Hx. rewrite E. now apply in_map.
Qed.

Lemma same_id_same_row (tbl : list D) (d d' : D) :
  NoDup (map _id tbl) -> In d tbl -> In d' tbl -> _id d = _id d' -> d = d'.
Proof.
  intros Hnd Hd Hd' E.
  pose proof (lookup_unique tbl d Hnd Hd) as H1.
  pose proof (lookup_unique tbl d' Hnd Hd') as H2.
  rewrite E in H1. congruence.
Qed.

Variable upd : D -> D.
Hypothesis upd_id : forall d, _id (upd d) = _id d.

Lemma patchRow_ids (id : Id) (tbl : list D) :
  map _id (patchRow id upd tbl) = map _id tbl.
Proof.
  unfold patchRow. rewrite map_map. apply map_ext. intros d.
  destruct (_id d =? id); auto.
Qed.

Lemma lookup_patchRow_other (id id' : Id) (tbl : list D) :
  id' <> id -> lookup id' (patchRow id upd tbl) = lookup id' tbl.
Proof.
  intros Hne. unfold lookup, patchRow. induction tbl as [|d tbl IH]; simpl; auto.
  destruct (Nat.eqb_spec (_id d) id) as [E|E].
  - rewrite upd_id. destruct (Nat.eqb_spec (_id d) id'); [congruence | apply IH].
  - destruct (_id d =? id'); [reflexivity | apply IH].
Qed.


Lemma patchRow_absent (id : Id) (tbl : list D) :
  ~ In id (map _id tbl) -> patchRow id upd tbl = tbl.
Proof.
  unfold patchRow. intros Hn. rewrite <- (map_id tbl) at 2. apply map_ext_in.
  intros d Hd. destruct (Nat.eqb_spec (_id d) id) as [E|E]; auto.
  exfalso. apply Hn. rewrite <- E. now apply in_map.
Qed.

Lemma In_patchRow (id : Id) (tbl : list D) (d : D) :
  In d (patchRow id upd tbl) ->
  exists d0, In d0 tbl /\ (d = d0 \/ (_id d0 = id /\ d = upd d0)).
Proof.
  unfold patchRow. rewrite in_map_iff. intros (d0 & Hd & Hin). exists d0. split; auto.
  destruct (Nat.eqb_spec (_id d0) id); [right | left]; auto.
Qed.

End TableFacts.

Lemma filter_all {A} (f : A -> bool) (l : list A) :
  (forall x, In x l -> f x = true) -> filter f l = l.
Proof.
  induction l as [|x l IH]; simpl; intros Hall; auto.
  rewrite (Hall x (or_introl eq_refl)). f_equal. apply IH. intros; apply Hall; now right.
Qed.

Lemma filter_none {A} (f : A -> bool) (l : list A) :
  (forall x, In x l -> f x = false) -> filter f l = [].
Proof.
  induction l as [|x l IH]; simpl; intros Hall; auto.
  rewrite (Hall x (or_introl eq_refl)). apply IH. intros; apply Hall; now right.
Qed.

Lemma filter_twice {A} (f g : A -> bool) (l : list A) :
  filter f (filter g l) = filter (fun x => g x && f x) l.
Proof.
  induction l as [|x l IH]; simpl; auto.
  destruct (g x); simpl; [destruct (f x)|]; now rewrite IH.
Qed.

Lemma deleteRow_ids {D} `{Document D} (id : Id) (tbl : list D) :
  map _id (deleteRow id tbl) = filter (fun k => negb (k =? id)) (map _id tbl).
Proof.
  unfold deleteRow. induction tbl as [|d tbl IH]; simpl; auto.
  destruct (_id d =? id); simpl; now rewrite IH.
Qed.

Lemma removeIds_nil (tbl : list SkillVersionFingerprint) : removeIds [] tbl = tbl.
Proof. unfold removeIds. now apply filter_all. Qed.

Lemma removeIds_cons (i : Id) (ids : list Id) (tbl : list SkillVersionFingerprint) :
  removeIds ids (deleteRow i tbl) = removeIds (i :: ids) tbl.
Proof.
  unfold removeIds, deleteRow. rewrite filter_twice. apply filter_ext. intros e.
  simpl. unfold _id, Document_Fingerprint. now rewrite negb_orb.
Qed.

(** Deleting a list of distinct, present ids one after the other succeeds
    and removes exactly the rows that carry them. *)
Lemma delete_all (ids : list Id) :
  forall s, NoDup ids ->
       (forall i, In i ids -> In i (map entry_id (skillVersionFingerprints s))) ->
       forOf ids tt (fun _ i => db_delete fingerprintsTable i) s
       = (with_rows fingerprintsTable (removeIds ids (skillVersionFingerprints s)) s,
          Returned tt).
Proof.
  induction ids as [|i ids IH]; intros s Hnd Hin.
  - simpl. rewrite removeIds_nil. destruct s; reflexivity.
  - inversion Hnd as [|? ? Hi Hnd']; subst.
    destruct (lookup_In_key i (skillVersionFingerprints s) (Hin i (or_introl eq_refl)))
      as (e & He).
    simpl. unfold bind at 1. unfold db_delete at 1. simpl rows.
    unfold Document_Fingerprint in *. rewrite He.
    rewrite IH; auto.
    + simpl. now rewrite removeIds_cons.
    + intros j Hj. simpl.
      change (map entry_id (deleteRow i (skillVersionFingerprints s)))
        with (map _id (deleteRow i (skillVersionFingerprints s))).
      rewrite deleteRow_ids. apply filter_In. split.
      * apply Hin. now right.
      * destruct (Nat.eqb_spec j i); [subst; contradiction | reflexivity].
Qed.

(** A delete of an id that names no entry throws and keeps the store. *)
Lemma delete_missing (i : Id) (s : Store) :
  ~ In i (map entry_id (skillVersionFingerprints s)) ->
  db_delete fingerprintsTable i s = (s, Thrown "Delete on nonexistent document").
Proof.
  intros Hn. apply (lookup_None (H:=Document_Fingerprint)) in Hn.
  unfold db_delete. cbn [rows fingerprintsTable]. now rewrite Hn.
Qed.

(** ** Evaluating loops *)

Lemma forOf_readonly {A S} (body : S -> A -> M S) (f : Store -> S -> A -> S) (s : Store) :
  (forall acc x, body acc x s = (s, Returned (f s acc x))) ->
  forall xs acc, forOf xs acc body s = (s, Returned (fold_left (f s) xs acc)).
Proof.
  intros Hbody. induction xs as [|x xs IH]; intros acc; simpl; [reflexivity|].
  unfold bind. now rewrite Hbody, IH.
Qed.

Lemma fold_left_push {A B} (g : A -> list B) (xs : list A) (acc : list B) :
  fold_left (fun acc x => acc ++ g x) xs acc = acc ++ flat_map g xs.
Proof.
  revert acc. induction xs as [|x xs IH]; intros acc; simpl.
  - now rewrite app_nil_r.
  - now rewrite IH, app_assoc.
Qed.

Lemma flat_map_single {A B} (f : A -> B) (xs : list A) :
  flat_map (fun x => [f x]) xs = map f xs.
Proof. induction xs; simpl; congruence. Qed.

Lemma keep_all {A B} (f : A -> B) (xs : list A) : keep (fun x => Some (f x)) xs = map f xs.
Proof. unfold keep. induction xs; simpl; congruence. Qed.

Lemma keep_ext_in {A B} (f g : A -> option B) (xs : list A) :
  (forall x, In x xs -> f x = g x) -> keep f xs = keep g xs.
Proof.
  unfold keep. induction xs as [|x xs IH]; simpl; intros Hfg; auto.
  rewrite (Hfg x (or_introl eq_refl)). f_equal. apply IH. intros; apply Hfg; now right.
Qed.

Lemma keep_map {A B C} (f : B -> option C) (g : A -> B) (xs : list A) :
  keep f (map g xs) = keep (fun x => f (g x)) xs.
Proof. unfold keep. induction xs; simpl; congruence. Qed.

(** ** The page fetchers *)

Lemma classifySkill_eval (acc : list SB.BackfillPageItem) (skill : Skill) (s : Store) :
  SB.classifySkill acc skill s = (s, Returned (acc ++ [summaryItemOf s skill])).
Proof.
  unfold SB.classifySkill, summaryItemOf, summaryItemFor, latestVersionOf.
  destruct (skill_latestVersionId skill) as [latest|]; [|reflexivity].
  unfold bind, db_get. cbn [rows skillVersionsTable].
  destruct (lookup latest (skillVersions s)) as [version|]; [|reflexivity].
  destruct (find SB.isReadme (version_files version)); reflexivity.
Qed.

Lemma getSkillBackfillPageInternal_eval (args : PageArgs) (s : Store) :
  SB.getSkillBackfillPageInternal args s =
  let '(page, isDone, continueCursor) :=
    paginate (skills s) (arg_cursor args)
      (JS.to_nat (clampInt (nullish (arg_batchSize args) DEFAULT_BATCH_SIZE)
                           (of_Z 1) MAX_BATCH_SIZE)) in
  (s, Returned {| SB.items := map (summaryItemOf s) page;
                  SB.cursor := Some continueCursor;
                  SB.isDone := isDone |}).
Proof.
  unfold SB.getSkillBackfillPageInternal, bind, db_paginate. cbn [rows skillsTable].
  destruct (paginate _ _ _) as [[page isDone] continueCursor].
  rewrite (forOf_readonly SB.classifySkill (fun s acc x => acc ++ [summaryItemOf s x]))
    by (intros; apply classifySkill_eval).
  rewrite fold_left_push. simpl. unfold ret.
  now rewrite flat_map_single.
Qed.

(** *** Lower case and the README test *)

Lemma utf8_not_ascii (c : ascii) (n : nat) :
  (nat_of_ascii c < 128)%nat -> (128 <= n < 256)%nat -> Ascii.eqb c (utf8 n) = false.
Proof.
  intros Hc Hn. apply Ascii.eqb_neq. intros ->. unfold utf8 in Hc.
  rewrite nat_ascii_embedding in Hc by lia. lia.
Qed.

Lemma toLowerCase_step (c : ascii) (rest : string) :
  (nat_of_ascii c < 128)%nat ->
  toLowerCase (String c rest) = String (lowerAscii c) (toLowerCase rest).
Proof.
  intros Hc. destruct rest as [|c2 [|c3 rest3]]; [reflexivity | |].
  - change (toLowerCase (String c (String c2 "")))
      with (if Ascii.eqb c (utf8 196) && Ascii.eqb c2 (utf8 176)
            then String "i" (String (utf8 204) (String (utf8 135) (toLowerCase "")))
            else String (lowerAscii c) (toLowerCase (String c2 ""))).
    now rewrite (utf8_not_ascii c 196) by (auto; lia).
  - change (toLowerCase (String c (String c2 (String c3 rest3))))
      with (if Ascii.eqb c (utf8 196) && Ascii.eqb c2 (utf8 176)
            then String "i" (String (utf8 204) (String (utf8 135) (toLowerCase (String c3 rest3))))
            else if Ascii.eqb c (utf8 226) && Ascii.eqb c2 (utf8 132) && Ascii.eqb c3 (utf8 170)
                 then String "k" (toLowerCase rest3)
                 else String (lowerAscii c) (toLowerCase (String c2 (String c3 rest3)))).
    now rewrite (utf8_not_ascii c 196), (utf8_not_ascii c 226) by (auto; lia).
Qed.

Lemma lowerName_cons (d : ascii) (name : string) :
  lowerName (String d name) = true ->
  (nat_of_ascii d < 128)%nat /\
  ~ (65 <= nat_of_ascii d <= 90)%nat /\
  lowerName name = true.
Proof.
  cbn [lowerName]. rewrite !andb_true_iff, negb_true_iff, andb_false_iff.
  rewrite Nat.ltb_lt, !Nat.leb_gt. intros [[Hascii Hsmall] Hrest].
  split; [assumption|]. split; [lia | assumption].
Qed.

Lemma lowerAscii_high (c : ascii) : (128 <= nat_of_ascii c)%nat -> lowerAscii c = c.
Proof.
  intros Hc. unfold lowerAscii.
  destruct (Nat.leb_spec (nat_of_ascii c) 90); [lia|]. now rewrite andb_false_r.
Qed.

Lemma lowerAscii_cases (c d : ascii) :
  lowerAscii c = d ->
  (c = d /\ ~ (65 <= nat_of_ascii c <= 90)%nat) \/ capitalOf c d.
Proof.
  unfold lowerAscii, capitalOf.
  destruct (Nat.leb_spec 65 (nat_of_ascii c)), (Nat.leb_spec (nat_of_ascii c) 90);
    cbn [andb]; intros <-; try (left; split; [reflexivity | lia]).
  right. rewrite nat_ascii_embedding by lia. lia.
Qed.

Lemma toLowerCase_kelvin (path : string) :
  toLowerCase (kelvinSign ++ path)%string = String "k" (toLowerCase path).
Proof. reflexivity. Qed.

Lemma toLowerCase_finds (name : string) :
  lowerName name = true ->
  forall path, toLowerCase path = name -> equalsIgnoringCase path name.
Proof.
  induction name as [|d name IH]; intros Hname path Hlower.
  - destruct path as [|c [|c2 [|c3 rest3]]]; [constructor | discriminate | |].
    + cbn [toLowerCase] in Hlower. destruct (_ && _); discriminate.
    + cbn [toLowerCase] in Hlower. destruct (_ && _); [discriminate|].
      destruct (_ && _); discriminate.
  - destruct (lowerName_cons d name Hname) as (Hascii & Hsmall & Hrest).
    destruct path as [|c rest]; [discriminate|].
    destruct (Nat.lt_ge_cases (nat_of_ascii c) 128) as [Hlow|Hhigh].
    + rewrite toLowerCase_step in Hlower by assumption.
      injection Hlower as Hc Hrest'.
      apply IH in Hrest'; [|assumption].
      destruct (lowerAscii_cases c d Hc) as [[-> _]|Hcapital].
      * now apply eic_same.
      * now apply eic_capital.
    + assert (Hplain : forall tail, String (lowerAscii c) tail = String d name -> False).
      { intros tail [= Hc _]. rewrite lowerAscii_high in Hc by assumption. subst d. lia. }
      destruct rest as [|c2 [|c3 rest3]].
      * now destruct (Hplain ""%string).
      * cbn [toLowerCase] in Hlower.
        destruct (_ && _).
        -- injection Hlower as _ <-. discriminate Hrest.
        -- now destruct (Hplain _ Hlower).
      * cbn [toLowerCase] in Hlower.
        destruct (_ && _).
        -- injection Hlower as _ <-. discriminate Hrest.
        -- destruct (Ascii.eqb c (utf8 226) && Ascii.eqb c2 (utf8 132) && Ascii.eqb c3 (utf8 170))
             eqn:Hkelvin; [|now destruct (Hplain _ Hlower)].
           apply andb_true_iff in Hkelvin as [Hkelvin H3].
           apply andb_true_iff in Hkelvin as [H1 H2].
           apply Ascii.eqb_eq in H1, H2, H3. subst c c2 c3.
           injection Hlower as <- Hrest'.
           apply (eic_kelvin rest3 name). now apply IH.
Qed.

Lemma toLowerCase_meets (path name : string) :
  equalsIgnoringCase path name -> lowerName name = true -> toLowerCase path = name.
Proof.
  induction 1 as [|c path name _ IH|C c path name Hcapital _ IH|path name _ IH]; intros Hname.
  - reflexivity.
  - destruct (lowerName_cons c name Hname) as (Hascii & Hsmall & Hrest).
    rewrite toLowerCase_step, IH by assumption. f_equal.
    unfold lowerAscii.
    destruct (Nat.leb_spec 65 (nat_of_ascii c)), (Nat.leb_spec (nat_of_ascii c) 90);
      cbn [andb]; try reflexivity. lia.
  - destruct (lowerName_cons c name Hname) as (_ & _ & Hrest).
    destruct Hcapital as [Hletter Hshift].
    rewrite toLowerCase_step, IH by (assumption || lia). f_equal.
    unfold lowerAscii.
    destruct (Nat.leb_spec 65 (nat_of_ascii C)), (Nat.leb_spec (nat_of_ascii C) 90);
      cbn [andb]; try lia.
    rewrite Hshift. apply ascii_nat_embedding.
  - destruct (lowerName_cons _ name Hname) as (_ & _ & Hrest).
    now rewrite toLowerCase_kelvin, IH.
Qed.

(** The code's README test is the specification's. *)
Lemma isReadme_true (file : SkillFile) :
  SB.isReadme file = true <-> namesReadme (file_path file).
Proof.
  unfold SB.isReadme, namesReadme. rewrite orb_true_iff, !String.eqb_eq.
  split; (intros [Hname|Hname]; [left | right]);
    (apply toLowerCase_finds || apply toLowerCase_meets); auto.
Qed.

Lemma isReadme_false (file : SkillFile) :
  SB.isReadme file = false <-> ~ namesReadme (file_path file).
Proof. rewrite <- isReadme_true. now destruct (SB.isReadme file). Qed.

(** Paths the test accepts, and paths it refuses. *)
Lemma isReadme_samples :
  let file path := {| file_path := path; file_sha256 := ""; file_storageId := 0 |} in
  SB.isReadme (file "SKILL.md") = true /\
  SB.isReadme (file "Skills.MD") = true /\
  SB.isReadme (file ("S" ++ kelvinSign ++ "ILL.md")%string) = true /\
  SB.isReadme (file "README.md") = false /\
  SB.isReadme (file "docs/SKILL.md") = false /\
  SB.isReadme (file ("SK" ++ String (utf8 196) (String (utf8 176) "LL.md"))%string) = false.
Proof. repeat split. Qed.

Lemma find_first {A} (p : A -> bool) (l : list A) (x : A) :
  find p l = Some x ->
  exists before after, l = before ++ x :: after /\ p x = true /\
                       forall y, In y before -> p y = false.
Proof.
  induction l as [|a l IH]; simpl; [discriminate|].
  destruct (p a) eqn:Ea.
  - intros [= ->]. exists [], l. repeat split; auto. intros y [].
  - intros Hf. destruct (IH Hf) as (before & after & -> & Hx & Hb).
    exists (a :: before), after. repeat split; auto.
    intros y [->|Hy]; auto.
Qed.

Lemma summaryItemOf_classified (s : Store) (skill : Skill) :
  classifiedAs s skill (summaryItemOf s skill).
Proof.
  unfold summaryItemOf, summaryItemFor, latestVersionOf.
  destruct (skill_latestVersionId skill) as [latest|] eqn:El; [|now constructor].
  destruct (lookup latest (skillVersions s)) as [version|] eqn:Ev;
    [|now apply as_missingVersionDoc].
  destruct (find SB.isReadme (version_files version)) as [readme|] eqn:Ef.
  - destruct (find_first _ _ _ Ef) as (before & after & Hfiles & Hr & Hb).
    eapply as_ok; eauto.
    + intros file Hin. apply isReadme_false. auto.
    + now apply isReadme_true.
  - eapply as_missingReadme; eauto.
    intros file Hin. apply isReadme_false. eapply find_none; eauto.
Qed.

(** C5.  The summary page fetcher returns, without changing the store, one
    item per skill of the fetched page, in page order, and each item is
    the classification of its skill: [missingLatestVersion] when
    [latestVersionId] is absent, [missingVersionDoc] when the referenced
    version does not exist, [missingReadme] when no file path of the
    version equals [skill.md] or [skills.md] case-insensitively, and
    otherwise [ok] with the skill's summary, the version's parsed metadata
    and the storage reference of the first file whose path does. *)
Theorem getSkillBackfillPageInternal_classifies (args : PageArgs) (s : Store) :
  exists items,
    SB.getSkillBackfillPageInternal args s =
      (s, Returned
            {| SB.items := items;
               SB.cursor := Some (snd (paginate (skills s) (arg_cursor args)
                    (JS.to_nat (clampInt (nullish (arg_batchSize args) DEFAULT_BATCH_SIZE)
                                         (of_Z 1) MAX_BATCH_SIZE))));
               SB.isDone := snd (fst (paginate (skills s) (arg_cursor args)
                    (JS.to_nat (clampInt (nullish (arg_batchSize args) DEFAULT_BATCH_SIZE)
                                         (of_Z 1) MAX_BATCH_SIZE)))) |}) /\
    Forall2 (classifiedAs s)
      (fst (fst (paginate (skills s) (arg_cursor args)
                    (JS.to_nat (clampInt (nullish (arg_batchSize args) DEFAULT_BATCH_SIZE)
                                         (of_Z 1) MAX_BATCH_SIZE)))))
      items.
Proof.
  rewrite getSkillBackfillPageInternal_eval.
  destruct (paginate _ _ _) as [[page isDone] continueCursor]. simpl.
  exists (map (summaryItemOf s) page). split; [reflexivity|].
  induction page; simpl; constructor; auto using summaryItemOf_classified.
Qed.

(** The sample store: its skill has the latest version 1, whose first
    file [SKILL.md] is the README. *)
Lemma getSkillBackfillPageInternal_classifies_witness :
  SB.getSkillBackfillPageInternal {| arg_cursor := None; arg_batchSize := None |}
    (sampleStore None [])
  = (sampleStore None [],
     Returned {| SB.items := [SB.kind_ok 0 1 None emptyParsed 50];
                 SB.cursor := Some 1; SB.isDone := true |}) /\
  classifiedAs (sampleStore None [])
    {| skill_id := 0; skill_latestVersionId := Some 1;
       skill_summary := None; skill_updatedAt := 0 |}
    (SB.kind_ok 0 1 None emptyParsed 50).
Proof.
  destruct (getSkillBackfillPageInternal_classifies
              {| arg_cursor := None; arg_batchSize := None |} (sampleStore None []))
    as (items & Hrun & Hclassified).
  assert (Hitems : items = [SB.kind_ok 0 1 None emptyParsed 50]).
  { vm_compute in Hrun. now injection Hrun as <-. }
  rewrite Hitems in Hrun, Hclassified. split.
  - rewrite Hrun. vm_compute. reflexivity.
  - vm_compute in Hclassified.
    inversion Hclassified as [|skill item skills items' Hfirst _]; subst.
    exact Hfirst.
Defined.

(** *** Sets of fingerprints *)

Lemma Set_has_In (l : list string) (x : string) : Set_has (Set_of l) x = true <-> In x l.
Proof.
  unfold Set_has, Set_of. rewrite existsb_exists. split.
  - intros (y & Hy & E). apply String.eqb_eq in E. subst. now apply nodup_In in Hy.
  - intros Hx. exists x. split; [now apply nodup_In | apply String.eqb_refl].
Qed.

Lemma Set_size_one_all (l : list string) :
  Set_size (Set_of l) = 1 -> exists x, In x l /\ forall y, In y l -> y = x.
Proof.
  unfold Set_size, Set_of. intros Hlen.
  destruct (nodup string_dec l) as [|x [|? ?]] eqn:E; try discriminate.
  exists x. split.
  - apply (nodup_In string_dec). rewrite E. now left.
  - intros y Hy. apply (nodup_In string_dec) in Hy. rewrite E in Hy.
    destruct Hy as [->|[]]; reflexivity.
Qed.

Lemma Set_size_all_one (l : list string) (x : string) :
  In x l -> (forall y, In y l -> y = x) -> Set_size (Set_of l) = 1.
Proof.
  unfold Set_size, Set_of. intros Hx Hall.
  assert (Hle : List.length (nodup string_dec l) <= List.length [x]).
  { apply NoDup_incl_length; [apply NoDup_nodup|].
    intros y Hy. apply nodup_In in Hy. left. symmetry. now apply Hall. }
  assert (Hin : In x (nodup string_dec l)) by now apply nodup_In.
  destruct (nodup string_dec l); simpl in *; [contradiction | lia].
Qed.

Lemma forallb_false_exists {A} (f : A -> bool) (l : list A) :
  forallb f l = false -> exists x, In x l /\ f x = false.
Proof.
  induction l as [|a l IH]; simpl; [discriminate|].
  destruct (f a) eqn:Ea; simpl.
  - intros Hf. destruct (IH Hf) as (x & Hx & Hfx). exists x. auto.
  - intros _. exists a. auto.
Qed.

Lemma oneFingerprint_false (fetched : list SkillVersionFingerprint) :
  fetched <> [] -> (oneFingerprint fetched = false <-> entriesDisagree fetched).
Proof.
  intros Hne. unfold oneFingerprint, entriesDisagree. rewrite Nat.eqb_neq. split.
  - intros Hsize. destruct fetched as [|e0 rest]; [contradiction|].
    destruct (forallb (fun e => String.eqb (entry_fingerprint e) (entry_fingerprint e0)) rest)
      eqn:Eall.
    + exfalso. apply Hsize. apply Set_size_all_one with (x := entry_fingerprint e0).
      * now left.
      * intros y Hy. apply in_map_iff in Hy as (e & <- & [->|He]); auto.
        rewrite forallb_forall in Eall. now apply String.eqb_eq, Eall.
    + apply forallb_false_exists in Eall as (e & He & Hfe).
      apply String.eqb_neq in Hfe. exists e, e0. repeat split; auto; now (left + right).
  - intros (e1 & e2 & H1 & H2 & Hd) Hsize.
    apply Set_size_one_all in Hsize as (x & _ & Hall).
    apply Hd. rewrite (Hall (entry_fingerprint e1)), (Hall (entry_fingerprint e2));
      auto using in_map.
Qed.

Lemma Set_has_false (fetched : list SkillVersionFingerprint) (fp : string) :
  Set_has (Set_of (map entry_fingerprint fetched)) fp = false <->
  forall e, In e fetched -> entry_fingerprint e <> fp.
Proof.
  rewrite <- not_true_iff_false, Set_has_In, in_map_iff. split.
  - intros Hn e He E. apply Hn. now exists e.
  - intros Hall (e & E & He). now apply (Hall e).
Qed.

(** *** The fingerprint page fetcher *)

Lemma inspectVersion_eval (acc : list FB.FingerprintBackfillPageItem)
    (version : SkillVersion) (s : Store) :
  FB.inspectVersion acc version s =
  (s, Returned (acc ++ match fingerprintItemOf s version with
                       | Some item => [item]
                       | None => []
                       end)).
Proof.
  unfold FB.inspectVersion, fingerprintItemOf, fingerprintItemFor, entriesOf.
  unfold bind, db_fingerprints_by_version. cbv zeta.
  set (fetched := firstn 20 _).
  destruct (negb (negb (truthy (version_fingerprint version))) && _ && _).
  - unfold ret. now rewrite app_nil_r.
  - reflexivity.
Qed.

Lemma getSkillFingerprintBackfillPageInternal_eval (args : PageArgs) (s : Store) :
  FB.getSkillFingerprintBackfillPageInternal args s =
  let '(page, isDone, continueCursor) :=
    paginate (skillVersions s) (arg_cursor args)
      (JS.to_nat (clampInt (nullish (arg_batchSize args) DEFAULT_BATCH_SIZE)
                           (of_Z 1) MAX_BATCH_SIZE)) in
  (s, Returned {| FB.items := keep (fingerprintItemOf s) page;
                  FB.cursor := Some continueCursor;
                  FB.isDone := isDone |}).
Proof.
  unfold FB.getSkillFingerprintBackfillPageInternal, bind, db_paginate.
  cbn [rows skillVersionsTable].
  destruct (paginate _ _ _) as [[page isDone] continueCursor].
  rewrite (forOf_readonly FB.inspectVersion
             (fun s acc x => acc ++ match fingerprintItemOf s x with
                                    | Some item => [item]
                                    | None => []
                                    end))
    by (intros; apply inspectVersion_eval).
  now rewrite fold_left_push.
Qed.

Lemma truthy_false (stored : option string) : truthy stored = false <-> fieldFalsy stored.
Proof.
  unfold truthy, fieldFalsy. destruct stored as [x|].
  - rewrite negb_false_iff, String.eqb_eq. split; [intros ->; now right|].
    intros [?|[= ->]]; [discriminate | reflexivity].
  - split; auto.
Qed.

Lemma length_pos_nonempty {A} (l : list A) : (0 <? List.length l) = true <-> l <> [].
Proof. destruct l; simpl; split; try discriminate; try congruence; auto. Qed.

Lemma fingerprintItemFor_emits (version : SkillVersion)
    (fetched : list SkillVersionFingerprint) :
  fingerprintItemFor version fetched <> None <->
  needsWork fieldFalsy (version_fingerprint version) fetched.
Proof.
  unfold fingerprintItemFor, needsWork.
  fold (oneFingerprint fetched).
  destruct (truthy (version_fingerprint version)) eqn:Et; cbn [negb andb orb].
  2:{ split; [intros _; left; now apply truthy_false | discriminate]. }
  assert (Hnf : ~ fieldFalsy (version_fingerprint version)).
  { intros Hf. apply truthy_false in Hf. congruence. }
  destruct (0 <? List.length fetched) eqn:Eany; cbn [negb andb orb].
  2:{ split; [intros _; right; left | discriminate].
      destruct fetched; [reflexivity | discriminate]. }
  apply length_pos_nonempty in Eany.
  destruct (version_fingerprint version) as [stored|] eqn:Es.
  2:{ exfalso. apply Hnf. now left. }
  destruct (oneFingerprint fetched) eqn:Eone; cbn [negb andb orb].
  - destruct (Set_has _ stored) eqn:Ehas; cbn [negb andb orb].
    + split; [congruence|]. intros [Hf|[Hnil|(fp & [= <-] & _ & [Hd|Hnone])]].
      * contradiction.
      * contradiction.
      * apply oneFingerprint_false in Hd; [congruence | assumption].
      * apply Set_has_false in Hnone. congruence.
    + split; [|discriminate]. intros _. right; right. exists stored.
      repeat split; [assumption|]. right. now apply Set_has_false.
  - split; [|discriminate]. intros _. right; right. exists stored.
    repeat split; [assumption|]. left. now apply oneFingerprint_false.
Qed.

Lemma fingerprintItemFor_item (version : SkillVersion)
    (fetched : list SkillVersionFingerprint) (item : FB.FingerprintBackfillPageItem) :
  fingerprintItemFor version fetched = Some item ->
  item = {| FB.skillId := version_skillId version;
            FB.versionId := version_id version;
            FB.versionFingerprint := version_fingerprint version;
            FB.files := map (fun file => {| FB.path := file_path file;
                                            FB.sha256 := file_sha256 file |})
                            (version_files version);
            FB.existingEntries :=
              map (fun entry => {| FB.entryId := entry_id entry;
                                   FB.entryFingerprint := entry_fingerprint entry |})
                  fetched |}.
Proof.
  unfold fingerprintItemFor.
  match goal with |- context [if ?c then _ else _] => destruct c end; congruence.
Qed.

(** C7, as stated, fails: a version whose stored fingerprint is the empty
    string and whose only entry carries that same value is present, has
    entries, and its entries agree with each other and with the stored
    value; yet the fetcher emits it, because [!version.fingerprint] holds
    for the empty string. *)
Lemma fetcher_emits_empty_string_fingerprint :
  (exists item,
     FB.getSkillFingerprintBackfillPageInternal
       {| arg_cursor := None; arg_batchSize := None |} emptyFingerprintStore
     = (emptyFingerprintStore,
        Returned {| FB.items := [item]; FB.cursor := Some 1; FB.isDone := true |}) /\
     FB.versionId item = version_id emptyFingerprintVersion) /\
  ~ needsWork fieldUnset (version_fingerprint emptyFingerprintVersion)
      (firstn 20 (entriesOf (version_id emptyFingerprintVersion) emptyFingerprintStore)).
Proof.
  split.
  - eexists. split; [vm_compute; reflexivity | reflexivity].
  - unfold needsWork, fieldUnset. simpl.
    intros [H|[H|(fp & [= <-] & _ & [(e1 & e2 & H1 & H2 & Hd)|Hnone])]];
      try discriminate.
    + destruct H1 as [<-|[]], H2 as [<-|[]]. now apply Hd.
    + now apply (Hnone emptyFingerprintEntry (or_introl eq_refl)).
Qed.

(** C7, amended.  The fingerprint page fetcher leaves the store as it is
    and decides once per version of the fetched page, in page order; the
    returned items are the emitted versions.  A version is emitted exactly
    when its stored fingerprint is unset or the empty string, or no entry
    was fetched for it, or it has a stored fingerprint and fetched entries
    and these either disagree among themselves or none of them equals the
    stored fingerprint; the entries considered are the at most 20 fetched
    ones.  An emitted item carries the version's ids, its stored
    fingerprint, its files and the fetched entries. *)
Theorem getSkillFingerprintBackfillPageInternal_emits (args : PageArgs) (s : Store) :
  exists decisions : list (option FB.FingerprintBackfillPageItem),
    Forall2
      (fun version decision =>
         (decision <> None <->
          needsWork fieldFalsy (version_fingerprint version)
                    (firstn 20 (entriesOf (version_id version) s))) /\
         (forall item, decision = Some item ->
            item = {| FB.skillId := version_skillId version;
                      FB.versionId := version_id version;
                      FB.versionFingerprint := version_fingerprint version;
                      FB.files := map (fun file => {| FB.path := file_path file;
                                                      FB.sha256 := file_sha256 file |})
                                      (version_files version);
                      FB.existingEntries :=
                        map (fun entry => {| FB.entryId := entry_id entry;
                                             FB.entryFingerprint := entry_fingerprint entry |})
                            (firstn 20 (entriesOf (version_id version) s)) |}))
      (fst (fst (paginate (skillVersions s) (arg_cursor args)
                   (JS.to_nat (clampInt (nullish (arg_batchSize args) DEFAULT_BATCH_SIZE)
                                        (of_Z 1) MAX_BATCH_SIZE)))))
      decisions /\
    FB.getSkillFingerprintBackfillPageInternal args s =
      (s, Returned
            {| FB.items := keep (fun decision => decision) decisions;
               FB.cursor := Some (snd (paginate (skillVersions s) (arg_cursor args)
                    (JS.to_nat (clampInt (nullish (arg_batchSize args) DEFAULT_BATCH_SIZE)
                                         (of_Z 1) MAX_BATCH_SIZE))));
               FB.isDone := snd (fst (paginate (skillVersions s) (arg_cursor args)
                    (JS.to_nat (clampInt (nullish (arg_batchSize args) DEFAULT_BATCH_SIZE)
                                         (of_Z 1) MAX_BATCH_SIZE)))) |}).
Proof.
  rewrite getSkillFingerprintBackfillPageInternal_eval.
  destruct (paginate _ _ _) as [[page isDone] continueCursor]. simpl.
  exists (map (fingerprintItemOf s) page). split.
  - induction page as [|version page IH]; simpl; constructor; auto.
    split; [apply fingerprintItemFor_emits | apply fingerprintItemFor_item].
  - now rewrite keep_map.
Qed.

(** ** The fingerprint patch applier *)

Lemma apply_missingVersion (now : nat) (args : FB.PatchArgs) (s : Store) :
  lookup (FB.arg_versionId args) (skillVersions s) = None ->
  FB.applySkillFingerprintBackfillPatchInternal now args s
  = (s, Returned (FB.patch_failed "missingVersion")).
Proof.
  intros Hl. unfold FB.applySkillFingerprintBackfillPatchInternal, bind, db_get.
  cbn [rows skillVersionsTable]. now rewrite Hl.
Qed.

Lemma apply_found (now : nat) (args : FB.PatchArgs) (version : SkillVersion) (s : Store) :
  lookup (FB.arg_versionId args) (skillVersions s) = Some version ->
  (FB.arg_replaceEntries args = true ->
   NoDup (nullish (FB.arg_existingEntryIds args) []) /\
   forall i, In i (nullish (FB.arg_existingEntryIds args) []) ->
             In i (map entry_id (skillVersionFingerprints s))) ->
  FB.applySkillFingerprintBackfillPatchInternal now args s
  = (fingerprintPatched now args version s, Returned FB.patch_ok).
Proof.
  intros Hl Hids.
  destruct (lookup_Some _ _ _ Hl) as [Hin Hid].
  unfold FB.applySkillFingerprintBackfillPatchInternal, fingerprintPatched.
  unfold bind at 1. unfold db_get. cbn [rows skillVersionsTable]. rewrite Hl.
  change (_id version) with (version_id version) in *.
  destruct (FB.arg_patchVersion args), (FB.arg_replaceEntries args).
  - destruct (Hids eq_refl) as [Hnd Hsub].
    unfold bind at 1. unfold db_patch. cbn [rows skillVersionsTable].
    rewrite Hid, Hl. unfold bind at 1. unfold bind at 1.
    rewrite delete_all by assumption.
    destruct s; reflexivity.
  - unfold bind, db_patch, ret. cbn [rows skillVersionsTable].
    rewrite Hid, Hl. destruct s; reflexivity.
  - destruct (Hids eq_refl) as [Hnd Hsub].
    unfold bind at 1. unfold ret at 1. unfold bind at 1. unfold bind at 1.
    rewrite delete_all by assumption.
    destruct s; reflexivity.
  - unfold bind, ret. destruct s; reflexivity.
Qed.

(** Deleting a list of ids one of which names no entry throws. *)
Lemma delete_stale (ids : list Id) :
  forall s,
    (exists i, In i ids /\ ~ In i (map entry_id (skillVersionFingerprints s))) ->
    exists s',
      forOf ids tt (fun _ i => db_delete fingerprintsTable i) s
      = (s', Thrown "Delete on nonexistent document").
Proof.
  induction ids as [|first ids IH]; intros s (i & Hin & Hmissing).
  - destruct Hin.
  - cbn [forOf]. unfold bind at 1.
    destruct (lookup (H:=Document_Fingerprint) first (skillVersionFingerprints s))
      as [e|] eqn:Hfirst.
    + unfold db_delete at 1. cbn [rows fingerprintsTable]. rewrite Hfirst.
      apply IH. exists i. split.
      * destruct Hin as [->|Hin]; [|assumption].
        exfalso. apply Hmissing.
        destruct (lookup_Some (H:=Document_Fingerprint) _ _ _ Hfirst) as [He Hid].
        apply in_map_iff. now exists e.
      * cbn [with_rows fingerprintsTable skillVersionFingerprints].
        intros Hkept. apply Hmissing.
        apply in_map_iff in Hkept as (e' & He' & Hfiltered).
        apply filter_In in Hfiltered as [Hfiltered _].
        apply in_map_iff. now exists e'.
    + rewrite delete_missing.
      * now eexists.
      * now apply (lookup_None (H:=Document_Fingerprint)).
Qed.

(** So does deleting a list that names an entry twice: the second delete
    finds the entry gone. *)
Lemma delete_fails (ids : list Id) :
  forall s,
    (exists i, In i ids /\ ~ In i (map entry_id (skillVersionFingerprints s))) \/
    ~ NoDup ids ->
    exists s',
      forOf ids tt (fun _ i => db_delete fingerprintsTable i) s
      = (s', Thrown "Delete on nonexistent document").
Proof.
  intros s [Hstale|Hrepeated]; [now apply delete_stale|].
  revert s. induction ids as [|first ids IH]; intros s.
  - exfalso. apply Hrepeated. constructor.
  - cbn [forOf]. unfold bind at 1.
    destruct (lookup (H:=Document_Fingerprint) first (skillVersionFingerprints s))
      as [e|] eqn:Hfirst.
    + unfold db_delete at 1. cbn [rows fingerprintsTable]. rewrite Hfirst.
      destruct (in_dec Nat.eq_dec first ids) as [Hagain|Honce].
      * apply delete_stale. exists first. split; [assumption|].
        cbn [with_rows fingerprintsTable skillVersionFingerprints].
        intros Hkept. apply in_map_iff in Hkept as (e' & He' & Hfiltered).
        apply filter_In in Hfiltered as [_ Hother].
        apply negb_true_iff, Nat.eqb_neq in Hother. now apply Hother.
      * apply IH. intros Hdistinct. apply Hrepeated. now constructor.
    + rewrite delete_missing.
      * now eexists.
      * now apply (lookup_None (H:=Document_Fingerprint)).
Qed.

(** When the applier's deletes fail, the mutation writes nothing. *)
Lemma apply_fails (now : nat) (args : FB.PatchArgs) (version : SkillVersion) (s : Store) :
  lookup (FB.arg_versionId args) (skillVersions s) = Some version ->
  FB.arg_replaceEntries args = true ->
  (exists i, In i (nullish (FB.arg_existingEntryIds args) []) /\
             ~ In i (map entry_id (skillVersionFingerprints s))) \/
  ~ NoDup (nullish (FB.arg_existingEntryIds args) []) ->
  runMutation (FB.applySkillFingerprintBackfillPatchInternal now args) s
  = (s, Thrown "Delete on nonexistent document").
Proof.
  intros Hfound Hreplace Hbad.
  destruct (lookup_Some _ _ _ Hfound) as [Hin Hid].
  change (_id version) with (version_id version) in Hid.
  unfold runMutation, FB.applySkillFingerprintBackfillPatchInternal.
  unfold bind at 1. unfold db_get. cbn [rows skillVersionsTable]. rewrite Hfound, Hreplace.
  change (_id version) with (version_id version).
  destruct (FB.arg_patchVersion args).
  - unfold bind at 1. unfold db_patch. cbn [rows skillVersionsTable].
    rewrite Hid, Hfound. unfold bind at 1. unfold bind at 1.
    match goal with
    | |- context [forOf ?ids tt ?body ?s1] =>
        destruct (delete_fails ids s1 Hbad) as (s' & ->)
    end.
    reflexivity.
  - unfold bind at 1. unfold ret at 1. unfold bind at 1. unfold bind at 1.
    destruct (delete_fails _ s Hbad) as (s' & ->).
    reflexivity.
Qed.

Lemma apply_stale (now : nat) (args : FB.PatchArgs) (version : SkillVersion) (s : Store) :
  lookup (FB.arg_versionId args) (skillVersions s) = Some version ->
  FB.arg_replaceEntries args = true ->
  (exists i, In i (nullish (FB.arg_existingEntryIds args) []) /\
             ~ In i (map entry_id (skillVersionFingerprints s))) ->
  runMutation (FB.applySkillFingerprintBackfillPatchInternal now args) s
  = (s, Thrown "Delete on nonexistent document").
Proof. intros Hfound Hreplace Hstale. apply (apply_fails now args version); auto. Qed.

(** ** One item of the fingerprint orchestrator *)

Section FingerprintItemFacts.
Variable hashSkillFiles : list FB.HashedFile -> string.
Variable Date_now : nat -> nat.

Let processItem := FB.processItem hashSkillFiles Date_now.
Let tally := fingerprintTally hashSkillFiles.

Lemma tally_versionsScanned (item : FB.FingerprintBackfillPageItem)
    (totals : FB.FingerprintBackfillStats) :
  FB.versionsScanned (tally item totals) = S (FB.versionsScanned totals).
Proof.
  unfold tally, fingerprintTally.
  repeat match goal with |- context [if ?c then _ else _] => destruct c end; reflexivity.
Qed.

(** In a dry run, and in any run when stored field and entries are both
    correct, the item only moves the counters. *)
Lemma processItem_dry (totals : FB.FingerprintBackfillStats)
    (item : FB.FingerprintBackfillPageItem) (s : Store) :
  processItem true totals item s = (s, Returned (tally item totals)).
Proof.
  unfold processItem, FB.processItem, tally, fingerprintTally.
  fold (entryIsCorrect hashSkillFiles item).
  fold (versionFingerprintIsCorrect hashSkillFiles item).
  destruct (entryIsCorrect hashSkillFiles item),
           (versionFingerprintIsCorrect hashSkillFiles item),
           (0 <? List.length (FB.existingEntries item)); reflexivity.
Qed.

Lemma processItem_correct (dryRun : bool) (totals : FB.FingerprintBackfillStats)
    (item : FB.FingerprintBackfillPageItem) (s : Store) :
  entryIsCorrect hashSkillFiles item = true ->
  versionFingerprintIsCorrect hashSkillFiles item = true ->
  processItem dryRun totals item s = (s, Returned (tally item totals)).
Proof.
  intros He Hv.
  unfold processItem, FB.processItem, tally, fingerprintTally.
  fold (entryIsCorrect hashSkillFiles item).
  fold (versionFingerprintIsCorrect hashSkillFiles item).
  rewrite He, Hv.
  destruct (0 <? List.length (FB.existingEntries item)); reflexivity.
Qed.

(** Otherwise a real run calls the applier, in a transaction, and goes on
    with the counters whatever the applier returns. *)
Lemma processItem_real (totals : FB.FingerprintBackfillStats)
    (item : FB.FingerprintBackfillPageItem) (s : Store) :
  entryIsCorrect hashSkillFiles item && versionFingerprintIsCorrect hashSkillFiles item
    = false ->
  processItem false totals item s =
  (runMutation
     (FB.applySkillFingerprintBackfillPatchInternal
        (fingerprintPatchTime hashSkillFiles Date_now item totals) (fingerprintPatchArgs hashSkillFiles item)) ;;;
   ret (tally item totals)) s.
Proof.
  intros Hc.
  unfold fingerprintPatchTime, fingerprintPatchArgs.
  unfold processItem, FB.processItem, tally, fingerprintTally.
  fold (entryIsCorrect hashSkillFiles item).
  fold (versionFingerprintIsCorrect hashSkillFiles item).
  destruct (entryIsCorrect hashSkillFiles item),
           (versionFingerprintIsCorrect hashSkillFiles item),
           (0 <? List.length (FB.existingEntries item)); try discriminate; reflexivity.
Qed.

Lemma processItem_missingVersion (totals : FB.FingerprintBackfillStats)
    (item : FB.FingerprintBackfillPageItem) (s : Store) :
  lookup (FB.versionId item) (skillVersions s) = None ->
  processItem false totals item s = (s, Returned (tally item totals)).
Proof.
  intros Hl.
  destruct (entryIsCorrect hashSkillFiles item && versionFingerprintIsCorrect hashSkillFiles item)
    eqn:Hc.
  - apply andb_true_iff in Hc as [He Hv]. now apply processItem_correct.
  - rewrite processItem_real by assumption.
    unfold bind, runMutation. now rewrite apply_missingVersion.
Qed.

End FingerprintItemFacts.

(** C8 as stated fails when a listed id names no entry, or is listed
    twice: the version exists and [replaceEntries] is set, yet the
    delete throws and the mutation inserts nothing and deletes nothing. *)
Lemma replace_entries_needs_live_ids :
  let replace ids :=
    {| FB.arg_versionId := 1; FB.arg_fingerprint := "h"; FB.arg_patchVersion := true;
       FB.arg_replaceEntries := true; FB.arg_existingEntryIds := Some ids |} in
  (lookup 1 (skillVersions (sampleStore None [])) = Some (sampleVersion None) /\
   exists e,
     runMutation (FB.applySkillFingerprintBackfillPatchInternal 7 (replace [7]))
                 (sampleStore None [])
     = (sampleStore None [], Thrown e)) /\
  (lookup 1 (skillVersions emptyFingerprintStore) = Some emptyFingerprintVersion /\
   skillVersionFingerprints emptyFingerprintStore = [emptyFingerprintEntry] /\
   exists e,
     runMutation (FB.applySkillFingerprintBackfillPatchInternal 7 (replace [2; 2]))
                 emptyFingerprintStore
     = (emptyFingerprintStore, Thrown e)).
Proof.
  intros replace. split.
  - split; [reflexivity|]. eexists. vm_compute. reflexivity.
  - split; [reflexivity|]. split; [reflexivity|]. eexists. vm_compute. reflexivity.
Qed.

(** C8, amended.  When the target version does not exist the applier
    returns [{ ok: false, reason: 'missingVersion' }] and leaves the store
    as it is, and the orchestrator, which does not look at that result,
    goes on with the remaining items of the batch.  When the version
    exists, [replaceEntries] is set and the listed ids are ids of entries
    in the store, each listed once, the applier deletes every listed
    entry and then inserts exactly one new entry, last in the table,
    carrying the version's ids, the computed fingerprint and the current
    timestamp.  When instead a listed id names no entry or is listed
    twice, a delete throws and the mutation leaves the store as it was. *)
Theorem applier_contract (now : nat) (args : FB.PatchArgs) (s : Store) :
  (lookup (FB.arg_versionId args) (skillVersions s) = None ->
   FB.applySkillFingerprintBackfillPatchInternal now args s
     = (s, Returned (FB.patch_failed "missingVersion")) /\
   forall hashSkillFiles Date_now totals item rest,
     FB.versionId item = FB.arg_versionId args ->
     exists totals',
       FB.processItem hashSkillFiles Date_now false totals item s = (s, Returned totals') /\
       forOf (item :: rest) totals (FB.processItem hashSkillFiles Date_now false) s
       = forOf rest totals' (FB.processItem hashSkillFiles Date_now false) s) /\
  (forall version,
     lookup (FB.arg_versionId args) (skillVersions s) = Some version ->
     FB.arg_replaceEntries args = true ->
     NoDup (nullish (FB.arg_existingEntryIds args) []) ->
     (forall i, In i (nullish (FB.arg_existingEntryIds args) []) ->
                In i (map entry_id (skillVersionFingerprints s))) ->
     exists s',
       FB.applySkillFingerprintBackfillPatchInternal now args s = (s', Returned FB.patch_ok) /\
       skillVersionFingerprints s' =
         removeIds (nullish (FB.arg_existingEntryIds args) []) (skillVersionFingerprints s)
         ++ [{| entry_id := nextId s;
                entry_skillId := version_skillId version;
                entry_versionId := version_id version;
                entry_fingerprint := FB.arg_fingerprint args;
                entry_createdAt := now |}] /\
       (forall e, In e (removeIds (nullish (FB.arg_existingEntryIds args) [])
                                  (skillVersionFingerprints s)) <->
                  In e (skillVersionFingerprints s) /\
                  ~ In (entry_id e) (nullish (FB.arg_existingEntryIds args) []))) /\
  (forall version,
     lookup (FB.arg_versionId args) (skillVersions s) = Some version ->
     FB.arg_replaceEntries args = true ->
     (exists i, In i (nullish (FB.arg_existingEntryIds args) []) /\
                ~ In i (map entry_id (skillVersionFingerprints s))) \/
     ~ NoDup (nullish (FB.arg_existingEntryIds args) []) ->
     exists e,
       runMutation (FB.applySkillFingerprintBackfillPatchInternal now args) s
       = (s, Thrown e)).
Proof.
  split; [|split].
  - intros Hl. split; [now apply apply_missingVersion|].
    intros hashSkillFiles Date_now totals item rest Hid.
    exists (fingerprintTally hashSkillFiles item totals).
    rewrite <- Hid in Hl.
    pose proof (processItem_missingVersion hashSkillFiles Date_now totals item s Hl) as Hp.
    split; [exact Hp|]. simpl. unfold bind. now rewrite Hp.
  - intros version Hl Hr Hnd Hsub.
    exists (fingerprintPatched now args version s). split; [|split].
    + apply apply_found; auto.
    + unfold fingerprintPatched. simpl. now rewrite Hr.
    + intros e. unfold removeIds. rewrite filter_In, negb_true_iff.
      rewrite <- not_true_iff_false, existsb_exists. split.
      * intros [Hin Hn]. split; auto. intros Hi. apply Hn.
        exists (entry_id e). split; auto. apply Nat.eqb_refl.
      * intros [Hin Hn]. split; auto. intros (i & Hi & E).
        apply Nat.eqb_eq in E. subst. contradiction.
  - intros version Hfound Hreplace Hbad. eexists.
    now apply (apply_fails now args version).
Qed.

(** Replacing the single entry of a version: one entry, the new one, is left. *)
Lemma applier_contract_witness :
  exists s',
    FB.applySkillFingerprintBackfillPatchInternal 7
      {| FB.arg_versionId := 1; FB.arg_fingerprint := "h"; FB.arg_patchVersion := true;
         FB.arg_replaceEntries := true; FB.arg_existingEntryIds := Some [2] |}
      emptyFingerprintStore = (s', Returned FB.patch_ok) /\
    skillVersionFingerprints s' =
      [{| entry_id := 3; entry_skillId := 0; entry_versionId := 1;
          entry_fingerprint := "h"; entry_createdAt := 7 |}].
Proof.
  destruct (proj1 (proj2 (applier_contract 7
              {| FB.arg_versionId := 1; FB.arg_fingerprint := "h";
                 FB.arg_patchVersion := true; FB.arg_replaceEntries := true;
                 FB.arg_existingEntryIds := Some [2] |}
              emptyFingerprintStore))
            emptyFingerprintVersion eq_refl eq_refl)
    as (s' & Hrun & Hentries & _).
  - simpl. constructor; [intros [] | constructor].
  - simpl. intros i [<-|[]]. now left.
  - exists s'. split; [exact Hrun | exact Hentries].
Defined.

(** ** Paginated scans *)

Lemma firstn_add {A} (a b : nat) (l : list A) :
  firstn (a + b) l = firstn a l ++ firstn b (skipn a l).
Proof.
  revert l. induction a as [|a IH]; intros l; simpl; [reflexivity|].
  destruct l as [|x l]; simpl.
  - now rewrite firstn_nil.
  - now rewrite IH.
Qed.

Lemma skipn_add {A} (a b : nat) (l : list A) : skipn (a + b) l = skipn b (skipn a l).
Proof.
  revert l. induction a as [|a IH]; intros l; simpl; [reflexivity|].
  destruct l as [|x l]; simpl; [now rewrite skipn_nil | apply IH].
Qed.

Lemma In_firstn {A} (n : nat) (l : list A) (x : A) : In x (firstn n l) -> In x l.
Proof. rewrite <- (firstn_skipn n l) at 2. intros Hx. apply in_or_app. now left. Qed.

Lemma In_skipn {A} (n : nat) (l : list A) (x : A) : In x (skipn n l) -> In x l.
Proof. rewrite <- (firstn_skipn n l) at 2. intros Hx. apply in_or_app. now right. Qed.

Lemma NoDup_skipn {A} (n : nat) (l : list A) : NoDup l -> NoDup (skipn n l).
Proof.
  rewrite <- (firstn_skipn n l) at 1. intros Hnd. now apply NoDup_app_remove_l in Hnd.
Qed.

Lemma NoDup_firstn {A} (n : nat) (l : list A) : NoDup l -> NoDup (firstn n l).
Proof.
  rewrite <- (firstn_skipn n l) at 1. intros Hnd. now apply NoDup_app_remove_r in Hnd.
Qed.

Lemma NoDup_firstn_skipn_disjoint {A} (n : nat) (l : list A) (x : A) :
  NoDup l -> In x (firstn n l) -> ~ In x (skipn n l).
Proof.
  rewrite <- (firstn_skipn n l) at 1. revert l.
  induction n as [|n IH]; intros l Hnd Hin; simpl in *; [contradiction|].
  destruct l as [|y l]; simpl in *; [contradiction|].
  inversion Hnd as [|? ? Hy Hnd']; subst.
  destruct Hin as [->|Hin]; [|now apply IH].
  intros Hx. apply Hy. apply in_or_app. now right.
Qed.

Ltac ltb_cases :=
  repeat match goal with
  | |- context [?a <? ?b] => destruct (Nat.ltb_spec a b)
  | |- context [?a <=? ?b] => destruct (Nat.leb_spec a b)
  end; try reflexivity; try lia.

Section ScanFacts.
Context {Doc Item Totals V : Type} `{Document Doc}.
Variable T : Table Doc.
Variable classify : Store -> Doc -> option Item.
Variable process : Totals -> Item -> M Totals.

(** What the scan reads and writes about the document with a given id. *)
Variable view : Store -> Id -> V.
(** The fetcher's decision, from the view of the document. *)
Variable classifyV : V -> option Item.
(** The counters after the document, from its view. *)
Variable count : V -> Totals -> Totals.
(** The standing assumption on stores. *)
Variable Inv : Store -> Prop.

Hypothesis Inv_keys : forall s, Inv s -> NoDup (keysOf T s).

Hypothesis classify_view : forall s d,
  Inv s -> In d (rows T s) -> classify s d = classifyV (view s (_id d)).

Hypothesis count_skip : forall v t, classifyV v = None -> count v t = t.

Lemma tallyAll_ext (s s' : Store) (ks : list Id) (t : Totals) :
  (forall k, In k ks -> view s' k = view s k) -> tallyAll view count s' ks t = tallyAll view count s ks t.
Proof.
  unfold tallyAll. revert t. induction ks as [|k ks IH]; intros t Hv; simpl; [reflexivity|].
  rewrite (Hv k (or_introl eq_refl)). apply IH. intros; apply Hv; now right.
Qed.

Lemma tallyAll_app (s : Store) (ks1 ks2 : list Id) (t : Totals) :
  tallyAll view count s (ks1 ++ ks2) t = tallyAll view count s ks2 (tallyAll view count s ks1 t).
Proof. unfold tallyAll. apply fold_left_app. Qed.

Lemma page_keys (s : Store) (cursor : option Cursor) (numItems : nat) :
  map _id (fst (fst (paginate (rows T s) cursor numItems)))
  = firstn numItems (skipn (nullish cursor 0) (keysOf T s)).
Proof. unfold paginate, keysOf. simpl. now rewrite skipn_map, firstn_map. Qed.

Lemma page_items (s : Store) (cursor : option Cursor) (numItems : nat) :
  Inv s ->
  keep (classify s) (fst (fst (paginate (rows T s) cursor numItems)))
  = keep (fun k => classifyV (view s k))
         (firstn numItems (skipn (nullish cursor 0) (keysOf T s))).
Proof.
  intros HI. rewrite <- page_keys, keep_map. apply keep_ext_in.
  intros d Hd. apply classify_view; auto.
  unfold paginate in Hd. simpl in Hd. eapply In_skipn, In_firstn, Hd.
Qed.

(** *** Scans whose items change the store *)

Section Visiting.
(** How processing a document changes its view. *)
Variable Step : V -> V -> Prop.

Hypothesis process_visit : forall s k item t,
  Inv s -> In k (keysOf T s) -> classifyV (view s k) = Some item ->
  exists s',
    process t item s = (s', Returned (count (view s k) t)) /\
    Inv s' /\ keysOf T s' = keysOf T s /\
    (forall k', k' <> k -> view s' k' = view s k') /\
    Step (view s k) (view s' k).

Lemma Visited_nil (s : Store) : Inv s -> Visited T view classifyV Inv Step [] s s.
Proof.
  intros HI. split; [assumption|]. split; [reflexivity|].
  intros k. split; [intros [] | reflexivity].
Qed.

Lemma Visited_app (ks1 ks2 : list Id) (s0 s1 s2 : Store) :
  Visited T view classifyV Inv Step ks1 s0 s1 ->
  Visited T view classifyV Inv Step ks2 s1 s2 ->
  (forall k, In k ks1 -> ~ In k ks2) ->
  Visited T view classifyV Inv Step (ks1 ++ ks2) s0 s2.
Proof.
  intros (_ & Hk1 & Hv1) (HI2 & Hk2 & Hv2) Hdisj.
  split; [assumption|]. split; [congruence|].
  intros k. split.
  - intros Hin. destruct (in_dec Nat.eq_dec k ks1) as [H1|H1].
    + rewrite (proj2 (Hv2 k) (Hdisj k H1)). now apply Hv1.
    + apply in_app_or in Hin as [Hin|Hin]; [contradiction|].
      rewrite <- (proj2 (Hv1 k) H1). now apply Hv2.
  - intros Hn. rewrite (proj2 (Hv2 k)), (proj2 (Hv1 k)); auto;
      intros Hin; apply Hn; apply in_or_app; auto.
Qed.

Lemma visit_items (ks : list Id) :
  forall s t,
    Inv s -> NoDup ks -> (forall k, In k ks -> In k (keysOf T s)) ->
    exists s',
      forOf (keep (fun k => classifyV (view s k)) ks) t process s
      = (s', Returned (tallyAll view count s ks t)) /\
      Visited T view classifyV Inv Step ks s s'.
Proof.
  induction ks as [|k ks IH]; intros s t HI Hnd Hsub.
  - exists s. split; [reflexivity | now apply Visited_nil].
  - inversion Hnd as [|? ? Hk Hnd']; subst.
    unfold keep; simpl. fold (keep (fun k => classifyV (view s k)) ks).
    destruct (classifyV (view s k)) as [item|] eqn:Ec.
    + destruct (process_visit s k item t HI (Hsub k (or_introl eq_refl)) Ec)
        as (s1 & Hrun & HI1 & Hk1 & Hframe & Hstep).
      destruct (IH s1 (count (view s k) t) HI1 Hnd') as (s' & Hrest & Hvis).
      { intros k' Hk'. rewrite Hk1. apply Hsub. now right. }
      assert (Hsame : forall k', In k' ks -> view s1 k' = view s k').
      { intros k' Hk'. apply Hframe. intros ->. contradiction. }
      exists s'. split.
      * simpl. unfold bind. rewrite Hrun.
        rewrite (keep_ext_in (fun k' => classifyV (view s k'))
                             (fun k' => classifyV (view s1 k')) ks)
          by (intros; now rewrite Hsame).
        rewrite Hrest. unfold tallyAll at 2. simpl. fold (tallyAll view count s ks (count (view s k) t)).
        now rewrite (tallyAll_ext s s1).
      * apply (Visited_app [k] ks s s1 s'); auto.
        -- split; [assumption|]. split; [assumption|]. intros k'. split.
           ++ intros [<-|[]]. unfold VisitRel. now rewrite Ec.
           ++ intros Hn. apply Hframe. intros ->. apply Hn. now left.
        -- intros k' [<-|[]]. assumption.
    + destruct (IH s t HI Hnd') as (s' & Hrest & Hvis).
      { intros k' Hk'. apply Hsub. now right. }
      exists s'. split.
      * simpl. rewrite Hrest. unfold tallyAll at 2. simpl.
        now rewrite (count_skip _ _ Ec).
      * apply (Visited_app [k] ks s s s'); auto.
        -- split; [assumption|]. split; [reflexivity|]. intros k'. split; auto.
           intros [<-|[]]. unfold VisitRel. now rewrite Ec.
        -- intros k' [<-|[]]. assumption.
Qed.

(** A scan of [n] batches from a cursor visits the next [n * numItems]
    documents, once each and in table order, and reports completion
    exactly when at most [n * numItems] documents were left. *)
Lemma scan_visited (numItems n : nat) :
  forall cursor isDone t s,
    Inv s ->
    let left := skipn (nullish cursor 0) (keysOf T s) in
    exists s' cursor',
      scan T classify process numItems n cursor isDone t s
      = (s', Returned (cursor',
                       if n =? 0 then isDone else List.length left <=? n * numItems,
                       tallyAll view count s (firstn (n * numItems) left) t)) /\
      Visited T view classifyV Inv Step (firstn (n * numItems) left) s s'.
Proof.
  induction n as [|n IH]; intros cursor isDone t s HI left.
  - exists s, cursor. split; [reflexivity | now apply Visited_nil].
  - cbn [scan].
    pose proof (page_items s cursor numItems HI) as Hitems.
    unfold paginate in *. cbn [fst snd] in Hitems. rewrite Hitems. fold left.
    assert (Hlen : List.length (skipn (nullish cursor 0) (rows T s)) = List.length left).
    { unfold left, keysOf. now rewrite skipn_map, length_map. }
    rewrite Hlen.
    assert (Hndl : NoDup left) by (apply NoDup_skipn; auto).
    destruct (visit_items (firstn numItems left) s t HI) as (s1 & Hrun & Hvis).
    { now apply NoDup_firstn. }
    { intros k Hk. eapply In_skipn, In_firstn, Hk. }
    rewrite Hrun.
    replace (S n * numItems) with (numItems + n * numItems) by lia.
    destruct (Nat.leb_spec (List.length left) numItems) as [Hshort|Hfull].
    + exists s1. eexists. split.
      * cbn [Nat.eqb]. rewrite !firstn_all2 by lia.
        rewrite firstn_all2 in Hrun by lia.
        destruct (Nat.leb_spec (List.length left) (numItems + n * numItems)); [|lia].
        reflexivity.
      * rewrite firstn_all2 by lia. rewrite firstn_all2 in Hvis by lia. exact Hvis.
    + destruct Hvis as (HI1 & Hk1 & Hv1).
      destruct (IH (Some (nullish cursor 0 +
                          List.length (firstn numItems (skipn (nullish cursor 0) (rows T s)))))
                   false (tallyAll view count s (firstn numItems left) t) s1 HI1)
        as (s2 & cursor2 & Hrest & Hvis2).
      assert (Hpage : List.length (firstn numItems (skipn (nullish cursor 0) (rows T s)))
                      = numItems).
      { rewrite length_firstn. lia. }
      rewrite Hpage in *. cbn [nullish] in Hrest, Hvis2.
      rewrite Hk1, skipn_add in Hrest, Hvis2. fold left in Hrest, Hvis2.
      assert (Hdisj : forall k, In k (firstn numItems left) ->
                                ~ In k (firstn (n * numItems) (skipn numItems left))).
      { intros k Hk Hk'. apply In_firstn in Hk'.
        now apply (NoDup_firstn_skipn_disjoint numItems left k). }
      exists s2, cursor2. split.
      * rewrite Hrest. cbn [Nat.eqb]. rewrite firstn_add, tallyAll_app.
        rewrite length_skipn.
        rewrite (tallyAll_ext s s1).
        2:{ intros k Hk. apply Hv1. intros Hk'. now apply (Hdisj k Hk'). }
        do 4 f_equal.
        destruct n; simpl; ltb_cases.
      * rewrite firstn_add. apply (Visited_app _ _ s s1 s2); auto.
        split; [assumption|]. split; [assumption|]. exact Hv1.
Qed.

End Visiting.

(** *** Scans whose items leave the store alone *)

Section Settled.
Variable Settled : V -> Prop.

Hypothesis process_settled : forall s k item t,
  Inv s -> In k (keysOf T s) -> classifyV (view s k) = Some item -> Settled (view s k) ->
  process t item s = (s, Returned (count (view s k) t)).

Lemma settled_items (s : Store) (ks : list Id) :
  Inv s ->
  (forall k, In k ks -> In k (keysOf T s) /\ Settled (view s k)) ->
  forall t,
    forOf (keep (fun k => classifyV (view s k)) ks) t process s
    = (s, Returned (tallyAll view count s ks t)).
Proof.
  intros HI. induction ks as [|k ks IH]; intros Hks t; [reflexivity|].
  unfold keep; simpl. fold (keep (fun k => classifyV (view s k)) ks).
  unfold tallyAll; simpl. fold (tallyAll view count s ks (count (view s k) t)).
  destruct (Hks k (or_introl eq_refl)) as [Hk Hset].
  destruct (classifyV (view s k)) as [item|] eqn:Ec.
  - simpl. unfold bind. rewrite (process_settled s k item t HI Hk Ec Hset).
    apply IH. intros; apply Hks; now right.
  - simpl. rewrite (count_skip _ _ Ec). apply IH. intros; apply Hks; now right.
Qed.

Lemma scan_settled (numItems n : nat) (s : Store) :
  Inv s ->
  (forall k, In k (keysOf T s) -> Settled (view s k)) ->
  forall cursor isDone t,
    let left := skipn (nullish cursor 0) (keysOf T s) in
    exists cursor',
      scan T classify process numItems n cursor isDone t s
      = (s, Returned (cursor',
                      if n =? 0 then isDone else List.length left <=? n * numItems,
                      tallyAll view count s (firstn (n * numItems) left) t)).
Proof.
  intros HI Hall. induction n as [|n IH]; intros cursor isDone t left.
  - exists cursor. reflexivity.
  - cbn [scan].
    pose proof (page_items s cursor numItems HI) as Hitems.
    unfold paginate in *. cbn [fst snd] in Hitems. rewrite Hitems. fold left.
    assert (Hlen : List.length (skipn (nullish cursor 0) (rows T s)) = List.length left).
    { unfold left, keysOf. now rewrite skipn_map, length_map. }
    rewrite Hlen.
    rewrite settled_items; auto.
    2:{ intros k Hk. assert (In k (keysOf T s)) by (eapply In_skipn, In_firstn, Hk). auto. }
    replace (S n * numItems) with (numItems + n * numItems) by lia.
    destruct (Nat.leb_spec (List.length left) numItems) as [Hshort|Hfull].
    + eexists. cbn [Nat.eqb]. rewrite !firstn_all2 by lia.
      destruct (Nat.leb_spec (List.length left) (numItems + n * numItems)); [|lia].
      reflexivity.
    + destruct (IH (Some (nullish cursor 0 +
                          List.length (firstn numItems (skipn (nullish cursor 0) (rows T s)))))
                   false (tallyAll view count s (firstn numItems left) t))
        as (cursor2 & Hrest).
      assert (Hpage : List.length (firstn numItems (skipn (nullish cursor 0) (rows T s)))
                      = numItems).
      { rewrite length_firstn. lia. }
      rewrite Hpage in *. cbn [nullish] in Hrest.
      rewrite skipn_add in Hrest. fold left in Hrest.
      exists cursor2. rewrite Hrest. cbn [Nat.eqb]. rewrite firstn_add, tallyAll_app.
      rewrite length_skipn. do 4 f_equal.
      destruct n; simpl; ltb_cases.
Qed.

End Settled.

End ScanFacts.

Lemma keep_In {A B} (f : A -> option B) (xs : list A) (y : B) :
  In y (keep f xs) -> exists x, In x xs /\ f x = Some y.
Proof.
  unfold keep. rewrite in_flat_map. intros (x & Hx & Hy). exists x. split; [assumption|].
  destruct (f x) as [y'|]; [|destruct Hy]. destruct Hy as [->|[]]. reflexivity.
Qed.

(** *** Scans whose items never fail *)

Section ScanCompletes.
Context {Doc Item Totals : Type} `{Document Doc}.
Variable T : Table Doc.
Variable classify : Store -> Doc -> option Item.
Variable process : Totals -> Item -> M Totals.
(** The stores the scan may move to, and the items that are safe to
    process in a store. *)
Variable Same : Store -> Store -> Prop.
Variable Good : Store -> Item -> Prop.

Hypothesis Same_refl : forall s, Same s s.
Hypothesis Same_trans : forall s1 s2 s3, Same s1 s2 -> Same s2 s3 -> Same s1 s3.
Hypothesis Same_rows :
  forall s s', Same s s' -> List.length (rows T s') = List.length (rows T s).
Hypothesis classify_good :
  forall s d item, In d (rows T s) -> classify s d = Some item -> Good s item.
Hypothesis Good_same : forall s s' item, Same s s' -> Good s item -> Good s' item.
Hypothesis process_returns :
  forall s t item, Good s item ->
                   exists s' t', process t item s = (s', Returned t') /\ Same s s'.

Lemma forOf_completes (items : list Item) :
  forall s t,
    (forall item, In item items -> Good s item) ->
    exists s' t', forOf items t process s = (s', Returned t') /\ Same s s'.
Proof.
  induction items as [|item items IH]; intros s t Hgood.
  - exists s, t. split; [reflexivity | apply Same_refl].
  - destruct (process_returns s t item (Hgood item (or_introl eq_refl)))
      as (s1 & t1 & Hfirst & Hsame1).
    destruct (IH s1 t1) as (s' & t' & Hrest & Hsame').
    { intros item' Hin. apply (Good_same s); [assumption|]. apply Hgood. now right. }
    exists s', t'. split; [|now apply (Same_trans s s1 s')].
    cbn [forOf]. unfold bind. now rewrite Hfirst.
Qed.

(** Such a scan returns, and reports completion exactly when at most
    [n * numItems] documents were left after the cursor. *)
Lemma scan_completes (numItems n : nat) :
  forall cursor isDone t s,
    exists s' cursor' t',
      scan T classify process numItems n cursor isDone t s
      = (s', Returned (cursor',
                       if n =? 0 then isDone
                       else List.length (skipn (nullish cursor 0) (rows T s)) <=? n * numItems,
                       t')) /\
      Same s s'.
Proof.
  induction n as [|n IH]; intros cursor isDone t s.
  - exists s, cursor, t. split; [reflexivity | apply Same_refl].
  - cbn [scan]. unfold paginate.
    set (left := skipn (nullish cursor 0) (rows T s)).
    destruct (forOf_completes (keep (classify s) (firstn numItems left)) s t)
      as (s1 & t1 & Hitems & Hsame1).
    { intros item Hin. apply keep_In in Hin as (d & Hd & Hitem).
      apply (classify_good s d); [|assumption]. eapply In_skipn, In_firstn, Hd. }
    rewrite Hitems. cbn [Nat.eqb].
    replace (S n * numItems) with (numItems + n * numItems) by lia.
    destruct (Nat.leb_spec (List.length left) numItems) as [Hshort|Hfull].
    + exists s1. eexists. exists t1. split; [|assumption].
      destruct (Nat.leb_spec (List.length left) (numItems + n * numItems)); [|lia].
      reflexivity.
    + destruct (IH (Some (nullish cursor 0 + List.length (firstn numItems left))) false t1 s1)
        as (s2 & cursor2 & t2 & Hrest & Hsame2).
      exists s2, cursor2, t2. split; [|now apply (Same_trans s s1 s2)].
      rewrite Hrest. do 3 f_equal.
      cbn [nullish]. rewrite length_firstn, !length_skipn, (Same_rows s s1 Hsame1).
      unfold left. rewrite length_skipn.
      unfold left in Hfull. rewrite length_skipn in Hfull.
      destruct n; cbn [Nat.eqb Nat.mul Nat.add]; ltb_cases.
Qed.

End ScanCompletes.

(** *** Scans whose items never write *)

Lemma forOf_keeps_store {A S} (body : S -> A -> M S) (s : Store) :
  (forall acc x, exists acc', body acc x s = (s, Returned acc')) ->
  forall xs acc, exists acc', forOf xs acc body s = (s, Returned acc').
Proof.
  intros Hbody. induction xs as [|x xs IH]; intros acc.
  - exists acc. reflexivity.
  - destruct (Hbody acc x) as (acc1 & H1). destruct (IH acc1) as (acc2 & H2).
    exists acc2. simpl. unfold bind. now rewrite H1.
Qed.

Lemma scan_keeps_store {Doc Item Totals} (T : Table Doc)
    (classify : Store -> Doc -> option Item) (process : Totals -> Item -> M Totals) :
  (forall t item s, exists t', process t item s = (s, Returned t')) ->
  forall numItems n cursor isDone t s,
    exists r, scan T classify process numItems n cursor isDone t s = (s, Returned r).
Proof.
  intros Hprocess numItems. induction n as [|n IH]; intros cursor isDone t s.
  - eexists. reflexivity.
  - cbn [scan]. destruct (paginate (rows T s) cursor numItems) as [[page done] continueCursor].
    destruct (forOf_keeps_store process s (fun acc x => Hprocess acc x s)
                (keep (classify s) page) t) as (t' & Hitems).
    rewrite Hitems. destruct done; [eexists; reflexivity | apply IH].
Qed.

(** ** The fingerprint scan, version by version *)

Lemma lookup_patchRow {D} `{Document D} (upd : D -> D) (k id : Id) (tbl : list D) :
  (forall d, _id (upd d) = _id d) ->
  lookup id (patchRow k upd tbl)
  = option_map (fun d => if _id d =? k then upd d else d) (lookup id tbl).
Proof.
  intros Hupd. unfold lookup, patchRow. induction tbl as [|d tbl IH]; simpl; [reflexivity|].
  destruct (Nat.eqb_spec (_id d) k) as [E|E].
  - rewrite Hupd. destruct (Nat.eqb_spec (_id d) id) as [E'|E']; simpl.
    + apply Nat.eqb_eq in E. now rewrite E.
    + apply IH.
  - destruct (Nat.eqb_spec (_id d) id) as [E'|E']; simpl.
    + apply Nat.eqb_neq in E. now rewrite E.
    + apply IH.
Qed.

Lemma NoDup_map_filter {A B} (key : A -> B) (wanted : A -> bool) (tbl : list A)
    (Hdistinct : NoDup (map key tbl)) :
  NoDup (map key (filter wanted tbl)).
Proof.
  revert Hdistinct. induction tbl as [|x l IH]; simpl; intros Hnd; [constructor|].
  inversion Hnd as [|? ? Hx Hnd']; subst.
  destruct (wanted x); simpl; auto. constructor; auto.
  intros Hin. apply Hx. apply in_map_iff in Hin as (y & E & Hy).
  apply filter_In in Hy as [Hy _]. apply in_map_iff. now exists y.
Qed.

Lemma NoDup_map_firstn {A B} (f : A -> B) (n : nat) (l : list A) :
  NoDup (map f l) -> NoDup (map f (firstn n l)).
Proof. intros Hnd. rewrite <- firstn_map. now apply NoDup_firstn. Qed.

Lemma In_removeIds (ids : list Id) (tbl : list SkillVersionFingerprint)
    (e : SkillVersionFingerprint) :
  In e (removeIds ids tbl) <-> In e tbl /\ ~ In (entry_id e) ids.
Proof.
  unfold removeIds. rewrite filter_In, negb_true_iff.
  rewrite <- not_true_iff_false, existsb_exists. split.
  - intros [Hin Hn]. split; auto. intros Hi. apply Hn.
    exists (entry_id e). split; auto. apply Nat.eqb_refl.
  - intros [Hin Hn]. split; auto. intros (i & Hi & E).
    apply Nat.eqb_eq in E. subst. contradiction.
Qed.

Lemma entriesOf_In (k : Id) (s : Store) (e : SkillVersionFingerprint) :
  In e (entriesOf k s) <-> In e (skillVersionFingerprints s) /\ entry_versionId e = k.
Proof. unfold entriesOf. now rewrite filter_In, Nat.eqb_eq. Qed.

Lemma fetched_In (k : Id) (s : Store) (e : SkillVersionFingerprint) :
  In e (firstn 20 (entriesOf k s)) ->
  In e (skillVersionFingerprints s) /\ entry_versionId e = k.
Proof. intros Hin. apply In_firstn in Hin. now apply entriesOf_In. Qed.

(** The store after the applier ran for a version has the integrity it
    had before. *)
Lemma fingerprintPatched_ids (now : nat) (args : FB.PatchArgs) (version : SkillVersion)
    (s : Store) :
  ids_wf s -> ids_wf (fingerprintPatched now args version s).
Proof.
  intros (Hs & Hv & He & Hlt).
  unfold ids_wf, fingerprintPatched. cbn [skills skillVersions skillVersionFingerprints nextId].
  split; [assumption|]. split; [|split].
  - destruct (FB.arg_patchVersion args); [|assumption].
    change (map version_id) with (map (_id (D:=SkillVersion))).
    now rewrite patchRow_ids.
  - destruct (FB.arg_replaceEntries args); [|assumption].
    rewrite map_app. apply NoDup_app; simpl.
    + now apply NoDup_map_filter.
    + constructor; [intros [] | constructor].
    + intros i Hi [<-|[]]. apply in_map_iff in Hi as (e & E & Hin).
      apply In_removeIds in Hin as [Hin _].
      rewrite Forall_forall in Hlt. specialize (Hlt e Hin). lia.
  - destruct (FB.arg_replaceEntries args); [|assumption].
    apply Forall_app. split.
    + apply Forall_forall. intros e Hin. apply In_removeIds in Hin as [Hin _].
      rewrite Forall_forall in Hlt. specialize (Hlt e Hin). lia.
    + constructor; [simpl; lia | constructor].
Qed.

Lemma store_wf_ids (s : Store) : store_wf s -> ids_wf s.
Proof. intros (Hs & Hv & He & Hlt & _). now repeat split. Qed.

Lemma store_wf_unshared (s : Store) : store_wf s -> latest_unshared s.
Proof.
  intros (_ & _ & _ & _ & Hback) skill skill' latest Hin Hin' Hlatest Hlatest' Hfound.
  destruct (lookup latest (skillVersions s)) as [version|] eqn:Hversion; [|contradiction].
  rewrite <- (Hback skill latest version Hin Hlatest Hversion).
  exact (Hback skill' latest version Hin' Hlatest' Hversion).
Qed.

Lemma fingerprintPatched_wf (now : nat) (args : FB.PatchArgs) (version : SkillVersion)
    (s : Store) :
  store_wf s ->
  lookup (FB.arg_versionId args) (skillVersions s) = Some version ->
  store_wf (fingerprintPatched now args version s).
Proof.
  intros Hwf Hl.
  destruct (fingerprintPatched_ids now args version s (store_wf_ids s Hwf))
    as (Hs' & Hv' & He' & Hlt').
  destruct Hwf as (Hs & Hv & He & Hlt & Hback).
  split; [assumption|]. split; [assumption|]. split; [assumption|]. split; [assumption|].
  unfold fingerprintPatched. cbn [skills skillVersions].
  intros skill latest ver Hin Hlatest Hlook.
  destruct (FB.arg_patchVersion args); [|eauto].
  rewrite lookup_patchRow in Hlook by reflexivity.
  destruct (lookup latest (skillVersions s)) as [ver0|] eqn:E0; [|discriminate].
  simpl in Hlook. injection Hlook as <-.
  rewrite <- (Hback skill latest ver0 Hin Hlatest E0).
  destruct (_id ver0 =? version_id version); reflexivity.
Qed.

#[export] Instance ids_wf_fingerprint : FingerprintInvariant ids_wf.
Proof.
  split; [auto|]. intros now args version s Hids _. now apply fingerprintPatched_ids.
Qed.

#[export] Instance store_wf_fingerprint : FingerprintInvariant store_wf.
Proof. split; [apply store_wf_ids | apply fingerprintPatched_wf]. Qed.

Section FingerprintScan.
Variable hashSkillFiles : list FB.HashedFile -> string.
Variable Date_now : nat -> nat.
Context {Inv : Store -> Prop} `{!FingerprintInvariant Inv}.

Lemma fingerprint_classify_view (s : Store) (version : SkillVersion) :
  Inv s -> In version (skillVersions s) ->
  fingerprintItemOf s version = fingerprintDecision (fingerprintView s (_id version)).
Proof.
  intros HI Hin. destruct (fingerprint_inv_ids s HI) as (_ & Hv & _).
  unfold fingerprintDecision, fingerprintView. cbn [fst snd].
  now rewrite (lookup_unique (H:=Document_SkillVersion) (skillVersions s) version Hv Hin).
Qed.

Lemma fingerprint_count_skip (v : FingerprintView) (t : FB.FingerprintBackfillStats) :
  fingerprintDecision v = None -> fingerprintCount hashSkillFiles v t = t.
Proof. unfold fingerprintCount. now intros ->. Qed.


Lemma fetched_ids_distinct (k : Id) (s : Store) :
  ids_wf s -> NoDup (map entry_id (firstn 20 (entriesOf k s))).
Proof.
  intros (_ & _ & He & _). apply NoDup_map_firstn. unfold entriesOf.
  now apply NoDup_map_filter.
Qed.

Lemma fetched_ids_present (k : Id) (s : Store) (i : Id) :
  In i (map entry_id (firstn 20 (entriesOf k s))) ->
  In i (map entry_id (skillVersionFingerprints s)).
Proof.
  intros Hi. apply in_map_iff in Hi as (e & <- & Hin).
  apply fetched_In in Hin as [Hin _]. now apply in_map.
Qed.

(** An entry of the table whose id is among the ids fetched for a version
    is an entry of that version. *)
Lemma fetched_id_owner (k : Id) (s : Store) (e : SkillVersionFingerprint) :
  ids_wf s -> In e (skillVersionFingerprints s) ->
  In (entry_id e) (map entry_id (firstn 20 (entriesOf k s))) ->
  entry_versionId e = k.
Proof.
  intros (_ & _ & He & _) Hin Hi. apply in_map_iff in Hi as (e0 & E & Hin0).
  apply fetched_In in Hin0 as [Hin0 Hk].
  now rewrite <- (same_id_same_row (H:=Document_Fingerprint)
                    (skillVersionFingerprints s) e0 e He Hin0 Hin E).
Qed.

Lemma item_entry_ids (version : SkillVersion) (fetched : list SkillVersionFingerprint)
    (item : FB.FingerprintBackfillPageItem) :
  fingerprintItemFor version fetched = Some item ->
  map FB.entryId (FB.existingEntries item) = map entry_id fetched /\
  FB.versionId item = version_id version.
Proof.
  intros Hitem. apply fingerprintItemFor_item in Hitem. subst item. simpl.
  split; [|reflexivity]. rewrite map_map. reflexivity.
Qed.

Lemma entriesOf_removeIds (k : Id) (ids : list Id) (tbl : list SkillVersionFingerprint) :
  filter (fun e => entry_versionId e =? k) (removeIds ids tbl)
  = removeIds ids (filter (fun e => entry_versionId e =? k) tbl).
Proof.
  unfold removeIds. rewrite !filter_twice. apply filter_ext. intros e. apply andb_comm.
Qed.

(** Processing the item of a version in a real run: the call succeeds,
    keeps the invariant and the table of versions in place,
    leaves every other version's view alone, and takes the version's own
    view one step. *)
Lemma fingerprint_process_visit (s : Store) (k : Id)
    (item : FB.FingerprintBackfillPageItem) (t : FB.FingerprintBackfillStats) :
  Inv s ->
  In k (keysOf skillVersionsTable s) ->
  fingerprintDecision (fingerprintView s k) = Some item ->
  exists s',
    FB.processItem hashSkillFiles Date_now false t item s
    = (s', Returned (fingerprintCount hashSkillFiles (fingerprintView s k) t)) /\
    Inv s' /\
    keysOf skillVersionsTable s' = keysOf skillVersionsTable s /\
    (forall k', k' <> k -> fingerprintView s' k' = fingerprintView s k') /\
    fingerprintStep hashSkillFiles (fingerprintView s k) (fingerprintView s' k).
Proof.
  intros HI Hk Hdec. pose proof (fingerprint_inv_ids s HI) as Hwf.
  unfold fingerprintCount. rewrite Hdec.
  unfold fingerprintDecision, fingerprintView in Hdec. cbn [fst snd] in Hdec.
  destruct (lookup k (skillVersions s)) as [version|] eqn:Hl; [|discriminate].
  destruct (lookup_Some _ _ _ Hl) as [Hin Hid].
  change (_id version) with (version_id version) in Hid.
  destruct (item_entry_ids _ _ _ Hdec) as [Hids Hvid]. rewrite Hid in Hvid.
  destruct (entryIsCorrect hashSkillFiles item && versionFingerprintIsCorrect hashSkillFiles item)
    eqn:Hc.
  - (* nothing to correct *)
    apply andb_true_iff in Hc as [He Hv].
    exists s. split; [now apply processItem_correct|].
    split; [assumption|]. split; [reflexivity|]. split; [reflexivity|].
    exists version, item. unfold fingerprintDecision, fingerprintView. cbn [fst snd].
    rewrite Hl, He, Hv. auto.
  - (* the applier runs *)
    set (args := fingerprintPatchArgs hashSkillFiles item).
    set (now := fingerprintPatchTime hashSkillFiles Date_now item t).
    assert (Hl' : lookup (FB.arg_versionId args) (skillVersions s) = Some version)
      by (unfold args; simpl; now rewrite Hvid).
    assert (Hrun : FB.applySkillFingerprintBackfillPatchInternal now args s
                   = (fingerprintPatched now args version s, Returned FB.patch_ok)).
    { apply apply_found; [assumption|].
      unfold args; simpl. intros ->. rewrite Hids. split.
      - now apply fetched_ids_distinct.
      - apply fetched_ids_present. }
    exists (fingerprintPatched now args version s). split; [|split; [|split; [|split]]].
    + rewrite processItem_real by assumption. fold args. fold now.
      unfold bind, runMutation. now rewrite Hrun.
    + now apply fingerprint_inv_patched.
    + unfold keysOf, fingerprintPatched. cbn [rows skillVersionsTable skillVersions].
      destruct (FB.arg_patchVersion args); [|reflexivity].
      now rewrite patchRow_ids.
    + intros k' Hne. unfold fingerprintView, entriesOf, fingerprintPatched.
      cbn [skillVersions skillVersionFingerprints]. f_equal.
      * destruct (FB.arg_patchVersion args); [|reflexivity].
        rewrite lookup_patchRow by reflexivity.
        destruct (lookup k' (skillVersions s)) as [v'|] eqn:E'; [|reflexivity].
        simpl. destruct (lookup_Some _ _ _ E') as [_ Hid'].
        rewrite Hid', Hid. apply Nat.eqb_neq in Hne. now rewrite Hne.
      * destruct (FB.arg_replaceEntries args) eqn:Er; [|reflexivity].
        rewrite filter_app. simpl. rewrite Hid.
        apply Nat.eqb_neq in Hne. rewrite Nat.eqb_sym, Hne, app_nil_r.
        unfold removeIds. rewrite filter_twice. apply filter_ext_in.
        intros e He. destruct (Nat.eqb_spec (entry_versionId e) k') as [Ek|Ek];
          [|now rewrite andb_false_r].
        rewrite andb_true_r. apply negb_true_iff, not_true_iff_false.
        intros Hex. apply existsb_exists in Hex as (i & Hi & Ei).
        apply Nat.eqb_eq in Ei. subst i.
        unfold args in Hi, Er. simpl in Hi, Er. rewrite Er, Hids in Hi.
        apply (fetched_id_owner k s e Hwf He) in Hi.
        apply Nat.eqb_neq in Hne. congruence.
    + exists version, item. unfold fingerprintDecision, fingerprintView, fingerprintPatched.
      cbn [fst snd skillVersions skillVersionFingerprints]. rewrite Hl.
      split; [reflexivity|]. split; [assumption|]. split.
      * unfold args; simpl.
        destruct (versionFingerprintIsCorrect hashSkillFiles item); simpl; [assumption|].
        rewrite lookup_patchRow by reflexivity. rewrite Hid, Hl. simpl.
        change (_id version) with (version_id version).
        now rewrite Hid, Nat.eqb_refl.
      * unfold args, fingerprintPatchArgs.
        cbn [FB.arg_replaceEntries FB.arg_existingEntryIds FB.arg_fingerprint nullish].
        destruct (entryIsCorrect hashSkillFiles item); cbn [negb]; [reflexivity|].
        exists (nextId s), now. split.
        -- intros Hi. apply in_map_iff in Hi as (e & E & He).
           apply entriesOf_In in He as [He _].
           destruct Hwf as (_ & _ & _ & Hlt).
           rewrite Forall_forall in Hlt. specialize (Hlt e He). lia.
        -- unfold entriesOf. cbn [skillVersionFingerprints]. rewrite filter_app.
           cbn [filter entry_versionId].
           rewrite Hid, Nat.eqb_refl.
           now rewrite entriesOf_removeIds, Hids.
Qed.

End FingerprintScan.

(** ** The fingerprint orchestrator as a scan *)

Section FingerprintHandler.
Variable hashSkillFiles : list FB.HashedFile -> string.
Variable Date_now : nat -> nat.

Lemma fingerprint_batches_scan (dryRun : bool) (x : number) (n : nat) :
  forall (st : FB.LoopState) (s : Store),
    forBatches n st
      (FB.batchBody hashSkillFiles Date_now dryRun (clampInt x (of_Z 1) MAX_BATCH_SIZE)) s
    = match scan skillVersionsTable fingerprintItemOf
                 (FB.processItem hashSkillFiles Date_now dryRun)
                 (JS.to_nat (clampInt x (of_Z 1) MAX_BATCH_SIZE)) n
                 (FB.loop_cursor st) (FB.loop_isDone st) (FB.loop_totals st) s with
      | (s', Returned (cursor, isDone, totals)) =>
          (s', Returned {| FB.loop_cursor := cursor; FB.loop_isDone := isDone;
                           FB.loop_totals := totals |})
      | (s', Thrown e) => (s', Thrown e)
      end.
Proof.
  induction n as [|n IH]; intros st s.
  - destruct st; reflexivity.
  - cbn [forBatches scan]. unfold bind at 1. unfold FB.batchBody at 1.
    unfold bind at 1. unfold runQuery.
    rewrite getSkillFingerprintBackfillPageInternal_eval.
    cbn [arg_cursor arg_batchSize nullish].
    unfold MAX_BATCH_SIZE. rewrite clampInt_twice by lia.
    cbn [rows skillVersionsTable].
    destruct (paginate (skillVersions s) (FB.loop_cursor st) _) as [[page done] continueCursor].
    cbn [FB.items FB.cursor FB.isDone]. unfold bind at 1.
    destruct (forOf (keep (fingerprintItemOf s) page) (FB.loop_totals st)
                    (FB.processItem hashSkillFiles Date_now dryRun) s)
      as [s1 [totals|e]]; [|reflexivity].
    unfold ret at 1. cbn [fst snd].
    destruct done; [reflexivity|]. apply IH.
Qed.

Lemma fingerprint_handler_scan (args : BackfillActionArgs) (s : Store) :
  FB.backfillSkillFingerprintsInternalHandler hashSkillFiles Date_now args s
  = fingerprintResult
      (scan skillVersionsTable fingerprintItemOf
            (FB.processItem hashSkillFiles Date_now (Boolean (arg_dryRun args)))
            (batchSizeOf args) (maxBatchesOf args) None false FB.zeroStats s).
Proof.
  unfold FB.backfillSkillFingerprintsInternalHandler, bind.
  rewrite fingerprint_batches_scan. cbn [FB.loop_cursor FB.loop_isDone FB.loop_totals].
  fold (batchSizeOf args). fold (maxBatchesOf args).
  destruct (scan _ _ _ _ _ _ _ _ s) as [s' [[[cursor isDone] totals]|e]]; [|reflexivity].
  simpl. destruct isDone; reflexivity.
Qed.

End FingerprintHandler.

(** ** Whole runs of the fingerprint backfill *)

Section FingerprintRun.
Variable hashSkillFiles : list FB.HashedFile -> string.
Variable Date_now : nat -> nat.

Lemma maxBatches_nonzero (args : BackfillActionArgs) : (maxBatchesOf args =? 0) = false.
Proof. apply Nat.eqb_neq. pose proof (maxBatchesOf_bounds args). lia. Qed.

Context {Inv : Store -> Prop} `{!FingerprintInvariant Inv}.

Lemma fingerprint_wf_keys (s : Store) : Inv s -> NoDup (keysOf skillVersionsTable s).
Proof. intros HI. now destruct (fingerprint_inv_ids s HI) as (_ & Hv & _). Qed.

(** A real run over a store with the invariant visits the reached versions,
    each once. *)
Lemma fingerprint_run_real (args : BackfillActionArgs) (s : Store) :
  Boolean (arg_dryRun args) = false ->
  Inv s ->
  exists s',
    FB.backfillSkillFingerprintsInternalHandler hashSkillFiles Date_now args s
    = (s', fingerprintOutcome hashSkillFiles args s) /\
    Visited skillVersionsTable fingerprintView fingerprintDecision Inv
            (fingerprintStep hashSkillFiles) (versionsReached args s) s s'.
Proof.
  intros Hdry Hwf. rewrite fingerprint_handler_scan, Hdry.
  destruct (scan_visited skillVersionsTable fingerprintItemOf
              (FB.processItem hashSkillFiles Date_now false)
              fingerprintView fingerprintDecision (fingerprintCount hashSkillFiles) Inv
              fingerprint_wf_keys fingerprint_classify_view
              (fingerprint_count_skip hashSkillFiles)
              (fingerprintStep hashSkillFiles)
              (fingerprint_process_visit hashSkillFiles Date_now)
              (batchSizeOf args) (maxBatchesOf args) None false FB.zeroStats s Hwf)
    as (s' & cursor' & Hscan & Hvis).
  exists s'. split; [|exact Hvis].
  rewrite Hscan. unfold fingerprintResult, fingerprintOutcome, versionsReached.
  rewrite maxBatches_nonzero. cbn [nullish skipn]. unfold keysOf.
  cbn [rows skillVersionsTable]. rewrite length_map.
  destruct (List.length (skillVersions s) <=? maxBatchesOf args * batchSizeOf args);
    reflexivity.
Qed.

(** A run that is dry, or that finds every version settled, changes
    nothing and reports the same outcome. *)
Lemma fingerprint_run_settled (args : BackfillActionArgs) (s : Store) :
  Inv s ->
  (Boolean (arg_dryRun args) = true \/
   forall k, In k (map version_id (skillVersions s)) ->
             fingerprintSettled hashSkillFiles (fingerprintView s k)) ->
  FB.backfillSkillFingerprintsInternalHandler hashSkillFiles Date_now args s
  = (s, fingerprintOutcome hashSkillFiles args s).
Proof.
  intros Hwf Hcase. rewrite fingerprint_handler_scan.
  destruct (scan_settled skillVersionsTable fingerprintItemOf
              (FB.processItem hashSkillFiles Date_now (Boolean (arg_dryRun args)))
              fingerprintView fingerprintDecision (fingerprintCount hashSkillFiles) Inv
              fingerprint_classify_view (fingerprint_count_skip hashSkillFiles)
              (fun v => Boolean (arg_dryRun args) = true \/
                        fingerprintSettled hashSkillFiles v))
    with (numItems := batchSizeOf args) (n := maxBatchesOf args) (s := s)
         (cursor := @None nat) (isDone := false) (t := FB.zeroStats)
    as (cursor' & Hscan).
  - intros s0 k item t _ _ Hdec [Hdry|Hset]; unfold fingerprintCount; rewrite Hdec.
    + rewrite Hdry. apply processItem_dry.
    + destruct (Hset item Hdec) as [He Hv]. now apply processItem_correct.
  - assumption.
  - intros k Hk. destruct Hcase as [Hdry|Hall]; [now left | right; now apply Hall].
  - rewrite Hscan. unfold fingerprintResult, fingerprintOutcome, versionsReached.
    rewrite maxBatches_nonzero. cbn [nullish skipn]. unfold keysOf.
    cbn [rows skillVersionsTable]. rewrite length_map.
    destruct (List.length (skillVersions s) <=? maxBatchesOf args * batchSizeOf args);
    reflexivity.
Qed.

End FingerprintRun.

(** ** Consequences for one version *)

Lemma removeIds_fetched (n : nat) (entries : list SkillVersionFingerprint) :
  NoDup (map entry_id entries) ->
  removeIds (map entry_id (firstn n entries)) entries = skipn n entries.
Proof.
  revert n. induction entries as [|e entries IH]; intros n Hdistinct.
  - now destruct n.
  - destruct n as [|n]; [apply removeIds_nil|].
    inversion Hdistinct as [|? ? Hfresh Hrest]; subst.
    cbn [firstn map skipn]. unfold removeIds. cbn [filter existsb].
    rewrite Nat.eqb_refl. cbn [orb negb].
    rewrite <- (IH n Hrest). unfold removeIds. apply filter_ext_in.
    intros e' He'. cbn [existsb].
    destruct (Nat.eqb_spec (entry_id e') (entry_id e)) as [Hsame|]; [|reflexivity].
    exfalso. apply Hfresh. rewrite <- Hsame. now apply in_map.
Qed.

Lemma entriesOf_distinct (k : Id) (s : Store) :
  ids_wf s -> NoDup (map entry_id (entriesOf k s)).
Proof. intros (_ & _ & He & _). now apply NoDup_map_filter. Qed.


Section FingerprintVersion.
Variable hashSkillFiles : list FB.HashedFile -> string.

Lemma item_hash (version : SkillVersion) (fetched : list SkillVersionFingerprint)
    (item : FB.FingerprintBackfillPageItem) :
  fingerprintItemFor version fetched = Some item ->
  hashSkillFiles (FB.files item) = fingerprintOf hashSkillFiles version.
Proof. intros Hitem. apply fingerprintItemFor_item in Hitem. now subst item. Qed.

Lemma item_versionFingerprintIsCorrect (version : SkillVersion)
    (fetched : list SkillVersionFingerprint) (item : FB.FingerprintBackfillPageItem) :
  fingerprintItemFor version fetched = Some item ->
  versionFingerprintIsCorrect hashSkillFiles item
  = strictEq (version_fingerprint version) (fingerprintOf hashSkillFiles version).
Proof. intros Hitem. apply fingerprintItemFor_item in Hitem. now subst item. Qed.

(** [entryIsCorrect] holds exactly when entries were fetched and each of
    them carries the computed fingerprint. *)
Lemma item_entryIsCorrect (version : SkillVersion)
    (fetched : list SkillVersionFingerprint) (item : FB.FingerprintBackfillPageItem) :
  fingerprintItemFor version fetched = Some item ->
  (entryIsCorrect hashSkillFiles item = true <->
   fetched <> [] /\
   forall e, In e fetched -> entry_fingerprint e = fingerprintOf hashSkillFiles version).
Proof.
  intros Hitem. pose proof (item_hash _ _ _ Hitem) as Hh.
  apply fingerprintItemFor_item in Hitem.
  unfold entryIsCorrect. rewrite Hh. subst item. cbn [FB.existingEntries].
  rewrite map_map, length_map. cbn [FB.entryFingerprint].
  rewrite !andb_true_iff, length_pos_nonempty, Nat.eqb_eq, Set_has_In. split.
  - intros [[Hne Hone] Hhas]. split; [assumption|]. intros e He.
    apply Set_size_one_all in Hone as (x & _ & Hall).
    rewrite (Hall (entry_fingerprint e)) by now apply in_map.
    symmetry. now apply Hall.
  - intros [Hne Hall]. destruct fetched as [|e0 rest]; [contradiction|].
    assert (H0 : In (fingerprintOf hashSkillFiles version)
                    (map entry_fingerprint (e0 :: rest))).
    { rewrite <- (Hall e0 (or_introl eq_refl)). now left. }
    repeat split; auto.
    apply Set_size_all_one with (x := fingerprintOf hashSkillFiles version); auto.
    intros y Hy. apply in_map_iff in Hy as (e & <- & He). now apply Hall.
Qed.

Lemma strictEq_true (a : option string) (b : string) : strictEq a b = true <-> a = Some b.
Proof.
  unfold strictEq. destruct a as [x|]; [|split; discriminate].
  rewrite String.eqb_eq. split; congruence.
Qed.

Lemma setFingerprint_same (h : string) (version : SkillVersion) :
  version_fingerprint version = Some h -> setFingerprint h version = version.
Proof. destruct version; simpl. intros ->. reflexivity. Qed.

Lemma entriesDisagree_needsWork (stored : option string)
    (fetched : list SkillVersionFingerprint) :
  entriesDisagree fetched -> needsWork fieldFalsy stored fetched.
Proof.
  intros Hd. unfold needsWork. destruct stored as [fp|]; [|left; now left].
  right; right. exists fp. split; [reflexivity|]. split; [|now left].
  destruct Hd as (e1 & _ & H1 & _). intros ->. contradiction.
Qed.

(** The view of a version that is in the table of a store with unique
    ids. *)
Lemma view_of_version (s : Store) (version : SkillVersion) :
  ids_wf s -> In version (skillVersions s) ->
  fingerprintView s (version_id version) = (Some version, entriesOf (version_id version) s).
Proof.
  intros (_ & Hv & _) Hin. unfold fingerprintView.
  pose proof (lookup_unique (H:=Document_SkillVersion) (skillVersions s) version Hv Hin) as Hl.
  change (_id version) with (version_id version) in Hl. now rewrite Hl.
Qed.

(** What one step does to an emitted version, whatever the number of its
    entries: the stored field becomes the hash of the files; the first
    twenty entries stay when they all carry that hash, and otherwise go
    and are followed, after the entries beyond the twentieth, by one new
    entry that carries it. *)
Lemma step_stored (version : SkillVersion) (entries : list SkillVersionFingerprint)
    (v' : FingerprintView) :
  fingerprintStep hashSkillFiles (Some version, entries) v' ->
  fst v' = Some (setFingerprint (fingerprintOf hashSkillFiles version) version).
Proof.
  intros (version0 & item & Hv & Hdec & Hfst & _).
  cbn [fst snd] in *. injection Hv as <-.
  unfold fingerprintDecision in Hdec. cbn [fst snd] in Hdec.
  rewrite (item_hash _ _ _ Hdec), (item_versionFingerprintIsCorrect _ _ _ Hdec) in Hfst.
  rewrite Hfst.
  destruct (strictEq (version_fingerprint version) (fingerprintOf hashSkillFiles version))
    eqn:E; [|reflexivity].
  apply strictEq_true in E. now rewrite setFingerprint_same.
Qed.

Lemma step_entries (version : SkillVersion) (entries : list SkillVersionFingerprint)
    (v' : FingerprintView) :
  NoDup (map entry_id entries) ->
  fingerprintStep hashSkillFiles (Some version, entries) v' ->
  let h := fingerprintOf hashSkillFiles version in
  let allRight := firstn 20 entries <> [] /\
                  forall e, In e (firstn 20 entries) -> entry_fingerprint e = h in
  (allRight -> snd v' = entries) /\
  (~ allRight ->
   exists newId now,
     ~ In newId (map entry_id entries) /\
     snd v' = skipn 20 entries
              ++ [{| entry_id := newId;
                     entry_skillId := version_skillId version;
                     entry_versionId := version_id version;
                     entry_fingerprint := h;
                     entry_createdAt := now |}]).
Proof.
  intros Hdistinct (version0 & item & Hv & Hdec & _ & Hsnd) h allRight.
  cbn [fst snd] in *. injection Hv as <-.
  unfold fingerprintDecision in Hdec. cbn [fst snd] in Hdec.
  rewrite (item_hash _ _ _ Hdec) in Hsnd. fold h in Hsnd.
  pose proof (item_entryIsCorrect _ _ _ Hdec) as Hcorrect. fold h in Hcorrect.
  destruct (entryIsCorrect hashSkillFiles item).
  - split; [intros _; exact Hsnd|]. intros Hnot. exfalso. now apply Hnot, Hcorrect.
  - split.
    + intros Hall. apply Hcorrect in Hall. discriminate.
    + intros _. destruct Hsnd as (newId & now & Hfresh & Hsnd).
      exists newId, now. split; [assumption|]. now rewrite Hsnd, removeIds_fetched.
Qed.

(** What one step does to an emitted version all of whose entries were
    fetched. *)
Lemma step_repairs (version : SkillVersion) (entries : list SkillVersionFingerprint)
    (v' : FingerprintView) :
  List.length entries <= 20 ->
  fingerprintStep hashSkillFiles (Some version, entries) v' ->
  let h := fingerprintOf hashSkillFiles version in
  fst v' = Some (setFingerprint h version) /\
  snd v' <> [] /\
  (forall e, In e (snd v') -> entry_fingerprint e = h) /\
  ((entries = [] \/ exists e, In e entries /\ entry_fingerprint e <> h) ->
   exists e, snd v' = [e]).
Proof.
  intros Hlen (version0 & item & Hv & Hdec & Hfst & Hsnd) h.
  cbn [fst snd] in *. injection Hv as <-.
  unfold fingerprintDecision in Hdec. cbn [fst snd] in Hdec.
  rewrite firstn_all2 in Hdec, Hsnd by assumption.
  rewrite (item_hash _ _ _ Hdec) in Hfst, Hsnd. fold h in Hfst, Hsnd.
  rewrite (item_versionFingerprintIsCorrect _ _ _ Hdec) in Hfst. fold h in Hfst.
  split.
  - rewrite Hfst. destruct (strictEq (version_fingerprint version) h) eqn:E; [|reflexivity].
    apply strictEq_true in E. now rewrite setFingerprint_same.
  - destruct (entryIsCorrect hashSkillFiles item) eqn:Ec.
    + apply (item_entryIsCorrect _ _ _ Hdec) in Ec as [Hne Hall]. fold h in Hall.
      rewrite Hsnd. split; [assumption|]. split; [assumption|].
      intros [->|(e & He & Hd)]; [contradiction|]. exfalso. apply Hd. now apply Hall.
    + destruct Hsnd as (newId & now & _ & Hsnd).
      assert (Hgone : removeIds (map entry_id entries) entries = []).
      { apply filter_none. intros e He. apply negb_false_iff, existsb_exists.
        exists (entry_id e). split; [now apply in_map | apply Nat.eqb_refl]. }
      rewrite Hgone in Hsnd. simpl in Hsnd. rewrite Hsnd.
      split; [discriminate|]. split.
      * intros e [<-|[]]. reflexivity.
      * intros _. eexists. reflexivity.
Qed.


End FingerprintVersion.

(** ** Repair by one pass *)

(** C1, as stated, fails in four ways.  A stored fingerprint that differs
    from the hash of the files is not repaired when the entries agree with
    it, because the fetcher, which does not hash, skips the version.
    Entries that all carry the right value are kept as they are, so a
    version with an unset stored field and two such entries ends with two
    entries.  Only the 20 fetched entries are deleted, so a version with
    21 outdated entries ends with one outdated entry next to the new one.
    And only the 20 fetched entries are compared, so a version whose
    twenty-first entry disagrees with the others is skipped. *)
Lemma repair_misses :
  (version_fingerprint (sampleVersion (Some "stale"))
     <> Some (fingerprintOf sampleHash (sampleVersion (Some "stale"))) /\
   exists stats,
     FB.backfillSkillFingerprintsInternalHandler sampleHash sampleClock defaultArgs staleStore
     = (staleStore, Returned stats)) /\
  (version_fingerprint (sampleVersion None)
     <> Some (fingerprintOf sampleHash (sampleVersion None)) /\
   exists s' stats,
     FB.backfillSkillFingerprintsInternalHandler sampleHash sampleClock defaultArgs
       duplicateStore = (s', Returned stats) /\
     entriesOf 1 s' = [sampleEntry 2 "a:b"; sampleEntry 3 "a:b"]) /\
  (version_fingerprint (sampleVersion None)
     <> Some (fingerprintOf sampleHash (sampleVersion None)) /\
   exists s' stats,
     FB.backfillSkillFingerprintsInternalHandler sampleHash sampleClock defaultArgs
       crowdedStore = (s', Returned stats) /\
     entriesOf 1 s' =
       [sampleEntry 22 "old";
        {| entry_id := 100; entry_skillId := 0; entry_versionId := 1;
           entry_fingerprint := "a:b"; entry_createdAt := 1001 |}]) /\
  (entriesDisagree (entriesOf 1 hiddenStore) /\
   exists stats,
     FB.backfillSkillFingerprintsInternalHandler sampleHash sampleClock defaultArgs hiddenStore
     = (hiddenStore, Returned stats)).
Proof.
  split; [|split; [|split]].
  - split; [discriminate|]. eexists. vm_compute. reflexivity.
  - split; [discriminate|]. do 2 eexists. split; vm_compute; reflexivity.
  - split; [discriminate|]. do 2 eexists. split; vm_compute; reflexivity.
  - split; [|eexists; vm_compute; reflexivity].
    exists (sampleEntry 2 "a:b"), (sampleEntry 22 "old").
    split; [vm_compute; tauto|]. split; [vm_compute; tauto | discriminate].
Qed.

Section Repair.
Variable hashSkillFiles : list FB.HashedFile -> string.
Variable Date_now : nat -> nat.

(** C1, amended.  Take a version that a non-dry-run pass reaches and that
    the page fetcher emits: of its fingerprint entries the first 20 are
    fetched, and there is none, or they carry more than one distinct
    fingerprint, or the stored fingerprint is unset or empty, or none of
    them equals the stored fingerprint.  After the pass the stored
    fingerprint is [hash(files)], whatever the number of entries.  The
    fetched entries stay as they are when they all carry [hash(files)];
    otherwise they are deleted and one new entry with [hash(files)] is
    added, after the entries beyond the twentieth, which stay.  So a
    version that had at most 20 entries ends with at least one entry, all
    of them carrying [hash(files)], and with exactly one entry whenever it
    started with none or with an entry whose fingerprint was not
    [hash(files)], in particular whenever its entries disagreed. *)
Theorem fingerprint_repair (args : BackfillActionArgs) (s : Store) (version : SkillVersion) :
  Boolean (arg_dryRun args) = false ->
  ids_wf s ->
  In version (skillVersions s) ->
  In (version_id version) (versionsReached args s) ->
  let entries := entriesOf (version_id version) s in
  let fetched := firstn 20 entries in
  fetched = [] \/ entriesDisagree fetched \/
  needsWork fieldFalsy (version_fingerprint version) fetched ->
  let h := fingerprintOf hashSkillFiles version in
  let s' := fst (FB.backfillSkillFingerprintsInternalHandler hashSkillFiles Date_now args s) in
  let entries' := entriesOf (version_id version) s' in
  let allRight := fetched <> [] /\ forall e, In e fetched -> entry_fingerprint e = h in
  lookup (version_id version) (skillVersions s') = Some (setFingerprint h version) /\
  (allRight -> entries' = entries) /\
  (~ allRight ->
   exists newId now,
     ~ In newId (map entry_id entries) /\
     entries' = skipn 20 entries
                ++ [{| entry_id := newId;
                       entry_skillId := version_skillId version;
                       entry_versionId := version_id version;
                       entry_fingerprint := h;
                       entry_createdAt := now |}]) /\
  (List.length entries <= 20 ->
   entries' <> [] /\
   (forall e, In e entries' -> entry_fingerprint e = h) /\
   (entries = [] \/ entriesDisagree entries \/
    (exists e, In e entries /\ entry_fingerprint e <> h) ->
    exists e, entries' = [e])).
Proof.
  intros Hdry Hids Hin Hreach entries fetched Hemit h s' entries' allRight.
  destruct (fingerprint_run_real hashSkillFiles Date_now args s Hdry Hids)
    as (s1 & Hrun & _ & _ & Hvis).
  assert (Hs' : s' = s1) by (unfold s'; now rewrite Hrun).
  unfold entries'. rewrite Hs'. clear s' entries' Hs'.
  destruct (Hvis (version_id version)) as [Hvisit _]. specialize (Hvisit Hreach).
  rewrite (view_of_version s version Hids Hin) in Hvisit. fold entries in Hvisit.
  assert (Hneeds : needsWork fieldFalsy (version_fingerprint version) fetched).
  { destruct Hemit as [Hnil|[Hd|Hn]]; [right; now left | | assumption].
    now apply entriesDisagree_needsWork. }
  unfold VisitRel in Hvisit.
  destruct (fingerprintDecision (Some version, entries)) eqn:Hdec.
  2:{ exfalso. unfold fingerprintDecision in Hdec. cbn [fst snd] in Hdec.
      now apply (proj2 (fingerprintItemFor_emits _ _) Hneeds). }
  pose proof (step_stored hashSkillFiles version _ _ Hvisit) as Hstored.
  destruct (step_entries hashSkillFiles version _ _ (entriesOf_distinct _ s Hids) Hvisit)
    as (Hkept & Hreplaced).
  unfold fingerprintView in Hstored, Hkept, Hreplaced.
  cbn [fst snd] in Hstored, Hkept, Hreplaced.
  split; [exact Hstored|]. split; [exact Hkept|]. split; [exact Hreplaced|].
  intros Hlen.
  destruct (step_repairs hashSkillFiles version _ _ Hlen Hvisit) as (_ & H2 & H3 & H4).
  unfold fingerprintView in H2, H3, H4. cbn [fst snd] in H2, H3, H4.
  fold h in H3, H4.
  split; [assumption|]. split; [assumption|].
  intros [Hnil|[Hd|He]]; apply H4; auto.
  right. destruct Hd as (e1 & e2 & He1 & He2 & Hne).
  destruct (string_dec (entry_fingerprint e1) h) as [E1|E1]; [|now exists e1].
  exists e2. split; [assumption|]. congruence.
Qed.

End Repair.

Lemma sampleStore_wf (stored : option string) :
  store_wf (sampleStore stored []).
Proof.
  unfold store_wf, sampleStore; simpl. repeat split.
  - constructor; [intros [] | constructor].
  - constructor; [intros [] | constructor].
  - constructor.
  - constructor.
  - intros skill latest version [<-|[]] [= <-]. simpl.
    intros [= <-]. reflexivity.
Qed.

(** The scenario of section 8: files [SKILL.md] and [x.ts], no entry, no
    stored fingerprint. *)
Lemma fingerprint_repair_witness :
  let s' := fst (FB.backfillSkillFingerprintsInternalHandler sampleHash sampleClock
                   defaultArgs (sampleStore None [])) in
  lookup 1 (skillVersions s') = Some (sampleVersion (Some "a:b")) /\
  exists e, entriesOf 1 s' = [e].
Proof.
  destruct (fingerprint_repair sampleHash sampleClock defaultArgs (sampleStore None [])
              (sampleVersion None) eq_refl (store_wf_ids _ (sampleStore_wf None))
              (or_introl eq_refl) (or_introl eq_refl) (or_introl eq_refl))
    as (Hstored & _ & _ & Hsmall).
  split; [exact Hstored|].
  exact (proj2 (proj2 (Hsmall (Nat.le_0_l 20))) (or_introl eq_refl)).
Defined.

(** ** Bounds on what one pass deletes and inserts *)

Section PassBounds.
Variable hashSkillFiles : list FB.HashedFile -> string.
Variable Date_now : nat -> nat.



End PassBounds.

Lemma crowdedStore_wf : store_wf crowdedStore.
Proof.
  unfold store_wf, crowdedStore, sampleStore; cbn [skills skillVersions skillVersionFingerprints nextId].
  split; [|split; [|split; [|split]]].
  - constructor; [intros [] | constructor].
  - constructor; [intros [] | constructor].
  - rewrite map_map. cbn [entry_id sampleEntry].
    change (map (fun i => 2 + i) (seq 0 21)) with (seq 2 21). apply seq_NoDup.
  - apply Forall_forall. intros e He. apply in_map_iff in He as (i & <- & Hi).
    apply in_seq in Hi. simpl. lia.
  - intros skill latest version [<-|[]] [= <-]. simpl. intros [= <-]. reflexivity.
Qed.


(** ** One item of the summary orchestrator *)

Lemma patchRow_identity {D} `{Document D} (k : Id) (upd : D -> D) (tbl : list D) :
  (forall d, upd d = d) -> patchRow k upd tbl = tbl.
Proof.
  intros Hupd. unfold patchRow. rewrite <- (map_id tbl) at 2. apply map_ext.
  intros d. rewrite Hupd. now destruct (_id d =? k).
Qed.

Lemma patchSkill_id (now : nat) (patch : SB.SummaryPatch) (skill : Skill) :
  _id (patchSkill now patch skill) = _id skill.
Proof. unfold patchSkill. now destruct (SB.patch_summary patch). Qed.

Lemma patchSkill_latest (now : nat) (patch : SB.SummaryPatch) (skill : Skill) :
  skill_latestVersionId (patchSkill now patch skill) = skill_latestVersionId skill.
Proof. unfold patchSkill. now destruct (SB.patch_summary patch). Qed.

Lemma patchVersion_id (patch : SB.SummaryPatch) (version : SkillVersion) :
  _id (patchVersion patch version) = _id version.
Proof. unfold patchVersion. now destruct (SB.patch_parsed patch). Qed.

Lemma patchVersion_skillId (patch : SB.SummaryPatch) (version : SkillVersion) :
  version_skillId (patchVersion patch version) = version_skillId version.
Proof. unfold patchVersion. now destruct (SB.patch_parsed patch). Qed.


Lemma apply_summary_found (now : nat) (patch : SB.SummaryPatch) (skillId versionId : Id)
    (skill : Skill) (version : SkillVersion) (s : Store) :
  lookup skillId (skills s) = Some skill ->
  lookup versionId (skillVersions s) = Some version ->
  SB.applySkillBackfillPatchInternal now
    {| SB.arg_skillId := skillId; SB.arg_versionId := versionId;
       SB.arg_summary := SB.patch_summary patch;
       SB.arg_parsed := SB.patch_parsed patch |} s
  = (summaryPatched now patch skillId versionId s, Returned true).
Proof.
  intros Hs Hv. unfold SB.applySkillBackfillPatchInternal, summaryPatched.
  cbn [SB.arg_skillId SB.arg_versionId SB.arg_summary SB.arg_parsed].
  unfold patchSkill, patchVersion.
  destruct (SB.patch_summary patch) as [summary|], (SB.patch_parsed patch) as [parsed|];
    unfold bind, db_patch, ret; cbn [rows skillsTable skillVersionsTable with_rows
                                     skills skillVersions];
    rewrite ?Hs, ?Hv; cbn [skills skillVersions skillVersionFingerprints storage nextId];
    rewrite ?Hv;
    rewrite ?(patchRow_identity (H:=Document_Skill) skillId (fun skill => skill))
      by reflexivity;
    rewrite ?(patchRow_identity (H:=Document_SkillVersion) versionId (fun version => version))
      by reflexivity;
    try reflexivity; destruct s; reflexivity.
Qed.

Section SummaryItemFacts.
Variable buildSkillSummaryBackfillPatch :
  string -> option string -> ParsedSkillData -> SB.SummaryPatch.
Variable Date_now : nat -> nat.

Let processItem := SB.processItem buildSkillSummaryBackfillPatch Date_now.
Let tally := summaryTally buildSkillSummaryBackfillPatch.
Let patchFor := summaryPatchFor buildSkillSummaryBackfillPatch.

Lemma storage_get_eval (id : Id) (s : Store) :
  storage_get id s = (s, Returned (blobText (storage s) id)).
Proof. reflexivity. Qed.

(** In a dry run the item only moves the counters. *)
Lemma summary_processItem_dry (totals : SB.BackfillStats) (item : SB.BackfillPageItem)
    (s : Store) :
  processItem true totals item s = (s, Returned (tally (storage s) item totals)).
Proof.
  unfold processItem, SB.processItem, tally, summaryTally.
  destruct item as [skillId versionId skillSummary versionParsed readmeStorageId| | |];
    try reflexivity.
  unfold bind. rewrite storage_get_eval.
  destruct (blobText (storage s) readmeStorageId) as [readmeText|]; [|reflexivity].
  destruct (truthy _), (defined _); reflexivity.
Qed.

(** So it does in any run when no patch is computed or the patch is
    empty. *)
Lemma summary_processItem_settled (dryRun : bool) (totals : SB.BackfillStats)
    (item : SB.BackfillPageItem) (s : Store) :
  (forall patch, patchFor (storage s) item = Some patch -> patchIsEmpty patch = true) ->
  processItem dryRun totals item s = (s, Returned (tally (storage s) item totals)).
Proof.
  intros Hempty.
  unfold processItem, SB.processItem, tally, summaryTally.
  unfold patchFor, summaryPatchFor in Hempty.
  destruct item as [skillId versionId skillSummary versionParsed readmeStorageId| | |];
    try reflexivity.
  unfold bind. rewrite storage_get_eval.
  destruct (blobText (storage s) readmeStorageId) as [readmeText|]; [|reflexivity].
  specialize (Hempty _ eq_refl). unfold patchIsEmpty in Hempty.
  apply andb_true_iff in Hempty as [Hs Hp].
  apply negb_true_iff in Hs, Hp. rewrite Hs, Hp. reflexivity.
Qed.

(** Otherwise a real run calls the applier, in a transaction. *)
Lemma summary_processItem_real (totals : SB.BackfillStats)
    (skillId versionId : Id) (skillSummary : option string)
    (versionParsed : ParsedSkillData) (readmeStorageId : Id)
    (patch : SB.SummaryPatch) (s : Store) :
  patchFor (storage s)
           (SB.kind_ok skillId versionId skillSummary versionParsed readmeStorageId)
    = Some patch ->
  patchIsEmpty patch = false ->
  exists now,
    processItem false totals
      (SB.kind_ok skillId versionId skillSummary versionParsed readmeStorageId) s
    = (runMutation
         (SB.applySkillBackfillPatchInternal now
            {| SB.arg_skillId := skillId; SB.arg_versionId := versionId;
               SB.arg_summary := SB.patch_summary patch;
               SB.arg_parsed := SB.patch_parsed patch |}) ;;;
       ret (tally (storage s)
                  (SB.kind_ok skillId versionId skillSummary versionParsed readmeStorageId)
                  totals)) s.
Proof.
  intros Hpatch Hne.
  unfold patchFor, summaryPatchFor in Hpatch.
  unfold processItem, SB.processItem, tally, summaryTally.
  unfold bind at 1. rewrite storage_get_eval.
  destruct (blobText (storage s) readmeStorageId) as [readmeText|]; [|discriminate].
  injection Hpatch as Hpatch. rewrite Hpatch.
  unfold patchIsEmpty in Hne. rewrite Hne.
  eexists. reflexivity.
Qed.

End SummaryItemFacts.
(** ** The summary scan, skill by skill *)

Lemma summaryPatched_ids (now : nat) (patch : SB.SummaryPatch) (skillId versionId : Id)
    (s : Store) :
  ids_wf s -> ids_wf (summaryPatched now patch skillId versionId s).
Proof.
  intros (Hs & Hv & He & Hlt).
  unfold ids_wf, summaryPatched.
  cbn [skills skillVersions skillVersionFingerprints nextId].
  split; [|split; [|split]]; try assumption.
  - change (map skill_id) with (map (_id (D:=Skill))).
    rewrite patchRow_ids; [assumption | apply patchSkill_id].
  - change (map version_id) with (map (_id (D:=SkillVersion))).
    rewrite patchRow_ids; [assumption | apply patchVersion_id].
Qed.

(** A patched skill is a skill of the store before, with the same id and
    the same latest version. *)
Lemma patched_skill_origin (now : nat) (patch : SB.SummaryPatch) (skillId : Id)
    (tbl : list Skill) (skill : Skill) :
  In skill (patchRow skillId (patchSkill now patch) tbl) ->
  exists skill0,
    In skill0 tbl /\
    skill_latestVersionId skill = skill_latestVersionId skill0 /\
    skill_id skill = skill_id skill0.
Proof.
  intros Hin. apply In_patchRow in Hin as (skill0 & Hin0 & Hskill).
  exists skill0. split; [assumption|].
  destruct Hskill as [->|[_ ->]]; [auto|].
  split; [apply patchSkill_latest | apply (patchSkill_id now patch skill0)].
Qed.

Lemma summaryPatched_unshared (now : nat) (patch : SB.SummaryPatch) (skillId versionId : Id)
    (s : Store) :
  latest_unshared s -> latest_unshared (summaryPatched now patch skillId versionId s).
Proof.
  intros Hone skill skill' latest Hin Hin' Hlatest Hlatest' Hfound.
  unfold summaryPatched in Hin, Hin', Hfound. cbn [skills skillVersions] in Hin, Hin', Hfound.
  apply patched_skill_origin in Hin as (skill0 & Hin0 & Hl0 & ->).
  apply patched_skill_origin in Hin' as (skill1 & Hin1 & Hl1 & ->).
  rewrite Hl0 in Hlatest. rewrite Hl1 in Hlatest'.
  apply (Hone skill0 skill1 latest Hin0 Hin1 Hlatest Hlatest').
  rewrite lookup_patchRow in Hfound by apply patchVersion_id.
  intros Hnone. now rewrite Hnone in Hfound.
Qed.

Lemma summaryPatched_wf (now : nat) (patch : SB.SummaryPatch) (skillId versionId : Id)
    (s : Store) :
  store_wf s -> store_wf (summaryPatched now patch skillId versionId s).
Proof.
  intros Hwf.
  destruct (summaryPatched_ids now patch skillId versionId s (store_wf_ids s Hwf))
    as (Hs' & Hv' & He' & Hlt').
  destruct Hwf as (Hs & Hv & He & Hlt & Hback).
  split; [assumption|]. split; [assumption|]. split; [assumption|]. split; [assumption|].
  unfold summaryPatched. cbn [skills skillVersions].
  intros skill latest version Hin Hlatest Hlook.
  apply patched_skill_origin in Hin as (skill0 & Hin0 & Hl & Hi).
  rewrite Hl in Hlatest. rewrite Hi.
  rewrite lookup_patchRow in Hlook by apply patchVersion_id.
  destruct (lookup latest (skillVersions s)) as [version0|] eqn:E0; [|discriminate].
  simpl in Hlook. injection Hlook as <-.
  rewrite <- (Hback skill0 latest version0 Hin0 Hlatest E0).
  destruct (_id version0 =? versionId); [apply patchVersion_skillId | reflexivity].
Qed.

#[export] Instance latest_wf_summary : SummaryInvariant latest_wf.
Proof.
  split.
  - now intros s [Hids _].
  - now intros s [_ Hone].
  - intros now patch skillId versionId s [Hids Hone].
    split; [now apply summaryPatched_ids | now apply summaryPatched_unshared].
Qed.

#[export] Instance store_wf_summary : SummaryInvariant store_wf.
Proof.
  split; [apply store_wf_ids | apply store_wf_unshared |].
  intros now patch skillId versionId s. apply summaryPatched_wf.
Qed.

Section SummaryScan.
Variable buildSkillSummaryBackfillPatch :
  string -> option string -> ParsedSkillData -> SB.SummaryPatch.
Variable Date_now : nat -> nat.
Context {Inv : Store -> Prop} `{!SummaryInvariant Inv}.

Lemma summary_wf_keys (s : Store) : Inv s -> NoDup (keysOf skillsTable s).
Proof. intros HI. now destruct (summary_inv_ids s HI) as (Hs & _). Qed.

Lemma summary_classify_view (s : Store) (skill : Skill) :
  Inv s -> In skill (skills s) ->
  Some (summaryItemOf s skill) = summaryDecision (summaryView s (_id skill)).
Proof.
  intros HI Hin. destruct (summary_inv_ids s HI) as (Hs & _).
  unfold summaryDecision, summaryView. cbn [fst snd].
  now rewrite (lookup_unique (H:=Document_Skill) (skills s) skill Hs Hin).
Qed.

Lemma summary_count_skip (v : SummaryView) (t : SB.BackfillStats) :
  summaryDecision v = None -> summaryCount buildSkillSummaryBackfillPatch v t = t.
Proof. unfold summaryCount. now intros ->. Qed.

(** The parts of an [ok] item, read back from the documents it was made
    of. *)
Lemma summaryItemFor_ok (skill : Skill) (found : option SkillVersion)
    (skillId versionId : Id) (skillSummary : option string)
    (versionParsed : ParsedSkillData) (readmeStorageId : Id) :
  summaryItemFor skill found
    = SB.kind_ok skillId versionId skillSummary versionParsed readmeStorageId ->
  exists version,
    found = Some version /\
    skill_latestVersionId skill <> None /\
    skillId = skill_id skill /\ versionId = version_id version /\
    skillSummary = skill_summary skill /\ versionParsed = version_parsed version.
Proof.
  unfold summaryItemFor.
  destruct (skill_latestVersionId skill) as [latest|]; [|discriminate].
  destruct found as [version|]; [|discriminate].
  destruct (find SB.isReadme (version_files version)); [|discriminate].
  intros [= <- <- <- <- <-]. exists version. repeat split. discriminate.
Qed.

Lemma summary_process_visit (s : Store) (k : Id)
    (item : SB.BackfillPageItem) (t : SB.BackfillStats) :
  Inv s ->
  In k (keysOf skillsTable s) ->
  summaryDecision (summaryView s k) = Some item ->
  exists s',
    SB.processItem buildSkillSummaryBackfillPatch Date_now false t item s
    = (s', Returned (summaryCount buildSkillSummaryBackfillPatch (summaryView s k) t)) /\
    Inv s' /\
    keysOf skillsTable s' = keysOf skillsTable s /\
    (forall k', k' <> k -> summaryView s' k' = summaryView s k') /\
    summaryStep buildSkillSummaryBackfillPatch (summaryView s k) (summaryView s' k).
Proof.
  intros Hwf Hk Hdec.
  unfold summaryCount. rewrite Hdec.
  assert (Hview : exists skill, lookup k (skills s) = Some skill).
  { apply (lookup_In_key (H:=Document_Skill)). exact Hk. }
  destruct Hview as (skill & Hl).
  destruct (lookup_Some _ _ _ Hl) as [Hin Hid].
  change (_id skill) with (skill_id skill) in Hid.
  assert (Hv : summaryView s k = (Some skill, latestVersionOf s skill, storage s))
    by (unfold summaryView; now rewrite Hl).
  rewrite Hv in *. unfold summaryDecision in Hdec. cbn [fst snd] in *.
  injection Hdec as Hitem.
  assert (Hquiet :
    (forall patch, summaryPatchFor buildSkillSummaryBackfillPatch (storage s) item
                   = Some patch -> patchIsEmpty patch = true) ->
    exists s',
      SB.processItem buildSkillSummaryBackfillPatch Date_now false t item s
      = (s', Returned (summaryTally buildSkillSummaryBackfillPatch (storage s) item t)) /\
      Inv s' /\
      keysOf skillsTable s' = keysOf skillsTable s /\
      (forall k', k' <> k -> summaryView s' k' = summaryView s k') /\
      summaryStep buildSkillSummaryBackfillPatch
        (Some skill, latestVersionOf s skill, storage s) (summaryView s' k)).
  { intros Hempty. exists s. split; [now apply summary_processItem_settled|].
    split; [assumption|]. split; [reflexivity|]. split; [reflexivity|].
    exists skill, item. cbn [fst snd]. split; [reflexivity|].
    split; [unfold summaryDecision; cbn [fst snd]; now rewrite Hitem|].
    destruct (summaryPatchFor _ (storage s) item) as [patch|] eqn:Ep; [|exact Hv].
    rewrite (Hempty patch eq_refl). exact Hv. }
  destruct (summaryPatchFor buildSkillSummaryBackfillPatch (storage s) item)
    as [patch|] eqn:Hpatch; [|apply Hquiet; discriminate].
  destruct (patchIsEmpty patch) eqn:Hempty;
    [apply Hquiet; intros p [= <-]; assumption|]. clear Hquiet.
  destruct item as [skillId versionId skillSummary versionParsed readmeStorageId| | |];
    try discriminate.
  destruct (summaryItemFor_ok _ _ _ _ _ _ _ Hitem)
    as (version & Hfound & Hsome & -> & -> & -> & ->).
  unfold latestVersionOf in Hfound.
  destruct (skill_latestVersionId skill) as [latest|] eqn:Hlatest; [|contradiction].
  destruct (lookup_Some _ _ _ Hfound) as [Hvin Hvid].
  change (_id version) with (version_id version) in Hvid.
  destruct (summary_processItem_real buildSkillSummaryBackfillPatch Date_now t
              _ _ _ _ _ patch s Hpatch Hempty) as (now & Hrun).
  assert (Hl' : lookup (skill_id skill) (skills s) = Some skill) by now rewrite Hid.
  assert (Hfound' : lookup (version_id version) (skillVersions s) = Some version)
    by now rewrite Hvid.
  exists (summaryPatched now patch (skill_id skill) (version_id version) s).
  split; [|split; [|split; [|split]]].
  - rewrite Hrun. unfold bind, runMutation.
    now rewrite (apply_summary_found now patch _ _ skill version s Hl' Hfound').
  - now apply summary_inv_patched.
  - unfold keysOf, summaryPatched. cbn [rows skillsTable skills].
    apply patchRow_ids, patchSkill_id.
  - intros k' Hne. unfold summaryView, summaryPatched. cbn [skills storage].
    rewrite lookup_patchRow by apply patchSkill_id.
    destruct (lookup k' (skills s)) as [skill'|] eqn:El'; [|reflexivity].
    destruct (lookup_Some _ _ _ El') as [Hin' Hid']. simpl option_map.
    rewrite Hid', Hid. apply Nat.eqb_neq in Hne. rewrite Hne.
    f_equal. f_equal. unfold latestVersionOf. cbn [skillVersions].
    destruct (skill_latestVersionId skill') as [latest'|] eqn:Hlatest'; [|reflexivity].
    rewrite lookup_patchRow by apply patchVersion_id.
    destruct (lookup latest' (skillVersions s)) as [version'|] eqn:Ev'; [|reflexivity].
    destruct (lookup_Some _ _ _ Ev') as [_ Hvid']. simpl option_map. f_equal.
    rewrite Hvid', Hvid.
    destruct (Nat.eqb_spec latest' latest) as [E|E]; [|reflexivity].
    exfalso. rewrite E in Hlatest', Ev'.
    assert (Hsame : skill_id skill = skill_id skill').
    { apply (summary_inv_unshared s Hwf skill skill' latest Hin Hin' Hlatest Hlatest').
      now rewrite Hfound. }
    change (_id skill') with (skill_id skill') in Hid'.
    apply Nat.eqb_neq in Hne. congruence.
  - exists skill, (SB.kind_ok (skill_id skill) (version_id version) (skill_summary skill)
                              (version_parsed version) readmeStorageId).
    cbn [fst snd]. split; [reflexivity|].
    split; [unfold summaryDecision; cbn [fst snd]; now rewrite Hitem|].
    rewrite Hpatch, Hempty. exists now.
    unfold summaryView, summaryPatched. cbn [skills skillVersions storage].
    rewrite lookup_patchRow by apply patchSkill_id. rewrite Hid, Hl.
    simpl option_map. change (_id skill) with (skill_id skill).
    rewrite Hid, Nat.eqb_refl.
    unfold latestVersionOf. rewrite patchSkill_latest, Hlatest. cbn [skillVersions].
    rewrite lookup_patchRow by apply patchVersion_id. rewrite Hvid, Hfound.
    simpl option_map. change (_id version) with (version_id version).
    now rewrite Hvid, Nat.eqb_refl.
Qed.

End SummaryScan.

(** ** The summary orchestrator as a scan *)

Section SummaryRun.
Variable buildSkillSummaryBackfillPatch :
  string -> option string -> ParsedSkillData -> SB.SummaryPatch.
Variable Date_now : nat -> nat.

Lemma summary_batches_scan (dryRun : bool) (x : number) (n : nat) :
  forall (st : SB.LoopState) (s : Store),
    forBatches n st
      (SB.batchBody buildSkillSummaryBackfillPatch Date_now dryRun
                    (clampInt x (of_Z 1) MAX_BATCH_SIZE)) s
    = match scan skillsTable (fun s skill => Some (summaryItemOf s skill))
                 (SB.processItem buildSkillSummaryBackfillPatch Date_now dryRun)
                 (JS.to_nat (clampInt x (of_Z 1) MAX_BATCH_SIZE)) n
                 (SB.loop_cursor st) (SB.loop_isDone st) (SB.loop_totals st) s with
      | (s', Returned (cursor, isDone, totals)) =>
          (s', Returned {| SB.loop_cursor := cursor; SB.loop_isDone := isDone;
                           SB.loop_totals := totals |})
      | (s', Thrown e) => (s', Thrown e)
      end.
Proof.
  induction n as [|n IH]; intros st s.
  - destruct st; reflexivity.
  - cbn [forBatches scan]. unfold bind at 1. unfold SB.batchBody at 1.
    unfold bind at 1. unfold runQuery.
    rewrite getSkillBackfillPageInternal_eval.
    cbn [arg_cursor arg_batchSize nullish].
    unfold MAX_BATCH_SIZE. rewrite clampInt_twice by lia.
    cbn [rows skillsTable].
    destruct (paginate (skills s) (SB.loop_cursor st) _) as [[page done] continueCursor].
    cbn [SB.items SB.cursor SB.isDone]. unfold bind at 1. rewrite keep_all.
    destruct (forOf (map (summaryItemOf s) page) (SB.loop_totals st)
                    (SB.processItem buildSkillSummaryBackfillPatch Date_now dryRun) s)
      as [s1 [totals|e]]; [|reflexivity].
    unfold ret at 1. cbn [fst snd].
    destruct done; [reflexivity|]. apply IH.
Qed.

Lemma summary_handler_scan (args : BackfillActionArgs) (s : Store) :
  SB.backfillSkillSummariesInternalHandler buildSkillSummaryBackfillPatch Date_now args s
  = summaryResult
      (scan skillsTable (fun s skill => Some (summaryItemOf s skill))
            (SB.processItem buildSkillSummaryBackfillPatch Date_now (Boolean (arg_dryRun args)))
            (batchSizeOf args) (maxBatchesOf args) None false SB.zeroStats s).
Proof.
  unfold SB.backfillSkillSummariesInternalHandler, bind.
  rewrite summary_batches_scan. cbn [SB.loop_cursor SB.loop_isDone SB.loop_totals].
  fold (batchSizeOf args). fold (maxBatchesOf args).
  destruct (scan _ _ _ _ _ _ _ _ s) as [s' [[[cursor isDone] totals]|e]]; [|reflexivity].
  simpl. destruct isDone; reflexivity.
Qed.

Lemma summaryItemOf_inStore (s : Store) (skill : Skill) :
  In skill (skills s) -> itemInStore s (summaryItemOf s skill).
Proof.
  intros Hin. unfold itemInStore.
  destruct (summaryItemOf s skill)
    as [skillId versionId skillSummary versionParsed readmeStorageId| | |] eqn:Hitem;
    try exact I.
  destruct (summaryItemFor_ok _ _ _ _ _ _ _ Hitem)
    as (version & Hfound & _ & -> & -> & _ & _).
  split; [now apply in_map|].
  unfold latestVersionOf in Hfound.
  destruct (skill_latestVersionId skill) as [latest|]; [|discriminate].
  destruct (lookup_Some _ _ _ Hfound) as [Hversion _]. now apply in_map.
Qed.

(** Processing an item whose documents are in the store never fails, and
    keeps the documents in the store. *)
Lemma summary_processItem_returns (dryRun : bool) (s : Store) (totals : SB.BackfillStats)
    (item : SB.BackfillPageItem) :
  itemInStore s item ->
  exists s' totals',
    SB.processItem buildSkillSummaryBackfillPatch Date_now dryRun totals item s
    = (s', Returned totals') /\
    sameDocuments s s'.
Proof.
  intros Hgood.
  assert (Hquiet : forall totals',
             SB.processItem buildSkillSummaryBackfillPatch Date_now dryRun totals item s
             = (s, Returned totals') ->
             exists s' totals'',
               SB.processItem buildSkillSummaryBackfillPatch Date_now dryRun totals item s
               = (s', Returned totals'') /\ sameDocuments s s').
  { intros totals' Hrun. exists s, totals'. split; [assumption | now split]. }
  destruct (summaryPatchFor buildSkillSummaryBackfillPatch (storage s) item)
    as [patch|] eqn:Hpatch.
  2:{ eapply Hquiet. apply summary_processItem_settled. congruence. }
  destruct (patchIsEmpty patch) eqn:Hempty.
  { eapply Hquiet. apply summary_processItem_settled. congruence. }
  destruct dryRun; [eapply Hquiet; apply summary_processItem_dry|].
  destruct item as [skillId versionId skillSummary versionParsed readmeStorageId| | |];
    try discriminate Hpatch.
  destruct Hgood as [Hskill Hversion].
  destruct (lookup_In_key (H:=Document_Skill) skillId (skills s) Hskill) as (skill & Hs).
  destruct (lookup_In_key (H:=Document_SkillVersion) versionId (skillVersions s) Hversion)
    as (version & Hv).
  destruct (summary_processItem_real buildSkillSummaryBackfillPatch Date_now totals
              _ _ _ _ _ patch s Hpatch Hempty) as (now & Hrun).
  exists (summaryPatched now patch skillId versionId s). eexists. split.
  - rewrite Hrun. unfold bind, runMutation.
    rewrite (apply_summary_found now patch _ _ skill version s Hs Hv). reflexivity.
  - unfold sameDocuments, summaryPatched. cbn [skills skillVersions]. split.
    + apply (patchRow_ids (H:=Document_Skill)), patchSkill_id.
    + apply (patchRow_ids (H:=Document_SkillVersion)), patchVersion_id.
Qed.

(** A run of the summary job over any store returns or raises the
    incompleteness error, by the number of skills alone. *)
Lemma summary_run_completes (args : BackfillActionArgs) (s : Store) :
  if List.length (skills s) <=? maxBatchesOf args * batchSizeOf args
  then exists stats,
      snd (SB.backfillSkillSummariesInternalHandler
             buildSkillSummaryBackfillPatch Date_now args s)
      = Returned {| SB.ok := true; SB.stats := stats |}
  else snd (SB.backfillSkillSummariesInternalHandler
              buildSkillSummaryBackfillPatch Date_now args s)
       = Thrown incompleteError.
Proof.
  rewrite summary_handler_scan.
  destruct (scan_completes skillsTable (fun s skill => Some (summaryItemOf s skill))
              (SB.processItem buildSkillSummaryBackfillPatch Date_now
                              (Boolean (arg_dryRun args)))
              sameDocuments itemInStore)
    with (numItems := batchSizeOf args) (n := maxBatchesOf args) (cursor := @None nat)
         (isDone := false) (t := SB.zeroStats) (s := s)
    as (s' & cursor' & totals' & Hscan & _).
  - intros s0. now split.
  - intros s1 s2 s3 [Hs12 Hv12] [Hs23 Hv23]. split; congruence.
  - intros s0 s1 [Hskills _]. cbn [rows skillsTable].
    rewrite <- (length_map skill_id (skills s1)), Hskills. apply length_map.
  - intros s0 skill item Hin [= <-]. now apply summaryItemOf_inStore.
  - intros s0 s1 item [Hskills Hversions]. unfold itemInStore.
    destruct item; auto. now rewrite Hskills, Hversions.
  - intros s0 totals item. apply summary_processItem_returns.
  - rewrite Hscan. unfold summaryResult. rewrite maxBatches_nonzero.
    cbn [nullish skipn rows skillsTable snd].
    destruct (List.length (skills s) <=? maxBatchesOf args * batchSizeOf args);
      [eexists|]; reflexivity.
Qed.

Context {Inv : Store -> Prop} `{!SummaryInvariant Inv}.

(** A real run over a store with the invariant visits the reached skills,
    each once. *)
Lemma summary_run_real (args : BackfillActionArgs) (s : Store) :
  Boolean (arg_dryRun args) = false ->
  Inv s ->
  exists s',
    SB.backfillSkillSummariesInternalHandler buildSkillSummaryBackfillPatch Date_now args s
    = (s', summaryOutcome buildSkillSummaryBackfillPatch args s) /\
    Visited skillsTable summaryView summaryDecision Inv
            (summaryStep buildSkillSummaryBackfillPatch) (skillsReached args s) s s'.
Proof.
  intros Hdry Hwf. rewrite summary_handler_scan, Hdry.
  destruct (scan_visited skillsTable (fun s skill => Some (summaryItemOf s skill))
              (SB.processItem buildSkillSummaryBackfillPatch Date_now false)
              summaryView summaryDecision (summaryCount buildSkillSummaryBackfillPatch)
              Inv summary_wf_keys summary_classify_view
              (summary_count_skip buildSkillSummaryBackfillPatch)
              (summaryStep buildSkillSummaryBackfillPatch)
              (summary_process_visit buildSkillSummaryBackfillPatch Date_now)
              (batchSizeOf args) (maxBatchesOf args) None false SB.zeroStats s Hwf)
    as (s' & cursor' & Hscan & Hvis).
  exists s'. split; [|exact Hvis].
  rewrite Hscan. unfold summaryResult, summaryOutcome, skillsReached.
  rewrite maxBatches_nonzero. cbn [nullish skipn]. unfold keysOf.
  cbn [rows skillsTable]. rewrite length_map.
  destruct (List.length (skills s) <=? maxBatchesOf args * batchSizeOf args);
    reflexivity.
Qed.

(** A run that is dry, or that finds every skill settled, changes nothing
    and reports the same outcome. *)
Lemma summary_run_settled (args : BackfillActionArgs) (s : Store) :
  Inv s ->
  (Boolean (arg_dryRun args) = true \/
   forall k, In k (map skill_id (skills s)) ->
             summarySettled buildSkillSummaryBackfillPatch (summaryView s k)) ->
  SB.backfillSkillSummariesInternalHandler buildSkillSummaryBackfillPatch Date_now args s
  = (s, summaryOutcome buildSkillSummaryBackfillPatch args s).
Proof.
  intros Hwf Hcase. rewrite summary_handler_scan.
  destruct (scan_settled skillsTable (fun s skill => Some (summaryItemOf s skill))
              (SB.processItem buildSkillSummaryBackfillPatch Date_now
                              (Boolean (arg_dryRun args)))
              summaryView summaryDecision (summaryCount buildSkillSummaryBackfillPatch)
              Inv summary_classify_view
              (summary_count_skip buildSkillSummaryBackfillPatch)
              (fun v => Boolean (arg_dryRun args) = true \/
                        summarySettled buildSkillSummaryBackfillPatch v))
    with (numItems := batchSizeOf args) (n := maxBatchesOf args) (s := s)
         (cursor := @None nat) (isDone := false) (t := SB.zeroStats)
    as (cursor' & Hscan).
  - intros s0 k item t _ _ Hdec [Hdry|Hset]; unfold summaryCount; rewrite Hdec.
    + rewrite Hdry.
      replace (snd (summaryView s0 k)) with (storage s0) by reflexivity.
      apply summary_processItem_dry.
    + replace (snd (summaryView s0 k)) with (storage s0) by reflexivity.
      apply summary_processItem_settled. intros patch Hpatch.
      apply (Hset item patch Hdec). exact Hpatch.
  - assumption.
  - intros k Hk. destruct Hcase as [Hdry|Hall]; [now left | right; now apply Hall].
  - rewrite Hscan. unfold summaryResult, summaryOutcome, skillsReached.
    rewrite maxBatches_nonzero. cbn [nullish skipn]. unfold keysOf.
    cbn [rows skillsTable]. rewrite length_map.
    destruct (List.length (skills s) <=? maxBatchesOf args * batchSizeOf args);
      reflexivity.
Qed.

End SummaryRun.

(** ** Completion and failure of a run *)

Lemma reachesDone_count {D} (tbl : list D) (numItems n : nat) :
  forall cursor,
    reachesDone tbl numItems n cursor
    = (negb (n =? 0) && (List.length (skipn (nullish cursor 0) tbl) <=? n * numItems)).
Proof.
  induction n as [|n IH]; intros cursor; [reflexivity|].
  cbn [reachesDone]. unfold paginate. rewrite IH. cbn [nullish Nat.eqb negb andb].
  rewrite skipn_add. repeat rewrite length_skipn. rewrite length_firstn, length_skipn.
  replace (S n * numItems) with (numItems + n * numItems) by lia.
  destruct n; cbn [Nat.eqb negb andb Nat.mul Nat.add]; rewrite ?orb_false_r, ?Nat.add_0_r;
    [reflexivity|].
  set (m := n * numItems). ltb_cases.
Qed.

Lemma reachesDone_total {D} (tbl : list D) (args : BackfillActionArgs) :
  reachesDone tbl (batchSizeOf args) (maxBatchesOf args) None
  = (List.length tbl <=? maxBatchesOf args * batchSizeOf args).
Proof.
  rewrite reachesDone_count, maxBatches_nonzero. reflexivity.
Qed.

Section Completion.
Variable buildSkillSummaryBackfillPatch :
  string -> option string -> ParsedSkillData -> SB.SummaryPatch.
Variable hashSkillFiles : list FB.HashedFile -> string.
Variable Date_now : nat -> nat.

Lemma summary_run_outcome {Inv : Store -> Prop} `{!SummaryInvariant Inv}
    (args : BackfillActionArgs) (s : Store) :
  Inv s ->
  snd (SB.backfillSkillSummariesInternalHandler buildSkillSummaryBackfillPatch Date_now args s)
  = summaryOutcome buildSkillSummaryBackfillPatch args s.
Proof.
  intros HI. destruct (Boolean (arg_dryRun args)) eqn:Hdry.
  - now rewrite (summary_run_settled buildSkillSummaryBackfillPatch Date_now args s HI
                   (or_introl Hdry)).
  - destruct (summary_run_real buildSkillSummaryBackfillPatch Date_now args s Hdry HI)
      as (s' & Hrun & _). now rewrite Hrun.
Qed.

Lemma fingerprint_run_outcome {Inv : Store -> Prop} `{!FingerprintInvariant Inv}
    (args : BackfillActionArgs) (s : Store) :
  Inv s ->
  snd (FB.backfillSkillFingerprintsInternalHandler hashSkillFiles Date_now args s)
  = fingerprintOutcome hashSkillFiles args s.
Proof.
  intros HI. destruct (Boolean (arg_dryRun args)) eqn:Hdry.
  - now rewrite (fingerprint_run_settled hashSkillFiles Date_now args s HI (or_introl Hdry)).
  - destruct (fingerprint_run_real hashSkillFiles Date_now args s Hdry HI)
      as (s' & Hrun & _). now rewrite Hrun.
Qed.

(** C2.  Each orchestrator returns [{ ok: true, stats }] if the paginated
    scan sees [isDone] within [maxBatches] page fetches, and otherwise
    raises 'Backfill incomplete (maxBatches reached)' and returns no
    stats.  The scan sees [isDone] within [maxBatches] fetches exactly
    when the table holds at most [batchSize * maxBatches] documents.  For
    the summary job the store is any store; for the fingerprint job, any
    store with the integrity the database engine enforces (unique ids). *)
Theorem completion_contract (args : BackfillActionArgs) (s : Store) :
  (reachesDone (skills s) (batchSizeOf args) (maxBatchesOf args) None = true <->
   List.length (skills s) <= batchSizeOf args * maxBatchesOf args) /\
  (if reachesDone (skills s) (batchSizeOf args) (maxBatchesOf args) None
   then exists stats,
       snd (SB.backfillSkillSummariesInternalHandler
              buildSkillSummaryBackfillPatch Date_now args s)
       = Returned {| SB.ok := true; SB.stats := stats |}
   else snd (SB.backfillSkillSummariesInternalHandler
               buildSkillSummaryBackfillPatch Date_now args s)
        = Thrown "Backfill incomplete (maxBatches reached)") /\
  (reachesDone (skillVersions s) (batchSizeOf args) (maxBatchesOf args) None = true <->
   List.length (skillVersions s) <= batchSizeOf args * maxBatchesOf args) /\
  (ids_wf s ->
   if reachesDone (skillVersions s) (batchSizeOf args) (maxBatchesOf args) None
   then exists stats,
       snd (FB.backfillSkillFingerprintsInternalHandler hashSkillFiles Date_now args s)
       = Returned {| FB.ok := true; FB.stats := stats |}
   else snd (FB.backfillSkillFingerprintsInternalHandler hashSkillFiles Date_now args s)
        = Thrown "Backfill incomplete (maxBatches reached)").
Proof.
  rewrite !reachesDone_total. rewrite (Nat.mul_comm (batchSizeOf args)).
  split; [apply Nat.leb_le|]. split; [|split; [apply Nat.leb_le|]].
  - exact (summary_run_completes buildSkillSummaryBackfillPatch Date_now args s).
  - intros Hids. rewrite (fingerprint_run_outcome args s Hids). unfold fingerprintOutcome.
    destruct (List.length (skillVersions s) <=? _); [eexists|]; reflexivity.
Qed.

End Completion.

(** One skill and one version, a single batch of size 1: the only page is
    the last one, and both runs complete. *)
Lemma completion_contract_witness :
  (exists stats,
     snd (SB.backfillSkillSummariesInternalHandler sampleBuild sampleClock oneByOneArgs
            (sampleStore None []))
     = Returned {| SB.ok := true; SB.stats := stats |}) /\
  (exists stats,
     snd (FB.backfillSkillFingerprintsInternalHandler sampleHash sampleClock oneByOneArgs
            (sampleStore None []))
     = Returned {| FB.ok := true; FB.stats := stats |}).
Proof.
  pose proof (completion_contract sampleBuild sampleHash sampleClock oneByOneArgs
                (sampleStore None [])) as (_ & Hsummary & _ & Hfingerprint).
  split; [exact Hsummary|].
  exact (Hfingerprint (store_wf_ids _ (sampleStore_wf None))).
Defined.

(** ** Dry runs *)

Section DryRun.
Variable buildSkillSummaryBackfillPatch :
  string -> option string -> ParsedSkillData -> SB.SummaryPatch.
Variable hashSkillFiles : list FB.HashedFile -> string.

Lemma summary_dry_keeps_store (Date_now : nat -> nat) (args : BackfillActionArgs)
    (s : Store) :
  Boolean (arg_dryRun args) = true ->
  fst (SB.backfillSkillSummariesInternalHandler
         buildSkillSummaryBackfillPatch Date_now args s) = s.
Proof.
  intros Hdry. rewrite summary_handler_scan, Hdry.
  destruct (scan_keeps_store skillsTable (fun s skill => Some (summaryItemOf s skill))
              (SB.processItem buildSkillSummaryBackfillPatch Date_now true))
    with (numItems := batchSizeOf args) (n := maxBatchesOf args) (cursor := @None nat)
         (isDone := false) (t := SB.zeroStats) (s := s) as ([[cursor isDone] totals] & Hscan).
  - intros t item s0. eexists. apply summary_processItem_dry.
  - rewrite Hscan. simpl. now destruct isDone.
Qed.

Lemma fingerprint_dry_keeps_store (Date_now : nat -> nat) (args : BackfillActionArgs)
    (s : Store) :
  Boolean (arg_dryRun args) = true ->
  fst (FB.backfillSkillFingerprintsInternalHandler hashSkillFiles Date_now args s) = s.
Proof.
  intros Hdry. rewrite fingerprint_handler_scan, Hdry.
  destruct (scan_keeps_store skillVersionsTable fingerprintItemOf
              (FB.processItem hashSkillFiles Date_now true))
    with (numItems := batchSizeOf args) (n := maxBatchesOf args) (cursor := @None nat)
         (isDone := false) (t := FB.zeroStats) (s := s) as ([[cursor isDone] totals] & Hscan).
  - intros t item s0. eexists. apply processItem_dry.
  - rewrite Hscan. simpl. now destruct isDone.
Qed.

(** C3 as stated fails on a store in which two skills name the same
    latest version.  With pages of one skill, the dry run sees the
    version's parsed metadata missing at both skills and reports
    [versionsPatched = 2]; the real run that follows writes the metadata
    at the first skill, finds it in place at the second, and reports
    [versionsPatched = 1]. *)
Lemma dry_run_counts_shared_version_twice :
  ids_wf sharedVersionStore /\
  SB.backfillSkillSummariesInternalHandler fillBuild sampleClock (onePerPage true)
    sharedVersionStore
  = (sharedVersionStore,
     Returned {| SB.ok := true;
                 SB.stats := {| SB.skillsScanned := 2; SB.skillsPatched := 2;
                                SB.versionsPatched := 2; SB.missingLatestVersion := 0;
                                SB.missingReadme := 0; SB.missingStorageBlob := 0 |} |}) /\
  snd (SB.backfillSkillSummariesInternalHandler fillBuild sampleClock (onePerPage false)
         sharedVersionStore)
  = Returned {| SB.ok := true;
                SB.stats := {| SB.skillsScanned := 2; SB.skillsPatched := 2;
                               SB.versionsPatched := 1; SB.missingLatestVersion := 0;
                               SB.missingReadme := 0; SB.missingStorageBlob := 0 |} |}.
Proof.
  split; [|split; vm_compute; reflexivity].
  repeat split; repeat constructor; simpl; intuition lia.
Qed.

(** C3, amended.  A run of either job with [dryRun = true] ends in the
    store it started in, whatever the store.  What it returns (the stats,
    or the incompleteness error) is what a run with [dryRun = false] and
    the same batch arguments returns when it is started afterwards, in
    the store the dry run left: for the fingerprint job on every store
    with the integrity the engine enforces, for the summary job on every
    such store in which no version is the latest version of two
    skills. *)
Theorem dry_run_invariance (Date_now Date_now' : nat -> nat) (args : BackfillActionArgs)
    (s : Store) :
  Boolean (arg_dryRun args) = true ->
  let real := {| arg_dryRun := Some false;
                 batchSize := batchSize args; maxBatches := maxBatches args |} in
  let afterSummaryDry :=
    fst (SB.backfillSkillSummariesInternalHandler
           buildSkillSummaryBackfillPatch Date_now args s) in
  let afterFingerprintDry :=
    fst (FB.backfillSkillFingerprintsInternalHandler hashSkillFiles Date_now args s) in
  afterSummaryDry = s /\
  afterFingerprintDry = s /\
  (ids_wf s ->
   (latest_unshared s ->
    snd (SB.backfillSkillSummariesInternalHandler
           buildSkillSummaryBackfillPatch Date_now args s)
    = snd (SB.backfillSkillSummariesInternalHandler
             buildSkillSummaryBackfillPatch Date_now' real afterSummaryDry)) /\
   snd (FB.backfillSkillFingerprintsInternalHandler hashSkillFiles Date_now args s)
   = snd (FB.backfillSkillFingerprintsInternalHandler
            hashSkillFiles Date_now' real afterFingerprintDry)).
Proof.
  intros Hdry real afterSummaryDry afterFingerprintDry.
  assert (H1 : afterSummaryDry = s) by now apply summary_dry_keeps_store.
  assert (H2 : afterFingerprintDry = s) by now apply fingerprint_dry_keeps_store.
  split; [assumption|]. split; [assumption|].
  intros Hids. rewrite H1, H2. split.
  - intros Hone.
    assert (Hwf : latest_wf s) by now split.
    now rewrite (summary_run_outcome _ Date_now args s Hwf),
                (summary_run_outcome _ Date_now' real s Hwf).
  - now rewrite (fingerprint_run_outcome _ Date_now args s Hids),
                (fingerprint_run_outcome _ Date_now' real s Hids).
Qed.

End DryRun.

(** A dry run and the real run after it, on the sample store. *)
Lemma dry_run_invariance_witness :
  snd (SB.backfillSkillSummariesInternalHandler sampleBuild sampleClock
         {| arg_dryRun := Some true; batchSize := None; maxBatches := None |}
         (sampleStore None []))
  = snd (SB.backfillSkillSummariesInternalHandler sampleBuild sampleClock
           {| arg_dryRun := Some false; batchSize := None; maxBatches := None |}
           (sampleStore None [])).
Proof.
  exact (proj1 (proj2 (proj2 (dry_run_invariance sampleBuild sampleHash sampleClock sampleClock
                                {| arg_dryRun := Some true; batchSize := None;
                                   maxBatches := None |}
                                (sampleStore None []) eq_refl))
                      (store_wf_ids _ (sampleStore_wf None)))
               (store_wf_unshared _ (sampleStore_wf None))).
Defined.

(** ** Skills without a usable latest version *)

Section MissingVersion.
Variable buildSkillSummaryBackfillPatch :
  string -> option string -> ParsedSkillData -> SB.SummaryPatch.
Variable Date_now : nat -> nat.

Lemma firstn_single {A} (n : nat) (x : A) : 1 <= n -> firstn n [x] = [x].
Proof. destruct n; [lia|]. intros _. simpl. now rewrite firstn_nil. Qed.

(** C6.  The orchestrator treats an item of kind [missingVersionDoc] as it
    treats one of kind [missingLatestVersion]: the store is left alone and
    [skillsScanned] and [missingLatestVersion] go up by one.  Over a store
    whose only skill has no [latestVersionId], a pass completes, ends in
    the same store and returns [skillsScanned = 1],
    [missingLatestVersion = 1] and [skillsPatched = 0] (all other
    counters 0), whatever the batch arguments. *)
Theorem missing_version_counts (args : BackfillActionArgs) (s : Store) (skill : Skill) :
  skills s = [skill] ->
  skill_latestVersionId skill = None ->
  (forall dryRun totals skillId versionId s0,
     SB.processItem buildSkillSummaryBackfillPatch Date_now dryRun totals
       (SB.kind_missingVersionDoc skillId versionId) s0
     = SB.processItem buildSkillSummaryBackfillPatch Date_now dryRun totals
         (SB.kind_missingLatestVersion skillId) s0 /\
     SB.processItem buildSkillSummaryBackfillPatch Date_now dryRun totals
       (SB.kind_missingVersionDoc skillId versionId) s0
     = (s0, Returned
              {| SB.skillsScanned := S (SB.skillsScanned totals);
                 SB.skillsPatched := SB.skillsPatched totals;
                 SB.versionsPatched := SB.versionsPatched totals;
                 SB.missingLatestVersion := S (SB.missingLatestVersion totals);
                 SB.missingReadme := SB.missingReadme totals;
                 SB.missingStorageBlob := SB.missingStorageBlob totals |})) /\
  SB.backfillSkillSummariesInternalHandler buildSkillSummaryBackfillPatch Date_now args s
  = (s,
     Returned
       {| SB.ok := true;
          SB.stats := {| SB.skillsScanned := 1; SB.skillsPatched := 0;
                         SB.versionsPatched := 0; SB.missingLatestVersion := 1;
                         SB.missingReadme := 0; SB.missingStorageBlob := 0 |} |}).
Proof.
  intros Hskills Hlatest. split; [intros; split; reflexivity|].
  rewrite summary_handler_scan.
  pose proof (batchSizeOf_bounds args) as Hbs.
  pose proof (maxBatchesOf_bounds args) as Hmb.
  destruct (maxBatchesOf args) as [|n]; [lia|].
  set (process := SB.processItem buildSkillSummaryBackfillPatch Date_now
                                 (Boolean (arg_dryRun args))).
  assert (Hitem : summaryItemOf s skill = SB.kind_missingLatestVersion (skill_id skill)).
  { unfold summaryItemOf, summaryItemFor. now rewrite Hlatest. }
  cbn [scan]. unfold paginate. cbn [rows skillsTable nullish skipn]. rewrite Hskills.
  rewrite firstn_single by lia. cbn [keep flat_map app List.length Nat.add].
  rewrite Hitem. cbn [forOf]. unfold bind at 1.
  change (process SB.zeroStats (SB.kind_missingLatestVersion (skill_id skill)) s)
    with (s, Returned (SB.bump_missingLatestVersion (SB.bump_skillsScanned SB.zeroStats))).
  unfold ret at 1.
  destruct (Nat.leb_spec 1 (batchSizeOf args)) as [_|Hnone]; [reflexivity | lia].
Qed.

End MissingVersion.

(** The scenario of section 8: one skill without a latest version, default
    batch arguments. *)
Lemma missing_version_counts_witness :
  SB.backfillSkillSummariesInternalHandler sampleBuild sampleClock defaultArgs orphanSkillStore
  = (orphanSkillStore,
     Returned
       {| SB.ok := true;
          SB.stats := {| SB.skillsScanned := 1; SB.skillsPatched := 0;
                         SB.versionsPatched := 0; SB.missingLatestVersion := 1;
                         SB.missingReadme := 0; SB.missingStorageBlob := 0 |} |}).
Proof.
  exact (proj2 (missing_version_counts sampleBuild sampleClock defaultArgs orphanSkillStore
                  _ eq_refl eq_refl)).
Defined.

(** ** Running a job again *)


Section Rerun.
Variable buildSkillSummaryBackfillPatch :
  string -> option string -> ParsedSkillData -> SB.SummaryPatch.
Variable hashSkillFiles : list FB.HashedFile -> string.

(** *** Fingerprints *)



(** *** Summaries *)



End Rerun.


(* ================================================================= *)
(** ** More on [clampInt] and on the arguments of a run *)

Lemma Qtrunc_monotone (p q : Q) : (p <= q)%Q -> (Qtrunc p <= Qtrunc q)%Z.
Proof.
  unfold Qle, Qtrunc. intros Hpq.
  rewrite <- (Z.quot_mul_cancel_r (Qnum p) (Zpos (Qden p)) (Zpos (Qden q))) by lia.
  rewrite <- (Z.quot_mul_cancel_r (Qnum q) (Zpos (Qden q)) (Zpos (Qden p))) by lia.
  rewrite (Z.mul_comm (Zpos (Qden q)) (Zpos (Qden p))).
  apply Z.quot_le_mono; lia.
Qed.

Lemma clampInt_finite (q : Q) (a b : Z) :
  clampInt (Fin q) (of_Z a) (of_Z b) = of_Z (Z.min b (Z.max a (Qtrunc q))).
Proof.
  unfold clampInt. cbn [Math_trunc isFinite of_Z negb].
  change (Fin (inject_Z (Qtrunc q))) with (of_Z (Qtrunc q)).
  change (Fin (inject_Z a)) with (of_Z a). change (Fin (inject_Z b)) with (of_Z b).
  now rewrite Math_max_of_Z, Math_min_of_Z.
Qed.

Lemma leb_of_Z (a b : Z) : JS.leb (of_Z a) (of_Z b) = (a <=? b)%Z.
Proof.
  unfold JS.leb, of_Z. rewrite inject_Z_compare. unfold Z.leb.
  now destruct (a ?= b)%Z.
Qed.

(** X1.  With integer bounds [a <= b], [clampInt] returns an integer of
    the range [a..b] whatever number it is given, and clamping its result
    again changes nothing. *)
Theorem clampInt_integer_idempotent (x : number) (a b : Z) (Hab : (a <= b)%Z) :
  (exists z, (a <= z <= b)%Z /\ clampInt x (of_Z a) (of_Z b) = of_Z z) /\
  clampInt (clampInt x (of_Z a) (of_Z b)) (of_Z a) (of_Z b)
  = clampInt x (of_Z a) (of_Z b).
Proof.
  split.
  - exact (clampInt_integer x a b Hab).
  - exact (clampInt_twice x a b Hab).
Qed.

Lemma clampInt_integer_idempotent_witness :
  (exists z, (1 <= z <= 200)%Z /\ clampInt (Fin (-7 # 2)) (of_Z 1) (of_Z 200) = of_Z z) /\
  clampInt (clampInt (Fin (-7 # 2)) (of_Z 1) (of_Z 200)) (of_Z 1) (of_Z 200)
  = clampInt (Fin (-7 # 2)) (of_Z 1) (of_Z 200).
Proof.
  apply (clampInt_integer_idempotent (Fin (-7 # 2)) 1 200). lia.
Defined.

(** X2.  Between integer bounds, [clampInt] is monotone on finite numbers:
    a larger request never yields a smaller clamped value. *)
Theorem clampInt_monotone (p q : Q) (a b : Z) (Hpq : (p <= q)%Q) :
  JS.leb (clampInt (Fin p) (of_Z a) (of_Z b)) (clampInt (Fin q) (of_Z a) (of_Z b)) = true.
Proof.
  rewrite !clampInt_finite, leb_of_Z.
  apply Qtrunc_monotone in Hpq. apply Z.leb_le. lia.
Qed.

Lemma clampInt_monotone_witness :
  JS.leb (clampInt (Fin (7 # 2)) (of_Z 1) (of_Z 200))
         (clampInt (Fin (1001 # 4)) (of_Z 1) (of_Z 200)) = true.
Proof.
  apply (clampInt_monotone (7 # 2) (1001 # 4) 1 200). unfold Qle. simpl. lia.
Defined.

Section RunArguments.
Variable buildSkillSummaryBackfillPatch :
  string -> option string -> ParsedSkillData -> SB.SummaryPatch.
Variable hashSkillFiles : list FB.HashedFile -> string.
Variable Date_now : nat -> nat.

(** X3.  A run of either job depends on its arguments only through
    [Boolean(dryRun)] and the two clamped numbers: arguments that agree on
    these give the same final store and the same result or error.  So a
    [batchSize] of NaN or of 0.9 runs as 1, and anything above 200 runs as
    200. *)
Theorem runs_depend_on_clamped_args (args args' : BackfillActionArgs) (s : Store) :
  Boolean (arg_dryRun args) = Boolean (arg_dryRun args') ->
  batchSizeOf args = batchSizeOf args' ->
  maxBatchesOf args = maxBatchesOf args' ->
  SB.backfillSkillSummariesInternalHandler buildSkillSummaryBackfillPatch Date_now args s
  = SB.backfillSkillSummariesInternalHandler buildSkillSummaryBackfillPatch Date_now args' s /\
  FB.backfillSkillFingerprintsInternalHandler hashSkillFiles Date_now args s
  = FB.backfillSkillFingerprintsInternalHandler hashSkillFiles Date_now args' s.
Proof.
  intros HdryRun Hsize Hbatches.
  rewrite !summary_handler_scan, !fingerprint_handler_scan.
  rewrite HdryRun, Hsize, Hbatches. split; reflexivity.
Qed.

Lemma scheduled_args_are_defaults (dryRun : option bool) :
  let queued := {| arg_dryRun := Some (Boolean dryRun);
                   batchSize := Some DEFAULT_BATCH_SIZE;
                   maxBatches := Some DEFAULT_MAX_BATCHES |} in
  let direct := {| arg_dryRun := dryRun; batchSize := None; maxBatches := None |} in
  Boolean (arg_dryRun queued) = Boolean (arg_dryRun direct) /\
  batchSizeOf queued = batchSizeOf direct /\
  maxBatchesOf queued = maxBatchesOf direct.
Proof. repeat split. Qed.

Section Scheduling.
Variable User : Type.
Variable requireUserFromAction : Action User.
Variable assertRole : User -> list string -> Outcome unit.

(** X4.  Once the two access checks pass, each scheduling entry point
    queues exactly one call of its internal action, at delay 0, and
    returns at once; the queued arguments make the scheduled job run
    exactly as the job run directly with the same [dryRun] and no batch
    arguments. *)
Theorem scheduled_run_is_default_run (dryRun : option bool) (c c1 : ActionCtx)
    (user : User) :
  requireUserFromAction c = (c1, Returned user) ->
  assertRole user ["admin"] = Returned tt ->
  let direct := {| arg_dryRun := dryRun; batchSize := None; maxBatches := None |} in
  (exists call,
     scheduleBackfillSkillSummaries User requireUserFromAction assertRole dryRun c
     = ({| ctx_store := ctx_store c1; ctx_scheduled := ctx_scheduled c1 ++ [call] |},
        Returned true) /\
     call_delayMs call = 0 /\
     call_function call = backfillSkillSummariesInternal /\
     forall s,
       SB.backfillSkillSummariesInternalHandler buildSkillSummaryBackfillPatch Date_now
         (call_args call) s
       = SB.backfillSkillSummariesInternalHandler buildSkillSummaryBackfillPatch Date_now
           direct s) /\
  (exists call,
     scheduleBackfillSkillFingerprints User requireUserFromAction assertRole dryRun c
     = ({| ctx_store := ctx_store c1; ctx_scheduled := ctx_scheduled c1 ++ [call] |},
        Returned true) /\
     call_delayMs call = 0 /\
     call_function call = backfillSkillFingerprintsInternal /\
     forall s,
       FB.backfillSkillFingerprintsInternalHandler hashSkillFiles Date_now (call_args call) s
       = FB.backfillSkillFingerprintsInternalHandler hashSkillFiles Date_now direct s).
Proof.
  intros Huser Hrole direct.
  destruct (scheduled_args_are_defaults dryRun) as (HdryRun & Hsize & Hbatches).
  split; eexists; (split; [|split; [|split]]).
  - unfold scheduleBackfillSkillSummaries, andThen. rewrite Huser, Hrole. reflexivity.
  - reflexivity.
  - reflexivity.
  - intro s. cbn [call_args].
    rewrite !summary_handler_scan. now rewrite HdryRun, Hsize, Hbatches.
  - unfold scheduleBackfillSkillFingerprints, andThen. rewrite Huser, Hrole. reflexivity.
  - reflexivity.
  - reflexivity.
  - intro s. cbn [call_args].
    rewrite !fingerprint_handler_scan. now rewrite HdryRun, Hsize, Hbatches.
Qed.

End Scheduling.

End RunArguments.

Lemma runs_depend_on_clamped_args_witness :
  SB.backfillSkillSummariesInternalHandler sampleBuild sampleClock unclampedArgs
    (sampleStore None [])
  = SB.backfillSkillSummariesInternalHandler sampleBuild sampleClock oneByOneArgs
      (sampleStore None []) /\
  FB.backfillSkillFingerprintsInternalHandler sampleHash sampleClock unclampedArgs
    (sampleStore None [])
  = FB.backfillSkillFingerprintsInternalHandler sampleHash sampleClock oneByOneArgs
      (sampleStore None []).
Proof.
  apply (runs_depend_on_clamped_args sampleBuild sampleHash sampleClock
           unclampedArgs oneByOneArgs (sampleStore None [])); reflexivity.
Defined.

Lemma scheduled_run_is_default_run_witness :
  exists call,
    scheduleBackfillSkillFingerprints unit sampleRequireUser sampleAssertRole (Some true)
      {| ctx_store := sampleStore None []; ctx_scheduled := [] |}
    = ({| ctx_store := sampleStore None []; ctx_scheduled := [call] |}, Returned true) /\
    call_delayMs call = 0 /\
    call_function call = backfillSkillFingerprintsInternal /\
    forall s,
      FB.backfillSkillFingerprintsInternalHandler sampleHash sampleClock (call_args call) s
      = FB.backfillSkillFingerprintsInternalHandler sampleHash sampleClock
          {| arg_dryRun := Some true; batchSize := None; maxBatches := None |} s.
Proof.
  exact (proj2 (scheduled_run_is_default_run sampleBuild sampleHash sampleClock
                  unit sampleRequireUser sampleAssertRole (Some true)
                  {| ctx_store := sampleStore None []; ctx_scheduled := [] |}
                  {| ctx_store := sampleStore None []; ctx_scheduled := [] |}
                  tt eq_refl eq_refl)).
Defined.

(* ================================================================= *)
(** ** The size of a page *)





(* ================================================================= *)
(** ** The appliers as transactions *)

(** X6.  Run as a mutation, the summary applier is all or nothing.  It
    throws, and leaves the store exactly as it was, when a summary is
    given for a skill that does not exist or parsed metadata for a version
    that does not exist (also when the skill had been patched before the
    version turned out missing); otherwise it returns [ok] with the
    summary and [updatedAt] of that skill and the [parsed] of that version
    written, and nothing else changed.  An id whose field is not given
    is not looked at. *)
Theorem summary_applier_all_or_nothing (now : nat) (args : SB.PatchArgs) (s : Store) :
  runMutation (SB.applySkillBackfillPatchInternal now args) s =
  if (defined (SB.arg_summary args) &&
      negb (defined (lookup (SB.arg_skillId args) (skills s)))) ||
     (defined (SB.arg_parsed args) &&
      negb (defined (lookup (SB.arg_versionId args) (skillVersions s))))
  then (s, Thrown "Update on nonexistent document")
  else (summaryPatched now
          {| SB.patch_summary := SB.arg_summary args;
             SB.patch_parsed := SB.arg_parsed args |}
          (SB.arg_skillId args) (SB.arg_versionId args) s,
        Returned true).
Proof.
  destruct args as [skillId versionId summary parsed].
  cbn [SB.arg_skillId SB.arg_versionId SB.arg_summary SB.arg_parsed].
  unfold runMutation, SB.applySkillBackfillPatchInternal, summaryPatched.
  cbn [SB.arg_skillId SB.arg_versionId SB.arg_summary SB.arg_parsed].
  unfold patchSkill, patchVersion. cbn [SB.patch_summary SB.patch_parsed].
  destruct summary as [summary|], parsed as [parsed|];
    unfold bind, db_patch, ret;
    cbn [rows skillsTable skillVersionsTable with_rows skills skillVersions defined
         andb orb negb];
    destruct (lookup skillId (skills s)) as [skill|] eqn:Hskill;
    cbn [rows skillsTable skillVersionsTable with_rows skills skillVersions defined
         andb orb negb];
    try reflexivity;
    destruct (lookup versionId (skillVersions s)) as [version|] eqn:Hversion;
    cbn [rows skillsTable skillVersionsTable with_rows skills skillVersions defined
         skillVersionFingerprints storage nextId andb orb negb];
    rewrite ?(patchRow_identity (H:=Document_Skill) skillId (fun skill => skill))
      by reflexivity;
    rewrite ?(patchRow_identity (H:=Document_SkillVersion) versionId (fun version => version))
      by reflexivity;
    try reflexivity; destruct s; reflexivity.
Qed.

Section StaleItem.
Variable hashSkillFiles : list FB.HashedFile -> string.
Variable Date_now : nat -> nat.

(** X7.  An item that lists an entry which is no longer in the store
    aborts a real run: when the item's entries are not correct, so that
    they are to be replaced, and its version exists, the applier's delete
    throws, the transaction keeps none of its writes (the version patch
    included), and the error leaves the item loop with the items after it
    unprocessed.  A missing version, by contrast, is skipped silently. *)
Theorem stale_entry_aborts_item (totals : FB.FingerprintBackfillStats)
    (item : FB.FingerprintBackfillPageItem) (version : SkillVersion)
    (rest : list FB.FingerprintBackfillPageItem) (s : Store) :
  lookup (FB.versionId item) (skillVersions s) = Some version ->
  entryIsCorrect hashSkillFiles item = false ->
  (exists i, In i (map FB.entryId (FB.existingEntries item)) /\
             ~ In i (map entry_id (skillVersionFingerprints s))) ->
  FB.processItem hashSkillFiles Date_now false totals item s
  = (s, Thrown "Delete on nonexistent document") /\
  forOf (item :: rest) totals (FB.processItem hashSkillFiles Date_now false) s
  = (s, Thrown "Delete on nonexistent document").
Proof.
  intros Hfound Hentries Hstale.
  assert (Hitem : FB.processItem hashSkillFiles Date_now false totals item s
                  = (s, Thrown "Delete on nonexistent document")).
  { rewrite processItem_real by (rewrite Hentries; reflexivity).
    unfold bind at 1. rewrite (apply_stale _ _ version); try assumption.
    - reflexivity.
    - cbn [fingerprintPatchArgs FB.arg_replaceEntries]. now rewrite Hentries.
    - cbn [fingerprintPatchArgs FB.arg_existingEntryIds nullish]. now rewrite Hentries. }
  split; [assumption|].
  cbn [forOf]. unfold bind at 1. now rewrite Hitem.
Qed.

End StaleItem.

Lemma stale_entry_aborts_item_witness :
  FB.processItem sampleHash sampleClock false FB.zeroStats staleItem (sampleStore None [])
  = (sampleStore None [], Thrown "Delete on nonexistent document") /\
  forOf [staleItem] FB.zeroStats (FB.processItem sampleHash sampleClock false)
        (sampleStore None [])
  = (sampleStore None [], Thrown "Delete on nonexistent document").
Proof.
  apply (stale_entry_aborts_item sampleHash sampleClock FB.zeroStats staleItem
           (sampleVersion None) [] (sampleStore None [])).
  - reflexivity.
  - reflexivity.
  - exists 7. split; [left; reflexivity | intros []].
Defined.

(* ================================================================= *)
(** ** What the jobs never write *)

Section Keeps.
Variable R : Store -> Store -> Prop.
Hypothesis R_refl : forall s, R s s.
Hypothesis R_trans : forall s1 s2 s3, R s1 s2 -> R s2 s3 -> R s1 s3.

Lemma keeps_read {A} (f : Store -> A) : keeps R (fun s => (s, Returned (f s))).
Proof. intro s. apply R_refl. Qed.

Lemma keeps_ret {A} (a : A) : keeps R (ret a).
Proof. intro s. apply R_refl. Qed.

Lemma keeps_throw {A} (e : string) : keeps R (@throw A e).
Proof. intro s. apply R_refl. Qed.

Lemma keeps_bind {A B} (m : M A) (k : A -> M B) :
  keeps R m -> (forall a, keeps R (k a)) -> keeps R (bind m k).
Proof.
  intros Hm Hk s. unfold bind. specialize (Hm s).
  destruct (m s) as [s1 [a|e]]; cbn [fst] in *.
  - eapply R_trans; [exact Hm | apply Hk].
  - exact Hm.
Qed.

Lemma keeps_forOf {A S} (body : S -> A -> M S) :
  (forall acc x, keeps R (body acc x)) ->
  forall xs acc, keeps R (forOf xs acc body).
Proof.
  intros Hbody xs. induction xs as [|x xs IH]; intros acc; cbn [forOf].
  - apply keeps_ret.
  - apply keeps_bind; [apply Hbody | intro acc'; apply IH].
Qed.

Lemma keeps_forBatches {S} (body : S -> M (S * bool)) :
  (forall st, keeps R (body st)) ->
  forall n st, keeps R (forBatches n st body).
Proof.
  intros Hbody n. induction n as [|n IH]; intros st; cbn [forBatches].
  - apply keeps_ret.
  - apply keeps_bind; [apply Hbody|]. intros [st' stop]. cbn [fst snd].
    destruct stop; [apply keeps_ret | apply IH].
Qed.

Lemma keeps_runMutation {A} (m : M A) : keeps R m -> keeps R (runMutation m).
Proof.
  intros Hm s. unfold runMutation. specialize (Hm s).
  destruct (m s) as [s1 [a|e]]; cbn [fst] in *; [exact Hm | apply R_refl].
Qed.

End Keeps.

Lemma patchRow_apart {D B} `{Document D} (f : D -> B) (id : Id) (upd : D -> D)
    (tbl : list D) :
  (forall d, f (upd d) = f d) -> map f (patchRow id upd tbl) = map f tbl.
Proof.
  intros Hupd. unfold patchRow. rewrite map_map. apply map_ext.
  intros d. destruct (_id d =? id); [apply Hupd | reflexivity].
Qed.

Lemma summaryFrame_refl (s : Store) : summaryFrame s s.
Proof. repeat split. Qed.

Lemma summaryFrame_trans (s1 s2 s3 : Store) :
  summaryFrame s1 s2 -> summaryFrame s2 s3 -> summaryFrame s1 s3.
Proof.
  intros (Ha & Hb & Hc & Hd & He) (Ha' & Hb' & Hc' & Hd' & He').
  repeat split; congruence.
Qed.

Lemma fingerprintFrame_refl (s : Store) : fingerprintFrame s s.
Proof. repeat split; auto. Qed.

Lemma fingerprintFrame_trans (s1 s2 s3 : Store) :
  fingerprintFrame s1 s2 -> fingerprintFrame s2 s3 -> fingerprintFrame s1 s3.
Proof.
  intros (Ha & Hb & Hc & Hd & He) (Ha' & Hb' & Hc' & Hd' & He').
  split; [congruence|]. split; [congruence|]. split; [congruence|].
  split; [lia|]. intros e Hin.
  destruct (He' e Hin) as [Hin2|Hfresh]; [|right; lia].
  destruct (He e Hin2) as [Hin1|Hfresh]; [now left | now right].
Qed.

Section SummaryFrame.
Variable buildSkillSummaryBackfillPatch :
  string -> option string -> ParsedSkillData -> SB.SummaryPatch.
Variable Date_now : nat -> nat.

Let keeps_then {A B} := @keeps_bind summaryFrame summaryFrame_trans A B.

Lemma summary_applier_keeps (now : nat) (args : SB.PatchArgs) :
  keeps summaryFrame (SB.applySkillBackfillPatchInternal now args).
Proof.
  unfold SB.applySkillBackfillPatchInternal.
  apply keeps_then; [|intros _; apply keeps_then; [|intros _; apply keeps_ret, summaryFrame_refl]].
  - destruct (SB.arg_summary args) as [summary|]; [|apply keeps_ret, summaryFrame_refl].
    intro s. unfold db_patch. cbn [rows skillsTable].
    destruct (lookup _ _); cbn [fst]; [|apply summaryFrame_refl].
    unfold summaryFrame. cbn [with_rows skillsTable skills skillVersions
                              skillVersionFingerprints storage nextId].
    repeat split. now apply (patchRow_apart (H:=Document_Skill)).
  - destruct (SB.arg_parsed args) as [parsed|]; [|apply keeps_ret, summaryFrame_refl].
    intro s. unfold db_patch. cbn [rows skillVersionsTable].
    destruct (lookup _ _); cbn [fst]; [|apply summaryFrame_refl].
    unfold summaryFrame. cbn [with_rows skillVersionsTable skills skillVersions
                              skillVersionFingerprints storage nextId].
    repeat split. now apply (patchRow_apart (H:=Document_SkillVersion)).
Qed.

Lemma summary_processItem_keeps (dryRun : bool) (totals : SB.BackfillStats)
    (item : SB.BackfillPageItem) :
  keeps summaryFrame (SB.processItem buildSkillSummaryBackfillPatch Date_now dryRun totals item).
Proof.
  unfold SB.processItem.
  destruct item as [skillId versionId skillSummary versionParsed readmeStorageId| | |];
    try (apply keeps_ret, summaryFrame_refl).
  apply keeps_then; [apply keeps_read, summaryFrame_refl|].
  intros [readmeText|]; [|apply keeps_ret, summaryFrame_refl].
  cbv zeta.
  destruct (negb _ && negb _); [apply keeps_ret, summaryFrame_refl|].
  destruct dryRun; [apply keeps_ret, summaryFrame_refl|].
  apply keeps_then; [|intros _; apply keeps_ret, summaryFrame_refl].
  apply keeps_runMutation; [apply summaryFrame_refl | apply summary_applier_keeps].
Qed.

Lemma summary_handler_keeps (args : BackfillActionArgs) :
  keeps summaryFrame
        (SB.backfillSkillSummariesInternalHandler buildSkillSummaryBackfillPatch Date_now args).
Proof.
  unfold SB.backfillSkillSummariesInternalHandler. cbv zeta.
  apply keeps_then.
  - apply keeps_forBatches; [apply summaryFrame_refl | apply summaryFrame_trans |].
    intros st. unfold SB.batchBody, runQuery.
    apply keeps_then.
    + intro s. rewrite getSkillBackfillPageInternal_eval.
      destruct (paginate _ _ _) as [[page done] continueCursor]. apply summaryFrame_refl.
    + intros page. apply keeps_then; [|intros totals; apply keeps_ret, summaryFrame_refl].
      apply keeps_forOf; [apply summaryFrame_refl | apply summaryFrame_trans |].
      intros totals item. apply summary_processItem_keeps.
  - intros st. destruct (negb _); [apply keeps_throw | apply keeps_ret]; apply summaryFrame_refl.
Qed.

(** X8.  Whatever the store and the arguments, and whether the run
    returns or throws, the summary job writes nothing but the [summary]
    and [updatedAt] of skills and the [parsed] of versions: both tables
    hold the same documents in the same order up to these fields (no
    skill or version is added, removed, re-identified or re-linked, and
    no file list or stored fingerprint changes), and the fingerprint
    entries, the stored blobs and the id counter are untouched. *)
Theorem summary_run_frame (args : BackfillActionArgs) (s : Store) :
  summaryFrame s
    (fst (SB.backfillSkillSummariesInternalHandler
            buildSkillSummaryBackfillPatch Date_now args s)).
Proof. apply summary_handler_keeps. Qed.

End SummaryFrame.

Section FingerprintFrame.
Variable hashSkillFiles : list FB.HashedFile -> string.
Variable Date_now : nat -> nat.

Let keeps_then {A B} := @keeps_bind fingerprintFrame fingerprintFrame_trans A B.

Lemma delete_keeps (id : Id) : keeps fingerprintFrame (db_delete fingerprintsTable id).
Proof.
  intro s. unfold db_delete. cbn [rows fingerprintsTable].
  destruct (lookup _ _); cbn [fst]; [|apply fingerprintFrame_refl].
  unfold fingerprintFrame. cbn [with_rows fingerprintsTable skills skillVersions
                                skillVersionFingerprints storage nextId].
  repeat split; auto. intros e Hin. left.
  unfold deleteRow in Hin. now apply filter_In in Hin.
Qed.

Lemma insert_keeps (skillId versionId : Id) (fingerprint : string) (createdAt : nat) :
  keeps fingerprintFrame (db_insert_fingerprint skillId versionId fingerprint createdAt).
Proof.
  intro s. unfold db_insert_fingerprint, fingerprintFrame.
  cbn [fst skills skillVersions skillVersionFingerprints storage nextId].
  repeat split; auto. intros e Hin.
  apply in_app_or in Hin as [Hin|[<-|[]]]; [now left | right; cbn [entry_id]; lia].
Qed.

Lemma fingerprint_applier_keeps (now : nat) (args : FB.PatchArgs) :
  keeps fingerprintFrame (FB.applySkillFingerprintBackfillPatchInternal now args).
Proof.
  unfold FB.applySkillFingerprintBackfillPatchInternal.
  apply keeps_then; [apply keeps_read, fingerprintFrame_refl|].
  intros [version|]; [|apply keeps_ret, fingerprintFrame_refl].
  apply keeps_then; [|intros _; apply keeps_then;
                       [|intros _; apply keeps_ret, fingerprintFrame_refl]].
  - destruct (FB.arg_patchVersion args); [|apply keeps_ret, fingerprintFrame_refl].
    intro s. unfold db_patch. cbn [rows skillVersionsTable].
    destruct (lookup _ _); cbn [fst]; [|apply fingerprintFrame_refl].
    unfold fingerprintFrame. cbn [with_rows skillVersionsTable skills skillVersions
                                  skillVersionFingerprints storage nextId].
    repeat split; auto. now apply (patchRow_apart (H:=Document_SkillVersion)).
  - destruct (FB.arg_replaceEntries args); [|apply keeps_ret, fingerprintFrame_refl].
    cbv zeta. apply keeps_then.
    + apply keeps_forOf; [apply fingerprintFrame_refl | apply fingerprintFrame_trans |].
      intros _ id. apply delete_keeps.
    + intros _. apply keeps_then; [apply insert_keeps|].
      intros _. apply keeps_ret, fingerprintFrame_refl.
Qed.

Lemma fingerprint_processItem_keeps (dryRun : bool) (totals : FB.FingerprintBackfillStats)
    (item : FB.FingerprintBackfillPageItem) :
  keeps fingerprintFrame (FB.processItem hashSkillFiles Date_now dryRun totals item).
Proof.
  unfold FB.processItem. cbv zeta.
  destruct (negb (negb _) && negb (negb _)); [apply keeps_ret, fingerprintFrame_refl|].
  destruct dryRun; [apply keeps_ret, fingerprintFrame_refl|].
  apply keeps_then; [|intros _; apply keeps_ret, fingerprintFrame_refl].
  apply keeps_runMutation; [apply fingerprintFrame_refl | apply fingerprint_applier_keeps].
Qed.

Lemma fingerprint_handler_keeps (args : BackfillActionArgs) :
  keeps fingerprintFrame
        (FB.backfillSkillFingerprintsInternalHandler hashSkillFiles Date_now args).
Proof.
  unfold FB.backfillSkillFingerprintsInternalHandler. cbv zeta.
  apply keeps_then.
  - apply keeps_forBatches; [apply fingerprintFrame_refl | apply fingerprintFrame_trans |].
    intros st. unfold FB.batchBody, runQuery.
    apply keeps_then.
    + intro s. rewrite getSkillFingerprintBackfillPageInternal_eval.
      destruct (paginate _ _ _) as [[page done] continueCursor]. apply fingerprintFrame_refl.
    + intros page. apply keeps_then; [|intros totals; apply keeps_ret, fingerprintFrame_refl].
      apply keeps_forOf; [apply fingerprintFrame_refl | apply fingerprintFrame_trans |].
      intros totals item. apply fingerprint_processItem_keeps.
  - intros st.
    destruct (negb _); [apply keeps_throw | apply keeps_ret]; apply fingerprintFrame_refl.
Qed.

(** X9.  Whatever the store and the arguments, and whether the run
    returns or throws, the fingerprint job never writes a skill or a
    stored blob, and of a version it writes the [fingerprint] field only:
    the versions are the same documents in the same order up to that
    field.  It never edits a fingerprint entry in place: an entry present
    after the run either was there before, unchanged, or was inserted by
    the run under an id handed out since; the id counter never goes
    back. *)
Theorem fingerprint_run_frame (args : BackfillActionArgs) (s : Store) :
  fingerprintFrame s
    (fst (FB.backfillSkillFingerprintsInternalHandler hashSkillFiles Date_now args s)).
Proof. apply fingerprint_handler_keeps. Qed.

End FingerprintFrame.

(* ================================================================= *)
(** ** What a run does to each document *)

Lemma orphanSkillStore_wf : store_wf orphanSkillStore.
Proof.
  repeat split; try (repeat constructor; simpl; intuition lia).
  intros skill latest version [<-|[]]. discriminate.
Qed.

Section FingerprintRunViews.
Variable hashSkillFiles : list FB.HashedFile -> string.
Variable Date_now : nat -> nat.

Local Abbreviation run args s :=
  (fst (FB.backfillSkillFingerprintsInternalHandler hashSkillFiles Date_now args s)).

(** Every run over a store with the invariant, dry or not, ends in a
    store with the invariant and the same versions; the view of a version
    is as before or, for a reached version in a real run, one visit
    later. *)
Lemma fingerprint_run_views {Inv : Store -> Prop} `{!FingerprintInvariant Inv}
    (args : BackfillActionArgs) (s : Store) :
  Inv s ->
  Inv (run args s) /\
  map version_id (skillVersions (run args s)) = map version_id (skillVersions s) /\
  forall k,
    fingerprintView (run args s) k = fingerprintView s k \/
    (In k (versionsReached args s) /\
     VisitRel fingerprintDecision (fingerprintStep hashSkillFiles)
              (fingerprintView s k) (fingerprintView (run args s) k)).
Proof.
  intros Hwf.
  destruct (Boolean (arg_dryRun args)) eqn:HdryRun.
  - rewrite (fingerprint_run_settled hashSkillFiles Date_now args s Hwf (or_introl HdryRun)).
    cbn [fst]. split; [assumption|]. split; [reflexivity|]. now left.
  - destruct (fingerprint_run_real hashSkillFiles Date_now args s HdryRun Hwf)
      as (s' & -> & Hwf' & Hkeys & Hviews).
    cbn [fst]. split; [assumption|]. split; [exact Hkeys|].
    intros k. destruct (in_dec Nat.eq_dec k (versionsReached args s)) as [Hin|Hout].
    + right. split; [assumption|]. now apply Hviews.
    + left. now apply Hviews.
Qed.

(** What a visit does to a version whose document is [version]. *)
Lemma fingerprint_visit_cases (version : SkillVersion)
    (entries : list SkillVersionFingerprint) (v' : FingerprintView) :
  NoDup (map entry_id entries) ->
  VisitRel fingerprintDecision (fingerprintStep hashSkillFiles) (Some version, entries) v' ->
  let h := fingerprintOf hashSkillFiles version in
  (fst v' = Some version \/
   (version_fingerprint version <> Some h /\ fst v' = Some (setFingerprint h version))) /\
  (snd v' = entries \/
   (~ (firstn 20 entries <> [] /\
       forall e, In e (firstn 20 entries) -> entry_fingerprint e = h) /\
    exists newId now,
      ~ In newId (map entry_id entries) /\
      snd v' = skipn 20 entries
               ++ [{| entry_id := newId;
                      entry_skillId := version_skillId version;
                      entry_versionId := version_id version;
                      entry_fingerprint := h;
                      entry_createdAt := now |}])).
Proof.
  intros Hdistinct Hvisit h. unfold VisitRel in Hvisit.
  destruct (fingerprintDecision (Some version, entries)) as [item|] eqn:Hdecision.
  - destruct Hvisit as (version0 & item0 & Hversion & Hdecision0 & Hfst & Hsnd).
    cbn [fst snd] in *. injection Hversion as <-.
    rewrite Hdecision in Hdecision0. injection Hdecision0 as <-.
    unfold fingerprintDecision in Hdecision. cbn [fst snd] in Hdecision.
    rewrite (item_hash hashSkillFiles _ _ _ Hdecision) in Hfst, Hsnd. fold h in Hfst, Hsnd.
    rewrite (item_versionFingerprintIsCorrect hashSkillFiles _ _ _ Hdecision) in Hfst.
    fold h in Hfst. split.
    + destruct (strictEq (version_fingerprint version) h) eqn:Hstored.
      * now left.
      * right. split; [|assumption]. intros Hsame.
        apply (strictEq_true (version_fingerprint version) h) in Hsame. congruence.
    + destruct (entryIsCorrect hashSkillFiles item) eqn:Hcorrect.
      * now left.
      * right. split.
        -- intros Hall. apply (item_entryIsCorrect hashSkillFiles _ _ _ Hdecision) in Hall.
           congruence.
        -- destruct Hsnd as (newId & now & Hfresh & Hsnd).
           exists newId, now. split; [assumption|].
           now rewrite Hsnd, removeIds_fetched.
  - subst v'. cbn [fst snd]. split; now left.
Qed.

(** X10.  A run of the fingerprint job leaves every version document as
    it was or with its [fingerprint] set to the hash of that version's
    own files, and it rewrites no stored fingerprint that already is that
    hash. *)
Theorem fingerprint_run_sets_hash_only (args : BackfillActionArgs) (s : Store)
    (version : SkillVersion) :
  store_wf s ->
  In version (skillVersions s) ->
  let s' := fst (FB.backfillSkillFingerprintsInternalHandler
                   hashSkillFiles Date_now args s) in
  let h := fingerprintOf hashSkillFiles version in
  (lookup (version_id version) (skillVersions s') = Some version \/
   (version_fingerprint version <> Some h /\
    lookup (version_id version) (skillVersions s') = Some (setFingerprint h version))).
Proof.
  intros Hwf Hin s' h.
  destruct (fingerprint_run_views args s Hwf) as (_ & _ & Hviews).
  fold s' in Hviews. specialize (Hviews (version_id version)).
  rewrite (view_of_version s version (store_wf_ids s Hwf) Hin) in Hviews.
  change (lookup (version_id version) (skillVersions s'))
    with (fst (fingerprintView s' (version_id version))).
  destruct Hviews as [->|[_ Hvisit]]; [now left|].
  now apply (fingerprint_visit_cases version _ _ (entriesOf_distinct _ s (store_wf_ids s Hwf))) in Hvisit.
Qed.

(** X11.  A run of the fingerprint job either leaves the entries of a
    version exactly as they were, or drops its first twenty entries (all
    of them when there are fewer) and appends one new entry that carries
    the hash of the version's files; the latter only when the first
    twenty were not all that hash already.  Entries beyond the twentieth
    are never deleted or rewritten, and the number of entries of a
    version that has any never grows. *)
Theorem fingerprint_run_entries (args : BackfillActionArgs) (s : Store) (versionId : Id) :
  store_wf s ->
  let s' := fst (FB.backfillSkillFingerprintsInternalHandler
                   hashSkillFiles Date_now args s) in
  let before := entriesOf versionId s in
  (entriesOf versionId s' = before \/
   exists version newId now,
     lookup versionId (skillVersions s) = Some version /\
     ~ (firstn 20 before <> [] /\
        forall e, In e (firstn 20 before) ->
                  entry_fingerprint e = fingerprintOf hashSkillFiles version) /\
     ~ In newId (map entry_id before) /\
     entriesOf versionId s' =
       skipn 20 before
       ++ [{| entry_id := newId;
              entry_skillId := version_skillId version;
              entry_versionId := versionId;
              entry_fingerprint := fingerprintOf hashSkillFiles version;
              entry_createdAt := now |}]) /\
  List.length (entriesOf versionId s') <= Nat.max 1 (List.length before).
Proof.
  intros Hwf s' before.
  assert (Hcases :
    entriesOf versionId s' = before \/
    exists version newId now,
      lookup versionId (skillVersions s) = Some version /\
      ~ (firstn 20 before <> [] /\
         forall e, In e (firstn 20 before) ->
                   entry_fingerprint e = fingerprintOf hashSkillFiles version) /\
      ~ In newId (map entry_id before) /\
      entriesOf versionId s' =
        skipn 20 before
        ++ [{| entry_id := newId;
               entry_skillId := version_skillId version;
               entry_versionId := versionId;
               entry_fingerprint := fingerprintOf hashSkillFiles version;
               entry_createdAt := now |}]).
  { destruct (fingerprint_run_views args s Hwf) as (_ & _ & Hviews).
    fold s' in Hviews. specialize (Hviews versionId).
    change (entriesOf versionId s') with (snd (fingerprintView s' versionId)).
    destruct Hviews as [->|[_ Hvisit]]; [now left|].
    unfold fingerprintView at 1 in Hvisit.
    destruct (lookup versionId (skillVersions s)) as [version|] eqn:Hfound.
    - destruct (lookup_Some _ _ _ Hfound) as [_ Hid].
      change (_id version) with (version_id version) in Hid.
      apply (fingerprint_visit_cases version _ _ (entriesOf_distinct _ s (store_wf_ids s Hwf))) in Hvisit.
      destruct Hvisit as [_ [Hsame|(Hwrong & newId & now & Hfresh & Hreplaced)]];
        [now left|].
      right. exists version, newId, now. rewrite Hid in Hreplaced. now repeat split.
    - unfold VisitRel, fingerprintDecision in Hvisit. cbn [fst] in Hvisit.
      rewrite Hvisit. now left. }
  split; [exact Hcases|].
  destruct Hcases as [->|(version & newId & now & _ & _ & _ & ->)]; [lia|].
  rewrite length_app, length_skipn. cbn [List.length]. lia.
Qed.

(** X12.  A version that needs no repair is never written: when its
    stored fingerprint is the hash of its files, and it has entries the
    first twenty of which all carry that hash, its document and its
    entries are after any run what they were before. *)
Theorem correct_version_is_left_alone (args : BackfillActionArgs) (s : Store)
    (version : SkillVersion) :
  store_wf s ->
  In version (skillVersions s) ->
  version_fingerprint version = Some (fingerprintOf hashSkillFiles version) ->
  entriesOf (version_id version) s <> [] ->
  (forall e, In e (firstn 20 (entriesOf (version_id version) s)) ->
             entry_fingerprint e = fingerprintOf hashSkillFiles version) ->
  let s' := fst (FB.backfillSkillFingerprintsInternalHandler
                   hashSkillFiles Date_now args s) in
  lookup (version_id version) (skillVersions s') = Some version /\
  entriesOf (version_id version) s' = entriesOf (version_id version) s.
Proof.
  intros Hwf Hin Hstored Hsome Hall s'.
  destruct (fingerprint_run_views args s Hwf) as (_ & _ & Hviews).
  fold s' in Hviews. specialize (Hviews (version_id version)).
  rewrite (view_of_version s version (store_wf_ids s Hwf) Hin) in Hviews.
  change (lookup (version_id version) (skillVersions s'))
    with (fst (fingerprintView s' (version_id version))).
  change (entriesOf (version_id version) s')
    with (snd (fingerprintView s' (version_id version))).
  destruct Hviews as [->|[_ Hvisit]]; [now split|].
  apply (fingerprint_visit_cases version _ _ (entriesOf_distinct _ s (store_wf_ids s Hwf))) in Hvisit.
  destruct Hvisit as [[Hdoc|[Hwrong _]] [Hentries|[Hwrong' _]]].
  - now split.
  - exfalso. apply Hwrong'. split; [|assumption].
    destruct (entriesOf (version_id version) s); [contradiction | discriminate].
  - contradiction.
  - contradiction.
Qed.

End FingerprintRunViews.

Section SummaryRunViews.
Variable buildSkillSummaryBackfillPatch :
  string -> option string -> ParsedSkillData -> SB.SummaryPatch.
Variable Date_now : nat -> nat.

Local Abbreviation run args s :=
  (fst (SB.backfillSkillSummariesInternalHandler
          buildSkillSummaryBackfillPatch Date_now args s)).

(** Every run over a store with the invariant, dry or not, ends in a
    store with the invariant and the same skills; the view of a skill is
    as before or, for a reached skill in a real run, one visit later. *)
Lemma summary_run_views {Inv : Store -> Prop} `{!SummaryInvariant Inv}
    (args : BackfillActionArgs) (s : Store) :
  Inv s ->
  Inv (run args s) /\
  map skill_id (skills (run args s)) = map skill_id (skills s) /\
  forall k,
    summaryView (run args s) k = summaryView s k \/
    (Boolean (arg_dryRun args) = false /\
     In k (skillsReached args s) /\
     VisitRel summaryDecision (summaryStep buildSkillSummaryBackfillPatch)
              (summaryView s k) (summaryView (run args s) k)).
Proof.
  intros Hwf.
  destruct (Boolean (arg_dryRun args)) eqn:HdryRun.
  - rewrite (summary_run_settled buildSkillSummaryBackfillPatch Date_now args s Hwf
               (or_introl HdryRun)).
    cbn [fst]. split; [assumption|]. split; [reflexivity|]. now left.
  - destruct (summary_run_real buildSkillSummaryBackfillPatch Date_now args s HdryRun Hwf)
      as (s' & -> & Hwf' & Hkeys & Hviews).
    cbn [fst]. split; [assumption|]. split; [exact Hkeys|].
    intros k. destruct (in_dec Nat.eq_dec k (skillsReached args s)) as [Hin|Hout].
    + right. split; [reflexivity|]. split; [assumption|]. now apply Hviews.
    + left. now apply Hviews.
Qed.

(** X13.  A skill for which the summary job has nothing to write is never
    written: when no patch is computed for it (it has no latest version,
    the version document or its README file or the README blob is
    missing) or the computed patch is empty, the skill document and its
    latest version document are after any run what they were before. *)
Theorem settled_skill_is_left_alone (args : BackfillActionArgs) (s : Store) (skillId : Id) :
  store_wf s ->
  summarySettled buildSkillSummaryBackfillPatch (summaryView s skillId) ->
  summaryView (fst (SB.backfillSkillSummariesInternalHandler
                      buildSkillSummaryBackfillPatch Date_now args s)) skillId
  = summaryView s skillId.
Proof.
  intros Hwf Hsettled.
  destruct (summary_run_views args s Hwf) as (_ & _ & Hviews).
  destruct (Hviews skillId) as [Hsame|(_ & _ & Hvisit)]; [assumption|].
  unfold VisitRel in Hvisit.
  destruct (summaryDecision (summaryView s skillId)) as [item|] eqn:Hdecision;
    [|assumption].
  destruct Hvisit as (skill & item0 & _ & Hdecision0 & Hstep).
  rewrite Hdecision in Hdecision0. injection Hdecision0 as <-.
  destruct (summaryPatchFor buildSkillSummaryBackfillPatch
              (snd (summaryView s skillId)) item) as [patch|] eqn:Hpatch; [|assumption].
  now rewrite (Hsettled item patch Hdecision Hpatch) in Hstep.
Qed.


End SummaryRunViews.

Lemma settled_skill_is_left_alone_witness :
  summaryView (fst (SB.backfillSkillSummariesInternalHandler sampleBuild sampleClock
                      defaultArgs orphanSkillStore)) 0
  = summaryView orphanSkillStore 0.
Proof.
  apply (settled_skill_is_left_alone sampleBuild sampleClock defaultArgs orphanSkillStore 0).
  - exact orphanSkillStore_wf.
  - intros item patch Hitem Hpatch. cbv in Hitem. injection Hitem as <-. discriminate Hpatch.
Defined.
(* ================================================================= *)
(** ** Running a job again *)

Section SettledStays.
Variable buildSkillSummaryBackfillPatch :
  string -> option string -> ParsedSkillData -> SB.SummaryPatch.
Variable hashSkillFiles : list FB.HashedFile -> string.



End SettledStays.

Section RerunTheorem.
Variable buildSkillSummaryBackfillPatch :
  string -> option string -> ParsedSkillData -> SB.SummaryPatch.
Variable hashSkillFiles : list FB.HashedFile -> string.
Variable Date_now Date_now' : nat -> nat.

Local Abbreviation summaryRun clock args s :=
  (SB.backfillSkillSummariesInternalHandler buildSkillSummaryBackfillPatch clock args s).
Local Abbreviation fingerprintRun clock args s :=
  (FB.backfillSkillFingerprintsInternalHandler hashSkillFiles clock args s).






End RerunTheorem.


Lemma twoSkillStore_wf : store_wf twoSkillStore.
Proof.
  split; [|split; [|split; [|split]]].
  - repeat constructor; simpl; intuition lia.
  - repeat constructor; simpl; intuition lia.
  - constructor.
  - constructor.
  - intros skill latest version [<-|[<-|[]]] Hlatest Hfound;
      injection Hlatest as <-; cbv in Hfound; injection Hfound as <-; reflexivity.
Qed.


Section Reach.
Variable buildSkillSummaryBackfillPatch :
  string -> option string -> ParsedSkillData -> SB.SummaryPatch.
Variable hashSkillFiles : list FB.HashedFile -> string.
Variable Date_now : nat -> nat.

(** X15.  Both jobs keep the integrity of the store: started in a store
    whose ids are unique in each table, whose entry ids were handed out
    before the id counter, and where a skill's latest version points back
    to that skill, a run of either job, dry or real, complete or not,
    ends in such a store. *)
Theorem runs_keep_store_integrity (args : BackfillActionArgs) (s : Store) :
  store_wf s ->
  store_wf (fst (SB.backfillSkillSummariesInternalHandler
                   buildSkillSummaryBackfillPatch Date_now args s)) /\
  store_wf (fst (FB.backfillSkillFingerprintsInternalHandler
                   hashSkillFiles Date_now args s)).
Proof.
  intros Hwf. split.
  - exact (proj1 (summary_run_views buildSkillSummaryBackfillPatch Date_now args s Hwf)).
  - exact (proj1 (fingerprint_run_views hashSkillFiles Date_now args s Hwf)).
Qed.

(** X16.  Every run starts at the head of the table, so repeating a job
    with the same arguments never gets past the first
    [maxBatches * batchSize] documents.  On a store with the integrity the
    engine enforces (unique ids in each table), however often the
    fingerprint job is run, a version beyond that reach is, with its
    entries, exactly as it was at the start; and when moreover no version
    is the latest version of two skills, however often the summary job is
    run, a skill beyond that reach is, with its latest version, exactly
    as it was at the start. *)
Theorem repeated_runs_stay_in_reach (args : BackfillActionArgs) (s : Store)
    (n : nat) (k : Id) :
  ids_wf s ->
  (latest_unshared s ->
   ~ In k (skillsReached args s) ->
   summaryView
     (Nat.iter n (fun s0 => fst (SB.backfillSkillSummariesInternalHandler
                                   buildSkillSummaryBackfillPatch Date_now args s0)) s) k
   = summaryView s k) /\
  (~ In k (versionsReached args s) ->
   fingerprintView
     (Nat.iter n (fun s0 => fst (FB.backfillSkillFingerprintsInternalHandler
                                   hashSkillFiles Date_now args s0)) s) k
   = fingerprintView s k).
Proof.
  intros Hids. split; [intros Hone Hout | intros Hout].
  - assert (Hwf : latest_wf s) by now split.
    set (run := fun s0 => fst (SB.backfillSkillSummariesInternalHandler
                                 buildSkillSummaryBackfillPatch Date_now args s0)).
    assert (Hall : latest_wf (Nat.iter n run s) /\
                   map skill_id (skills (Nat.iter n run s)) = map skill_id (skills s) /\
                   summaryView (Nat.iter n run s) k = summaryView s k).
    { induction n as [|n (Hwf' & Hkeys & Hview)]; [split; [exact Hwf | split; reflexivity]|].
      cbn [Nat.iter nat_rect]. fold (Nat.iter n run s).
      destruct (summary_run_views buildSkillSummaryBackfillPatch Date_now args
                  (Nat.iter n run s) Hwf') as (Hwf'' & Hkeys' & Hviews).
      fold (run (Nat.iter n run s)) in Hwf'', Hkeys', Hviews.
      split; [assumption|]. split; [congruence|].
      destruct (Hviews k) as [Hsame|(_ & Hin & _)]; [congruence|].
      exfalso. apply Hout. unfold skillsReached in *. now rewrite <- Hkeys. }
    apply Hall.
  - set (run := fun s0 => fst (FB.backfillSkillFingerprintsInternalHandler
                                 hashSkillFiles Date_now args s0)).
    assert (Hall : ids_wf (Nat.iter n run s) /\
                   map version_id (skillVersions (Nat.iter n run s))
                   = map version_id (skillVersions s) /\
                   fingerprintView (Nat.iter n run s) k = fingerprintView s k).
    { induction n as [|n (Hwf' & Hkeys & Hview)]; [split; [exact Hids | split; reflexivity]|].
      cbn [Nat.iter nat_rect]. fold (Nat.iter n run s).
      destruct (fingerprint_run_views hashSkillFiles Date_now args
                  (Nat.iter n run s) Hwf') as (Hwf'' & Hkeys' & Hviews).
      fold (run (Nat.iter n run s)) in Hwf'', Hkeys', Hviews.
      split; [assumption|]. split; [congruence|].
      destruct (Hviews k) as [Hsame|(Hin & _)]; [congruence|].
      exfalso. apply Hout. unfold versionsReached in *. now rewrite <- Hkeys. }
    apply Hall.
Qed.

End Reach.

Lemma runs_keep_store_integrity_witness :
  store_wf (fst (SB.backfillSkillSummariesInternalHandler sampleBuild sampleClock
                   defaultArgs (sampleStore None []))) /\
  store_wf (fst (FB.backfillSkillFingerprintsInternalHandler sampleHash sampleClock
                   defaultArgs (sampleStore None []))).
Proof.
  exact (runs_keep_store_integrity sampleBuild sampleHash sampleClock defaultArgs
           (sampleStore None []) (sampleStore_wf None)).
Defined.

Lemma repeated_runs_stay_in_reach_witness :
  summaryView
    (Nat.iter 3 (fun s0 => fst (SB.backfillSkillSummariesInternalHandler
                                  sampleBuild sampleClock oneByOneArgs s0)) twoSkillStore) 2
  = summaryView twoSkillStore 2 /\
  fingerprintView
    (Nat.iter 3 (fun s0 => fst (FB.backfillSkillFingerprintsInternalHandler
                                  sampleHash sampleClock oneByOneArgs s0)) twoSkillStore) 3
  = fingerprintView twoSkillStore 3.
Proof.
  split.
  - apply (proj1 (repeated_runs_stay_in_reach sampleBuild sampleHash sampleClock
                    oneByOneArgs twoSkillStore 3 2
                    (store_wf_ids _ twoSkillStore_wf))).
    + exact (store_wf_unshared _ twoSkillStore_wf).
    + vm_compute. intros [Hsame|[]]. discriminate Hsame.
  - apply (proj2 (repeated_runs_stay_in_reach sampleBuild sampleHash sampleClock
                    oneByOneArgs twoSkillStore 3 3
                    (store_wf_ids _ twoSkillStore_wf))).
    vm_compute. intros [Hsame|[]]. discriminate Hsame.
Defined.

(* ================================================================= *)
(** ** The counters of a run *)

Lemma then_ret_returned {A B} (m : M A) (x y : B) (s s' : Store) :
  (m ;;; ret x) s = (s', Returned y) -> y = x.
Proof.
  unfold bind, ret. destruct (m s) as [s1 [a|e]]; intros Hresult.
  - now injection Hresult as _ <-.
  - discriminate Hresult.
Qed.

Lemma forOf_returned {A S} (P : S -> Prop) (body : S -> A -> M S) :
  (forall acc x s s' acc', P acc -> body acc x s = (s', Returned acc') -> P acc') ->
  forall xs acc s s' acc',
    P acc -> forOf xs acc body s = (s', Returned acc') -> P acc'.
Proof.
  intros Hbody xs. induction xs as [|x xs IH]; intros acc s s' acc' Hacc Hresult.
  - cbn [forOf] in Hresult. unfold ret in Hresult. now injection Hresult as _ <-.
  - cbn [forOf] in Hresult. unfold bind in Hresult.
    destruct (body acc x s) as [s1 [acc1|e]] eqn:Hfirst; [|discriminate Hresult].
    apply (IH acc1 s1 s' acc'); [|assumption]. now apply (Hbody acc x s s1).
Qed.

Lemma scan_returned {Doc Item Totals} (T : Table Doc)
    (classify : Store -> Doc -> option Item) (process : Totals -> Item -> M Totals)
    (P : Totals -> Prop) :
  (forall t item s s' t', P t -> process t item s = (s', Returned t') -> P t') ->
  forall numItems n cursor isDone t s s' cursor' isDone' t',
    P t ->
    scan T classify process numItems n cursor isDone t s
    = (s', Returned (cursor', isDone', t')) ->
    P t'.
Proof.
  intros Hprocess numItems n.
  induction n as [|n IH]; intros cursor isDone t s s' cursor' isDone' t' Ht Hresult.
  - cbn [scan] in Hresult. unfold ret in Hresult. now injection Hresult as _ _ _ <-.
  - cbn [scan] in Hresult.
    destruct (paginate (rows T s) cursor numItems) as [[page done] continueCursor].
    destruct (forOf (keep (classify s) page) t process s) as [s1 [t1|e]] eqn:Hitems;
      [|discriminate Hresult].
    assert (Ht1 : P t1) by now apply (forOf_returned P process Hprocess _ _ _ _ _ Ht Hitems).
    destruct done.
    + now injection Hresult as _ _ _ <-.
    + now apply (IH _ _ _ _ _ _ _ _ Ht1 Hresult).
Qed.

Lemma filter_map_swap {A B} (f : A -> B) (p : B -> bool) (l : list A) :
  filter p (map f l) = map f (filter (fun x => p (f x)) l).
Proof.
  induction l as [|x l IH]; [reflexivity|].
  cbn [map filter]. destruct (p (f x)); cbn [map]; now rewrite IH.
Qed.

(** The counter [field] after the documents [ks], when each document
    whose view [emits] moves it by one and the others leave it alone. *)
Lemma tallyAll_counts {Totals V} (view : Store -> Id -> V) (count : V -> Totals -> Totals)
    (field : Totals -> nat) (emits : V -> bool) (s : Store) (ks : list Id) :
  (forall k t, field (count (view s k) t)
               = if emits (view s k) then S (field t) else field t) ->
  forall t, field (tallyAll view count s ks t)
            = field t + List.length (filter (fun k => emits (view s k)) ks).
Proof.
  intros Hcount. unfold tallyAll.
  induction ks as [|k ks IH]; intros t; cbn [fold_left filter]; [cbn; lia|].
  rewrite IH, Hcount. destruct (emits (view s k)); cbn [List.length]; lia.
Qed.

Section SummaryStats.
Variable buildSkillSummaryBackfillPatch :
  string -> option string -> ParsedSkillData -> SB.SummaryPatch.
Variable Date_now : nat -> nat.

(** The counters an item leaves behind whenever its processing returns. *)
Lemma summary_processItem_returned (dryRun : bool) (totals totals' : SB.BackfillStats)
    (item : SB.BackfillPageItem) (s s' : Store) :
  SB.processItem buildSkillSummaryBackfillPatch Date_now dryRun totals item s
  = (s', Returned totals') ->
  totals' = summaryTally buildSkillSummaryBackfillPatch (storage s) item totals.
Proof.
  destruct (summaryPatchFor buildSkillSummaryBackfillPatch (storage s) item)
    as [patch|] eqn:Hpatch.
  - destruct (patchIsEmpty patch) eqn:Hempty.
    + rewrite summary_processItem_settled by congruence.
      intros Hresult. now injection Hresult as _ <-.
    + destruct dryRun.
      * rewrite summary_processItem_dry. intros Hresult. now injection Hresult as _ <-.
      * destruct item as [skillId versionId skillSummary versionParsed readmeStorageId| | |];
          try discriminate Hpatch.
        destruct (summary_processItem_real buildSkillSummaryBackfillPatch Date_now totals
                    _ _ _ _ _ patch s Hpatch Hempty) as (now & ->).
        apply then_ret_returned.
  - rewrite summary_processItem_settled by congruence.
    intros Hresult. now injection Hresult as _ <-.
Qed.

Lemma summaryTally_adds_up (blobs : list (Id * string)) (item : SB.BackfillPageItem)
    (totals : SB.BackfillStats) :
  summaryStatsAddUp totals ->
  summaryStatsAddUp (summaryTally buildSkillSummaryBackfillPatch blobs item totals).
Proof.
  unfold summaryStatsAddUp, summaryTally.
  destruct item as [skillId versionId skillSummary versionParsed readmeStorageId| | |];
    try (cbn -[Nat.max Nat.add]; lia).
  destruct (blobText blobs readmeStorageId) as [readmeText|]; [|cbn -[Nat.max Nat.add]; lia].
  destruct (truthy _), (defined _); cbn -[Nat.max Nat.add]; lia.
Qed.

Lemma summaryTally_skillsScanned (blobs : list (Id * string)) (item : SB.BackfillPageItem)
    (totals : SB.BackfillStats) :
  SB.skillsScanned (summaryTally buildSkillSummaryBackfillPatch blobs item totals)
  = S (SB.skillsScanned totals).
Proof.
  unfold summaryTally.
  destruct item as [skillId versionId skillSummary versionParsed readmeStorageId| | |];
    try reflexivity.
  destruct (blobText blobs readmeStorageId) as [readmeText|]; [|reflexivity].
  destruct (truthy _), (defined _); reflexivity.
Qed.

(** X17.  The counters of the summary job add up.  Whenever a run
    returns, on whatever store, every skill it counted as missing its
    latest version, its README or its README blob, and every skill or
    version it counted as patched, is a different scanned skill: the
    three "missing" counters plus the larger of [skillsPatched] and
    [versionsPatched] never exceed [skillsScanned]. *)
Theorem summary_stats_add_up (args : BackfillActionArgs) (s : Store)
    (result : SB.BackfillActionResult) :
  snd (SB.backfillSkillSummariesInternalHandler
         buildSkillSummaryBackfillPatch Date_now args s) = Returned result ->
  summaryStatsAddUp (SB.stats result).
Proof.
  rewrite summary_handler_scan.
  destruct (scan _ _ _ _ _ _ _ _ s) as [s' [[[cursor' isDone'] totals]|e]] eqn:Hscan;
    cbn [summaryResult]; [|discriminate].
  destruct isDone'; cbn [snd]; [|discriminate].
  intros Hresult. injection Hresult as <-. cbn [SB.stats].
  refine (scan_returned _ _ _ summaryStatsAddUp _ _ _ _ _ _ _ _ _ _ _ _ Hscan).
  - intros t item s0 s1 t' Ht Hitem.
    rewrite (summary_processItem_returned _ _ _ _ _ _ Hitem).
    now apply summaryTally_adds_up.
  - unfold summaryStatsAddUp. cbn -[Nat.max Nat.add]. lia.
Qed.

End SummaryStats.

Section FingerprintStats.
Variable hashSkillFiles : list FB.HashedFile -> string.
Variable Date_now : nat -> nat.

(** The counters an item leaves behind whenever its processing returns. *)
Lemma fingerprint_processItem_returned (dryRun : bool)
    (totals totals' : FB.FingerprintBackfillStats)
    (item : FB.FingerprintBackfillPageItem) (s s' : Store) :
  FB.processItem hashSkillFiles Date_now dryRun totals item s = (s', Returned totals') ->
  totals' = fingerprintTally hashSkillFiles item totals.
Proof.
  destruct (entryIsCorrect hashSkillFiles item && versionFingerprintIsCorrect hashSkillFiles item)
    eqn:Hcorrect.
  - apply andb_true_iff in Hcorrect as [Hentries Hstored].
    rewrite processItem_correct by assumption.
    intros Hresult. now injection Hresult as _ <-.
  - destruct dryRun.
    + rewrite processItem_dry. intros Hresult. now injection Hresult as _ <-.
    + rewrite processItem_real by assumption. apply then_ret_returned.
Qed.

Lemma fingerprintTally_adds_up (item : FB.FingerprintBackfillPageItem)
    (totals : FB.FingerprintBackfillStats) :
  fingerprintStatsAddUp totals ->
  fingerprintStatsAddUp (fingerprintTally hashSkillFiles item totals).
Proof.
  unfold fingerprintStatsAddUp, fingerprintTally.
  destruct (entryIsCorrect hashSkillFiles item),
           (versionFingerprintIsCorrect hashSkillFiles item),
           (0 <? List.length (FB.existingEntries item)); cbn; lia.
Qed.

(** X18.  The counters of the fingerprint job add up.  Whenever a run
    returns, on whatever store, every mismatch it counted led to an
    inserted entry, and every inserted entry and every patched version
    belongs to a different scanned version:
    [fingerprintMismatches <= fingerprintsInserted <= versionsScanned]
    and [versionsPatched <= versionsScanned]. *)
Theorem fingerprint_stats_add_up (args : BackfillActionArgs) (s : Store)
    (result : FB.FingerprintBackfillActionResult) :
  snd (FB.backfillSkillFingerprintsInternalHandler hashSkillFiles Date_now args s)
  = Returned result ->
  fingerprintStatsAddUp (FB.stats result).
Proof.
  rewrite fingerprint_handler_scan.
  destruct (scan _ _ _ _ _ _ _ _ s) as [s' [[[cursor' isDone'] totals]|e]] eqn:Hscan;
    cbn [fingerprintResult]; [|discriminate].
  destruct isDone'; cbn [snd]; [|discriminate].
  intros Hresult. injection Hresult as <-. cbn [FB.stats].
  refine (scan_returned _ _ _ fingerprintStatsAddUp _ _ _ _ _ _ _ _ _ _ _ _ Hscan).
  - intros t item s0 s1 t' Ht Hitem.
    rewrite (fingerprint_processItem_returned _ _ _ _ _ _ Hitem).
    now apply fingerprintTally_adds_up.
  - unfold fingerprintStatsAddUp. cbn. lia.
Qed.

End FingerprintStats.

(* ================================================================= *)
(** ** What the counters of a completed run count *)

Section SummaryCounterFacts.
Variable buildSkillSummaryBackfillPatch :
  string -> option string -> ParsedSkillData -> SB.SummaryPatch.
Variable Date_now : nat -> nat.

Lemma summary_stats_eq (a b : SB.BackfillStats) :
  SB.skillsScanned a = SB.skillsScanned b ->
  SB.skillsPatched a = SB.skillsPatched b ->
  SB.versionsPatched a = SB.versionsPatched b ->
  SB.missingLatestVersion a = SB.missingLatestVersion b ->
  SB.missingReadme a = SB.missingReadme b ->
  SB.missingStorageBlob a = SB.missingStorageBlob b ->
  a = b.
Proof. destruct a, b. cbn. intros; subst; reflexivity. Qed.

(** One counter after all the skills of a well-formed store: it moved
    once for every skill whose item moves it. *)
Lemma summary_counter (field : SB.BackfillStats -> nat)
    (q : list (Id * string) -> SB.BackfillPageItem -> bool) (p : Skill -> bool)
    (s : Store) :
  store_wf s ->
  (forall blobs item t,
     field (summaryTally buildSkillSummaryBackfillPatch blobs item t)
     = if q blobs item then S (field t) else field t) ->
  (forall skill, q (storage s) (summaryItemOf s skill) = p skill) ->
  field SB.zeroStats = 0 ->
  field (tallyAll summaryView (summaryCount buildSkillSummaryBackfillPatch) s
                  (map skill_id (skills s)) SB.zeroStats)
  = List.length (filter p (skills s)).
Proof.
  intros Hwf Htally Hq Hzero.
  rewrite (tallyAll_counts summaryView (summaryCount buildSkillSummaryBackfillPatch) field
             (fun v => match summaryDecision v with
                       | Some item => q (snd v) item
                       | None => false
                       end)).
  - rewrite Hzero, filter_map_swap, length_map. cbn [plus]. f_equal.
    apply filter_ext_in. intros skill Hin.
    pose proof (summary_classify_view s skill Hwf Hin) as Hitem.
    change (_id skill) with (skill_id skill) in Hitem.
    rewrite <- Hitem. apply Hq.
  - intros k t0. unfold summaryCount.
    destruct (summaryDecision (summaryView s k)); [apply Htally | reflexivity].
Qed.

(** X19.  What the counters of the summary job mean.  When a run
    completes, its counters are those of the skill table as the run
    found it: [skillsScanned] is the number of skills;
    [missingLatestVersion] counts the skills whose [latestVersionId] is
    unset or names no version document; [missingReadme] those whose
    latest version has no README file; [missingStorageBlob] those whose
    README file has no stored blob; [skillsPatched] and
    [versionsPatched] those for which the computed patch has a non-empty
    summary, respectively parsed metadata.  Writes made earlier in the
    same run do not shift any of them. *)
Theorem completed_summary_run_counters (args : BackfillActionArgs) (s : Store)
    (result : SB.BackfillActionResult) :
  store_wf s ->
  snd (SB.backfillSkillSummariesInternalHandler
         buildSkillSummaryBackfillPatch Date_now args s) = Returned result ->
  SB.stats result = summaryCounters buildSkillSummaryBackfillPatch s.
Proof.
  intros Hwf. rewrite (summary_run_outcome buildSkillSummaryBackfillPatch Date_now args s Hwf).
  unfold summaryOutcome.
  destruct (Nat.leb_spec (List.length (skills s)) (maxBatchesOf args * batchSizeOf args))
    as [Hfits|]; [|discriminate].
  intros Hresult. injection Hresult as <-. cbn [SB.stats].
  unfold skillsReached. rewrite firstn_all2 by (rewrite length_map; lia).
  apply summary_stats_eq; unfold summaryCounters;
    cbn [SB.skillsScanned SB.skillsPatched SB.versionsPatched SB.missingLatestVersion
         SB.missingReadme SB.missingStorageBlob].
  - rewrite (summary_counter SB.skillsScanned (fun _ _ => true) (fun _ => true) s Hwf).
    + rewrite filter_all by reflexivity. reflexivity.
    + intros blobs item t. apply summaryTally_skillsScanned.
    + reflexivity.
    + reflexivity.
  - apply (summary_counter SB.skillsPatched
             (fun blobs item =>
                match summaryPatchFor buildSkillSummaryBackfillPatch blobs item with
                | Some patch => truthy (SB.patch_summary patch)
                | None => false
                end) _ s Hwf).
    + intros blobs item t. unfold summaryTally, summaryPatchFor.
      destruct item as [skillId versionId skillSummary versionParsed readmeStorageId| | |];
        try reflexivity.
      destruct (blobText blobs readmeStorageId) as [readmeText|]; [|reflexivity].
      destruct (truthy _), (defined _); reflexivity.
    + intros skill.
      unfold summaryItemOf, summaryItemFor, summaryPatchOf, latestVersionOf, summaryPatchFor.
      destruct (skill_latestVersionId skill) as [latest|]; [|reflexivity].
      destruct (lookup latest (skillVersions s)) as [version|]; [|reflexivity].
      destruct (find SB.isReadme (version_files version)) as [readme|]; reflexivity.
    + reflexivity.
  - apply (summary_counter SB.versionsPatched
             (fun blobs item =>
                match summaryPatchFor buildSkillSummaryBackfillPatch blobs item with
                | Some patch => defined (SB.patch_parsed patch)
                | None => false
                end) _ s Hwf).
    + intros blobs item t. unfold summaryTally, summaryPatchFor.
      destruct item as [skillId versionId skillSummary versionParsed readmeStorageId| | |];
        try reflexivity.
      destruct (blobText blobs readmeStorageId) as [readmeText|]; [|reflexivity].
      destruct (truthy _), (defined _); reflexivity.
    + intros skill.
      unfold summaryItemOf, summaryItemFor, summaryPatchOf, latestVersionOf, summaryPatchFor.
      destruct (skill_latestVersionId skill) as [latest|]; [|reflexivity].
      destruct (lookup latest (skillVersions s)) as [version|]; [|reflexivity].
      destruct (find SB.isReadme (version_files version)) as [readme|]; reflexivity.
    + reflexivity.
  - apply (summary_counter SB.missingLatestVersion
             (fun _ item =>
                match item with
                | SB.kind_missingLatestVersion _ | SB.kind_missingVersionDoc _ _ => true
                | _ => false
                end) _ s Hwf).
    + intros blobs item t. unfold summaryTally.
      destruct item as [skillId versionId skillSummary versionParsed readmeStorageId| | |];
        try reflexivity.
      destruct (blobText blobs readmeStorageId) as [readmeText|]; [|reflexivity].
      destruct (truthy _), (defined _); reflexivity.
    + intros skill. unfold summaryItemOf, summaryItemFor, latestVersionOf.
      destruct (skill_latestVersionId skill) as [latest|]; [|reflexivity].
      destruct (lookup latest (skillVersions s)) as [version|]; [|reflexivity].
      destruct (find SB.isReadme (version_files version)) as [readme|]; reflexivity.
    + reflexivity.
  - apply (summary_counter SB.missingReadme
             (fun _ item =>
                match item with SB.kind_missingReadme _ _ => true | _ => false end) _ s Hwf).
    + intros blobs item t. unfold summaryTally.
      destruct item as [skillId versionId skillSummary versionParsed readmeStorageId| | |];
        try reflexivity.
      destruct (blobText blobs readmeStorageId) as [readmeText|]; [|reflexivity].
      destruct (truthy _), (defined _); reflexivity.
    + intros skill. unfold summaryItemOf, summaryItemFor, readmeOf, latestVersionOf.
      destruct (skill_latestVersionId skill) as [latest|]; [|reflexivity].
      destruct (lookup latest (skillVersions s)) as [version|]; [|reflexivity].
      destruct (find SB.isReadme (version_files version)) as [readme|]; reflexivity.
    + reflexivity.
  - apply (summary_counter SB.missingStorageBlob
             (fun blobs item =>
                match item with
                | SB.kind_ok _ _ _ _ readmeStorageId =>
                    negb (defined (blobText blobs readmeStorageId))
                | _ => false
                end) _ s Hwf).
    + intros blobs item t. unfold summaryTally.
      destruct item as [skillId versionId skillSummary versionParsed readmeStorageId| | |];
        try reflexivity.
      destruct (blobText blobs readmeStorageId) as [readmeText|]; [|reflexivity].
      destruct (truthy _), (defined _); reflexivity.
    + intros skill. unfold summaryItemOf, summaryItemFor, readmeOf, latestVersionOf.
      destruct (skill_latestVersionId skill) as [latest|]; [|reflexivity].
      destruct (lookup latest (skillVersions s)) as [version|]; [|reflexivity].
      destruct (find SB.isReadme (version_files version)) as [readme|]; reflexivity.
    + reflexivity.
Qed.

End SummaryCounterFacts.

Section FingerprintCounterFacts.
Variable hashSkillFiles : list FB.HashedFile -> string.
Variable Date_now : nat -> nat.

Lemma fingerprint_stats_eq (a b : FB.FingerprintBackfillStats) :
  FB.versionsScanned a = FB.versionsScanned b ->
  FB.versionsPatched a = FB.versionsPatched b ->
  FB.fingerprintsInserted a = FB.fingerprintsInserted b ->
  FB.fingerprintMismatches a = FB.fingerprintMismatches b ->
  a = b.
Proof. destruct a, b. cbn. intros; subst; reflexivity. Qed.

Lemma item_fetchedCorrect (s : Store) (version : SkillVersion)
    (item : FB.FingerprintBackfillPageItem) :
  fingerprintItemOf s version = Some item ->
  entryIsCorrect hashSkillFiles item = fetchedCorrect hashSkillFiles s version /\
  (0 <? List.length (FB.existingEntries item))
  = (0 <? List.length (firstn 20 (entriesOf (version_id version) s))).
Proof.
  intros Hitem. unfold fingerprintItemOf in Hitem.
  pose proof (item_hash hashSkillFiles _ _ _ Hitem) as Hhash.
  apply fingerprintItemFor_item in Hitem. subst item.
  unfold entryIsCorrect, fetchedCorrect, oneFingerprint in *.
  cbn [FB.existingEntries FB.files] in *.
  rewrite Hhash, !map_map, !length_map. cbn [FB.entryFingerprint]. split; reflexivity.
Qed.

(** One counter after all the versions of a well-formed store: it moved
    once for every emitted version whose item moves it. *)
Lemma fingerprint_counter (field : FB.FingerprintBackfillStats -> nat)
    (q : FB.FingerprintBackfillPageItem -> bool) (p : SkillVersion -> bool) (s : Store) :
  store_wf s ->
  (forall item t,
     field (fingerprintTally hashSkillFiles item t)
     = if q item then S (field t) else field t) ->
  (forall version item, fingerprintItemOf s version = Some item -> q item = p version) ->
  field FB.zeroStats = 0 ->
  field (tallyAll fingerprintView (fingerprintCount hashSkillFiles) s
                  (map version_id (skillVersions s)) FB.zeroStats)
  = List.length (filter (fun version => defined (fingerprintItemOf s version) && p version)
                        (skillVersions s)).
Proof.
  intros Hwf Htally Hq Hzero.
  rewrite (tallyAll_counts fingerprintView (fingerprintCount hashSkillFiles) field
             (fun v => match fingerprintDecision v with
                       | Some item => q item
                       | None => false
                       end)).
  - rewrite Hzero, filter_map_swap, length_map. cbn [plus]. f_equal.
    apply filter_ext_in. intros version Hin.
    pose proof (fingerprint_classify_view s version Hwf Hin) as Hitem.
    change (_id version) with (version_id version) in Hitem.
    rewrite <- Hitem.
    destruct (fingerprintItemOf s version) as [item|] eqn:Hemitted; [|reflexivity].
    cbn [defined andb]. now apply Hq.
  - intros k t0. unfold fingerprintCount.
    destruct (fingerprintDecision (fingerprintView s k)); [apply Htally | reflexivity].
Qed.

(** X20.  What the counters of the fingerprint job mean.  When a run
    completes, its counters are those of the version table as the run
    found it.  [versionsScanned] is not the number of versions read: it
    counts the versions the page fetcher emits, those it skips are not
    counted.  Among the emitted ones, [versionsPatched] counts those
    whose stored fingerprint is not the hash of their files,
    [fingerprintsInserted] those whose first twenty entries are not all
    that hash (or are none), and [fingerprintMismatches] those that have
    entries the first twenty of which are not all that hash. *)
Theorem completed_fingerprint_run_counters (args : BackfillActionArgs) (s : Store)
    (result : FB.FingerprintBackfillActionResult) :
  store_wf s ->
  snd (FB.backfillSkillFingerprintsInternalHandler hashSkillFiles Date_now args s)
  = Returned result ->
  FB.stats result = fingerprintCounters hashSkillFiles s.
Proof.
  intros Hwf. rewrite (fingerprint_run_outcome hashSkillFiles Date_now args s Hwf).
  unfold fingerprintOutcome.
  destruct (Nat.leb_spec (List.length (skillVersions s))
                         (maxBatchesOf args * batchSizeOf args)) as [Hfits|]; [|discriminate].
  intros Hresult. injection Hresult as <-. cbn [FB.stats].
  unfold versionsReached. rewrite firstn_all2 by (rewrite length_map; lia).
  apply fingerprint_stats_eq; unfold fingerprintCounters;
    cbn [FB.versionsScanned FB.versionsPatched FB.fingerprintsInserted
         FB.fingerprintMismatches].
  - rewrite (fingerprint_counter FB.versionsScanned (fun _ => true) (fun _ => true) s Hwf).
    + f_equal. apply filter_ext. intros version. apply andb_true_r.
    + intros item t. apply tally_versionsScanned.
    + reflexivity.
    + reflexivity.
  - apply (fingerprint_counter FB.versionsPatched
             (fun item => negb (versionFingerprintIsCorrect hashSkillFiles item)) _ s Hwf).
    + intros item t. unfold fingerprintTally.
      destruct (entryIsCorrect hashSkillFiles item),
               (versionFingerprintIsCorrect hashSkillFiles item),
               (0 <? List.length (FB.existingEntries item)); reflexivity.
    + intros version item Hitem. unfold fingerprintItemOf in Hitem.
      now rewrite (item_versionFingerprintIsCorrect hashSkillFiles _ _ _ Hitem).
    + reflexivity.
  - apply (fingerprint_counter FB.fingerprintsInserted
             (fun item => negb (entryIsCorrect hashSkillFiles item)) _ s Hwf).
    + intros item t. unfold fingerprintTally.
      destruct (entryIsCorrect hashSkillFiles item),
               (versionFingerprintIsCorrect hashSkillFiles item),
               (0 <? List.length (FB.existingEntries item)); reflexivity.
    + intros version item Hitem.
      now rewrite (proj1 (item_fetchedCorrect s version item Hitem)).
    + reflexivity.
  - rewrite (fingerprint_counter FB.fingerprintMismatches
               (fun item => (0 <? List.length (FB.existingEntries item)) &&
                            negb (entryIsCorrect hashSkillFiles item))
               (fun version =>
                  (0 <? List.length (firstn 20 (entriesOf (version_id version) s))) &&
                  negb (fetchedCorrect hashSkillFiles s version)) s Hwf).
    + f_equal. apply filter_ext. intros version. now rewrite andb_assoc.
    + intros item t. unfold fingerprintTally.
      destruct (entryIsCorrect hashSkillFiles item),
               (versionFingerprintIsCorrect hashSkillFiles item),
               (0 <? List.length (FB.existingEntries item)); reflexivity.
    + intros version item Hitem.
      destruct (item_fetchedCorrect s version item Hitem) as [-> ->]. reflexivity.
    + reflexivity.
Qed.

End FingerprintCounterFacts.

(* ================================================================= *)
(** ** The inserts of a real run *)

Lemma delete_loop_nextId (ids : list Id) (s : Store) :
  nextId (fst (forOf ids tt (fun _ i => db_delete fingerprintsTable i) s)) = nextId s /\
  skillVersions (fst (forOf ids tt (fun _ i => db_delete fingerprintsTable i) s))
  = skillVersions s.
Proof.
  apply (keeps_forOf (fun s0 s1 => nextId s1 = nextId s0 /\ skillVersions s1 = skillVersions s0)).
  - now split.
  - intros s1 s2 s3 [Ha Hb] [Ha' Hb']. split; congruence.
  - intros _ i s0. unfold db_delete. cbn [rows fingerprintsTable].
    destruct (lookup _ _); cbn [fst]; now split.
Qed.

Lemma frame_version_ids (s s' : Store) :
  fingerprintFrame s s' ->
  map version_id (skillVersions s') = map version_id (skillVersions s).
Proof.
  intros (_ & Hversions & _).
  apply (f_equal (map (fun core : Id * Id * list SkillFile * ParsedSkillData =>
                         fst (fst (fst core))))) in Hversions.
  now rewrite !map_map in Hversions.
Qed.

Section Inserts.
Variable hashSkillFiles : list FB.HashedFile -> string.
Variable Date_now : nat -> nat.

(** An applier call that finds its version and returns took one id from
    the store when it was to replace the entries, and none otherwise. *)
Lemma apply_returned_nextId (now : nat) (args : FB.PatchArgs) (version : SkillVersion)
    (s s' : Store) (r : FB.PatchResult) :
  lookup (FB.arg_versionId args) (skillVersions s) = Some version ->
  FB.applySkillFingerprintBackfillPatchInternal now args s = (s', Returned r) ->
  nextId s' = nextId s + (if FB.arg_replaceEntries args then 1 else 0).
Proof.
  intros Hfound.
  destruct (lookup_Some _ _ _ Hfound) as [_ Hid].
  change (_id version) with (version_id version) in Hid.
  unfold FB.applySkillFingerprintBackfillPatchInternal.
  unfold bind at 1. unfold db_get. cbn [rows skillVersionsTable]. rewrite Hfound.
  change (_id version) with (version_id version).
  unfold bind at 1.
  match goal with
  | |- context [(if FB.arg_patchVersion args then ?patch else ?skip) s] =>
      set (patched := (if FB.arg_patchVersion args then patch else skip) s)
  end.
  assert (Hpatched : exists s1, patched = (s1, Returned tt) /\ nextId s1 = nextId s).
  { unfold patched. destruct (FB.arg_patchVersion args).
    - unfold db_patch. cbn [rows skillVersionsTable]. rewrite Hid, Hfound.
      eexists. split; reflexivity.
    - eexists. split; reflexivity. }
  destruct Hpatched as (s1 & -> & Hs1).
  destruct (FB.arg_replaceEntries args).
  - unfold bind at 1. unfold bind at 1.
    pose proof (delete_loop_nextId (nullish (FB.arg_existingEntryIds args) []) s1)
      as [Hdeleted _].
    destruct (forOf _ tt _ s1) as [s2 [[]|e]]; [|discriminate].
    cbn [fst] in Hdeleted.
    unfold bind, db_insert_fingerprint, ret. intros Hresult.
    injection Hresult as <- _. cbn [nextId]. lia.
  - unfold bind, ret. intros Hresult. injection Hresult as <- _. lia.
Qed.

Lemma tally_fingerprintsInserted (item : FB.FingerprintBackfillPageItem)
    (totals : FB.FingerprintBackfillStats) :
  FB.fingerprintsInserted (fingerprintTally hashSkillFiles item totals)
  = FB.fingerprintsInserted totals
    + (if negb (entryIsCorrect hashSkillFiles item) then 1 else 0).
Proof.
  unfold fingerprintTally.
  destruct (entryIsCorrect hashSkillFiles item),
           (versionFingerprintIsCorrect hashSkillFiles item),
           (0 <? List.length (FB.existingEntries item)); cbn; lia.
Qed.

Lemma processItem_inserts (totals totals' : FB.FingerprintBackfillStats)
    (item : FB.FingerprintBackfillPageItem) (s s' : Store) :
  In (FB.versionId item) (map version_id (skillVersions s)) ->
  FB.processItem hashSkillFiles Date_now false totals item s = (s', Returned totals') ->
  nextId s' + FB.fingerprintsInserted totals
  = nextId s + FB.fingerprintsInserted totals'.
Proof.
  intros Hpresent Hresult.
  rewrite (fingerprint_processItem_returned hashSkillFiles Date_now _ _ _ _ _ _ Hresult).
  rewrite tally_fingerprintsInserted.
  destruct (lookup_In_key (H:=Document_SkillVersion) _ _ Hpresent) as (version & Hfound).
  destruct (entryIsCorrect hashSkillFiles item && versionFingerprintIsCorrect hashSkillFiles item)
    eqn:Hcorrect.
  - apply andb_true_iff in Hcorrect as [Hentries Hstored].
    rewrite processItem_correct in Hresult by assumption.
    injection Hresult as <- _. rewrite Hentries. cbn. lia.
  - rewrite processItem_real in Hresult by assumption.
    unfold bind at 1 in Hresult. unfold runMutation in Hresult.
    destruct (FB.applySkillFingerprintBackfillPatchInternal _ _ s) as [s1 [r|e]] eqn:Happlied;
      [|discriminate Hresult].
    unfold ret in Hresult. injection Hresult as <- _.
    rewrite (apply_returned_nextId _ (fingerprintPatchArgs hashSkillFiles item) version
               _ _ _ Hfound Happlied).
    cbn [fingerprintPatchArgs FB.arg_replaceEntries]. lia.
Qed.

Lemma items_insert (items : list FB.FingerprintBackfillPageItem) :
  forall (totals totals' : FB.FingerprintBackfillStats) (s s' : Store),
    (forall item, In item items ->
                  In (FB.versionId item) (map version_id (skillVersions s))) ->
    forOf items totals (FB.processItem hashSkillFiles Date_now false) s
    = (s', Returned totals') ->
    nextId s' + FB.fingerprintsInserted totals
    = nextId s + FB.fingerprintsInserted totals'.
Proof.
  induction items as [|item items IH]; intros totals totals' s s' Hpresent Hresult.
  - cbn [forOf] in Hresult. unfold ret in Hresult. now injection Hresult as <- <-.
  - cbn [forOf] in Hresult. unfold bind in Hresult.
    destruct (FB.processItem hashSkillFiles Date_now false totals item s)
      as [s1 [totals1|e]] eqn:Hitem; [|discriminate Hresult].
    pose proof (processItem_inserts _ _ _ _ _ (Hpresent item (or_introl eq_refl)) Hitem)
      as Hfirst.
    pose proof (fingerprint_processItem_keeps hashSkillFiles Date_now false totals item s)
      as Hframe.
    rewrite Hitem in Hframe. cbn [fst] in Hframe. apply frame_version_ids in Hframe.
    assert (Hrest : nextId s' + FB.fingerprintsInserted totals1
                    = nextId s1 + FB.fingerprintsInserted totals').
    { apply (IH totals1 totals' s1 s'); [|assumption].
      intros item' Hin. rewrite Hframe. apply Hpresent. now right. }
    lia.
Qed.

Lemma scan_inserts (numItems n : nat) :
  forall cursor isDone (totals totals' : FB.FingerprintBackfillStats) (s s' : Store)
         cursor' isDone',
    scan skillVersionsTable fingerprintItemOf
         (FB.processItem hashSkillFiles Date_now false) numItems n cursor isDone totals s
    = (s', Returned (cursor', isDone', totals')) ->
    nextId s' + FB.fingerprintsInserted totals
    = nextId s + FB.fingerprintsInserted totals'.
Proof.
  induction n as [|n IH]; intros cursor isDone totals totals' s s' cursor' isDone' Hresult.
  - cbn [scan] in Hresult. unfold ret in Hresult. now injection Hresult as <- _ _ <-.
  - cbn [scan] in Hresult.
    destruct (paginate (rows skillVersionsTable s) cursor numItems)
      as [[page done] continueCursor] eqn:Hpage.
    destruct (forOf (keep (fingerprintItemOf s) page) totals
                    (FB.processItem hashSkillFiles Date_now false) s)
      as [s1 [totals1|e]] eqn:Hitems; [|discriminate Hresult].
    assert (Hfirst : nextId s1 + FB.fingerprintsInserted totals
                     = nextId s + FB.fingerprintsInserted totals1).
    { apply (items_insert _ _ _ _ _) with (2 := Hitems).
      intros item Hin. apply keep_In in Hin as (version & Hin & Hitem).
      unfold fingerprintItemOf in Hitem. apply fingerprintItemFor_item in Hitem.
      subst item. cbn [FB.versionId]. apply in_map.
      unfold paginate in Hpage. injection Hpage as <- _ _.
      cbn [rows skillVersionsTable] in Hin.
      now apply In_firstn, In_skipn in Hin. }
    destruct done.
    + injection Hresult as <- _ _ <-. exact Hfirst.
    + apply IH in Hresult. lia.
Qed.

(** X21.  [fingerprintsInserted] is the number of inserts a real run
    made: when a real run returns, on whatever store, the store has
    handed out exactly [fingerprintsInserted] new ids, one for each
    fingerprint entry the run inserted. *)
Theorem real_run_inserts_what_it_counts (args : BackfillActionArgs) (s : Store)
    (result : FB.FingerprintBackfillActionResult) :
  Boolean (arg_dryRun args) = false ->
  snd (FB.backfillSkillFingerprintsInternalHandler hashSkillFiles Date_now args s)
  = Returned result ->
  nextId (fst (FB.backfillSkillFingerprintsInternalHandler hashSkillFiles Date_now args s))
  = nextId s + FB.fingerprintsInserted (FB.stats result).
Proof.
  intros HdryRun. rewrite fingerprint_handler_scan, HdryRun.
  destruct (scan _ _ _ _ _ _ _ _ s) as [s' [[[cursor' isDone'] totals]|e]] eqn:Hscan;
    cbn [fingerprintResult]; [|discriminate].
  destruct isDone'; cbn [fst snd]; [|discriminate].
  intros Hresult. injection Hresult as <-. cbn [FB.stats].
  apply scan_inserts in Hscan. cbn [FB.fingerprintsInserted FB.zeroStats] in Hscan. lia.
Qed.

End Inserts.

Lemma real_run_inserts_what_it_counts_witness :
  exists result,
    snd (FB.backfillSkillFingerprintsInternalHandler sampleHash sampleClock defaultArgs
           twoSkillStore) = Returned result /\
    nextId (fst (FB.backfillSkillFingerprintsInternalHandler sampleHash sampleClock
                   defaultArgs twoSkillStore))
    = nextId twoSkillStore + FB.fingerprintsInserted (FB.stats result).
Proof.
  eexists. split; [vm_compute; reflexivity|].
  apply (real_run_inserts_what_it_counts sampleHash sampleClock defaultArgs twoSkillStore).
  - reflexivity.
  - vm_compute. reflexivity.
Defined.

Section UncountedSummary.
Variable buildSkillSummaryBackfillPatch :
  string -> option string -> ParsedSkillData -> SB.SummaryPatch.
Variable Date_now : nat -> nat.


End UncountedSummary.


(* ================================================================= *)
(** ** The two jobs do not interfere *)

Section Related.
Variable R : Store -> Store -> Prop.

Lemma related_ret {A} (a : A) : related R (ret a) (ret a).
Proof. intros s1 s2 Hs. now split. Qed.

Lemma related_throw {A} (e : string) : related R (@throw A e) (@throw A e).
Proof. intros s1 s2 Hs. now split. Qed.

Lemma related_bind {A B} (m1 m2 : M A) (k1 k2 : A -> M B) :
  related R m1 m2 -> (forall a, related R (k1 a) (k2 a)) ->
  related R (bind m1 k1) (bind m2 k2).
Proof.
  intros Hm Hk s1 s2 Hs. unfold bind. destruct (Hm s1 s2 Hs) as [Hvalue Hstores].
  destruct (m1 s1) as [s1' [a1|e1]], (m2 s2) as [s2' [a2|e2]]; cbn [fst snd] in *;
    try discriminate Hvalue.
  - injection Hvalue as <-. now apply Hk.
  - injection Hvalue as <-. now split.
Qed.

Lemma related_forOf {A S} (body1 body2 : S -> A -> M S) :
  (forall acc x, related R (body1 acc x) (body2 acc x)) ->
  forall xs acc, related R (forOf xs acc body1) (forOf xs acc body2).
Proof.
  intros Hbody xs. induction xs as [|x xs IH]; intros acc; cbn [forOf].
  - apply related_ret.
  - apply related_bind; [apply Hbody | intro acc'; apply IH].
Qed.

Lemma related_runMutation {A} (m1 m2 : M A) :
  related R m1 m2 -> related R (runMutation m1) (runMutation m2).
Proof.
  intros Hm s1 s2 Hs. unfold runMutation. destruct (Hm s1 s2 Hs) as [Hvalue Hstores].
  destruct (m1 s1) as [s1' [a1|e1]], (m2 s2) as [s2' [a2|e2]]; cbn [fst snd] in *;
    try discriminate Hvalue; now split.
Qed.

Lemma related_read {A} (f1 f2 : Store -> A) :
  (forall s1 s2, R s1 s2 -> f1 s1 = f2 s2) ->
  related R (fun s => (s, Returned (f1 s))) (fun s => (s, Returned (f2 s))).
Proof. intros Hread s1 s2 Hs. cbn [fst snd]. split; [now rewrite (Hread s1 s2)|assumption]. Qed.

(** The batch loop on two related stores, when pages of related stores
    yield the same items and the same end-of-table flag. *)
Lemma related_scan {Doc Item Totals} (T : Table Doc)
    (classify : Store -> Doc -> option Item) (process : Totals -> Item -> M Totals) :
  (forall s1 s2 cursor numItems,
     R s1 s2 ->
     keep (classify s1) (fst (fst (paginate (rows T s1) cursor numItems)))
     = keep (classify s2) (fst (fst (paginate (rows T s2) cursor numItems))) /\
     snd (fst (paginate (rows T s1) cursor numItems))
     = snd (fst (paginate (rows T s2) cursor numItems)) /\
     snd (paginate (rows T s1) cursor numItems)
     = snd (paginate (rows T s2) cursor numItems)) ->
  (forall t item, related R (process t item) (process t item)) ->
  forall numItems n cursor isDone t,
    related R (scan T classify process numItems n cursor isDone t)
              (scan T classify process numItems n cursor isDone t).
Proof.
  intros Hpage Hprocess numItems n.
  induction n as [|n IH]; intros cursor isDone t s1 s2 Hs; cbn [scan].
  - now apply related_ret.
  - destruct (Hpage s1 s2 cursor numItems Hs) as (Hitems & Hdone & Hcursor).
    destruct (paginate (rows T s1) cursor numItems) as [[page1 done1] cursor1].
    destruct (paginate (rows T s2) cursor numItems) as [[page2 done2] cursor2].
    cbn [fst snd] in Hitems, Hdone, Hcursor. subst done2 cursor2. rewrite Hitems.
    destruct (related_forOf process process Hprocess (keep (classify s2) page2) t s1 s2 Hs)
      as [Hvalue Hstores].
    destruct (forOf _ t process s1) as [s1' [t1|e1]],
             (forOf _ t process s2) as [s2' [t2|e2]]; cbn [fst snd] in *;
      try discriminate Hvalue.
    + injection Hvalue as <-. destruct done1; [now split | now apply IH].
    + injection Hvalue as <-. now split.
Qed.

End Related.

Lemma lookup_apart {B} (f : SkillVersion -> B) (id : Id) :
  (forall v w, f v = f w -> version_id v = version_id w) ->
  forall l1 l2 : list SkillVersion,
    map f l1 = map f l2 ->
    option_map f (lookup id l1) = option_map f (lookup id l2).
Proof.
  intros Hid l1. induction l1 as [|v l1 IH]; intros [|w l2] Hmap; try discriminate Hmap.
  - reflexivity.
  - cbn [map] in Hmap. injection Hmap as Hhead Htail.
    unfold lookup. cbn [find]. unfold _id, Document_SkillVersion.
    rewrite (Hid v w Hhead).
    destruct (version_id w =? id); [cbn [option_map]; now rewrite Hhead|].
    now apply IH.
Qed.

Lemma patchRow_through {B} (f : SkillVersion -> B) (g : B -> B) (id : Id)
    (upd : SkillVersion -> SkillVersion) (l : list SkillVersion) :
  (forall v, f (if version_id v =? id then upd v else v) = g (f v)) ->
  map f (patchRow id upd l) = map g (map f l).
Proof.
  intros Hthrough. unfold patchRow. rewrite !map_map. apply map_ext. exact Hthrough.
Qed.

Lemma versions_determined (l1 l2 : list SkillVersion) :
  map versionApartFromFingerprint l1 = map versionApartFromFingerprint l2 ->
  map versionApartFromParsed l1 = map versionApartFromParsed l2 ->
  l1 = l2.
Proof.
  revert l2. induction l1 as [|v l1 IH]; intros [|w l2] Hleft Hright;
    try discriminate Hleft; [reflexivity|].
  cbn [map] in Hleft, Hright.
  injection Hleft as Hid Hskill Hfiles Hparsed Hleft.
  injection Hright as _ _ _ Hfingerprint Hright.
  rewrite (IH l2 Hleft Hright). destruct v, w. cbn in *. now subst.
Qed.

Lemma keep_related {A B C} (f1 f2 : A -> option B) (core : A -> C) :
  (forall a b, core a = core b -> f1 a = f2 b) ->
  forall l1 l2, map core l1 = map core l2 -> keep f1 l1 = keep f2 l2.
Proof.
  intros Hsame l1. induction l1 as [|a l1 IH]; intros [|b l2] Hmap; try discriminate Hmap.
  - reflexivity.
  - cbn [map] in Hmap. injection Hmap as Hhead Htail.
    unfold keep. cbn [flat_map]. rewrite (Hsame a b Hhead). f_equal. now apply IH.
Qed.

Lemma related_get_version {A C} (R : Store -> Store -> Prop) (core : SkillVersion -> C)
    (id : Id) (k1 k2 : option SkillVersion -> M A) :
  (forall s1 s2, R s1 s2 ->
     option_map core (lookup id (skillVersions s1))
     = option_map core (lookup id (skillVersions s2))) ->
  related R (k1 None) (k2 None) ->
  (forall v w, core v = core w -> related R (k1 (Some v)) (k2 (Some w))) ->
  related R (bind (db_get skillVersionsTable id) k1) (bind (db_get skillVersionsTable id) k2).
Proof.
  intros Hlookup Hnone Hsome s1 s2 Hs. unfold bind, db_get. cbn [rows skillVersionsTable].
  specialize (Hlookup s1 s2 Hs).
  destruct (lookup id (skillVersions s1)) as [v|], (lookup id (skillVersions s2)) as [w|];
    cbn [option_map] in Hlookup; try discriminate Hlookup.
  - injection Hlookup as Hcore. now apply Hsome.
  - now apply Hnone.
Qed.

Section SummaryIgnoresFingerprints.
Variable buildSkillSummaryBackfillPatch :
  string -> option string -> ParsedSkillData -> SB.SummaryPatch.
Variable Date_now : nat -> nat.

Lemma summaryItemOf_same (s1 s2 : Store) (skill : Skill) :
  sameForSummary s1 s2 -> summaryItemOf s1 skill = summaryItemOf s2 skill.
Proof.
  intros (_ & Hversions & _). unfold summaryItemOf, summaryItemFor, latestVersionOf.
  destruct (skill_latestVersionId skill) as [latest|]; [|reflexivity].
  pose proof (lookup_apart versionApartFromFingerprint latest
                (fun v w Hcore => f_equal (fun core => fst (fst (fst core))) Hcore)
                _ _ Hversions) as Hfound.
  destruct (lookup latest (skillVersions s1)) as [v|],
           (lookup latest (skillVersions s2)) as [w|];
    cbn [option_map] in Hfound; try discriminate Hfound; [|reflexivity].
  injection Hfound as Hid Hskill Hfiles Hparsed.
  now rewrite Hid, Hfiles, Hparsed.
Qed.

Lemma summary_patch_skill_related (id : Id) (upd : Skill -> Skill) :
  related sameForSummary (db_patch skillsTable id upd) (db_patch skillsTable id upd).
Proof.
  intros s1 s2 (Hskills & Hversions & Hblobs). unfold db_patch. cbn [rows skillsTable].
  rewrite Hskills.
  destruct (lookup id (skills s2)); cbn [fst snd]; (split; [reflexivity|]);
    unfold sameForSummary;
    cbn [with_rows skillsTable skills skillVersions storage]; now repeat split.
Qed.

Lemma summary_patch_version_related (id : Id) (parsed : ParsedSkillData) :
  let upd := fun version =>
               {| version_id := version_id version;
                  version_skillId := version_skillId version;
                  version_files := version_files version;
                  version_parsed := parsed;
                  version_fingerprint := version_fingerprint version |} in
  related sameForSummary (db_patch skillVersionsTable id upd)
                         (db_patch skillVersionsTable id upd).
Proof.
  intros upd s1 s2 (Hskills & Hversions & Hblobs). unfold db_patch.
  cbn [rows skillVersionsTable].
  pose proof (lookup_apart versionApartFromFingerprint id
                (fun v w Hcore => f_equal (fun core => fst (fst (fst core))) Hcore)
                _ _ Hversions) as Hfound.
  destruct (lookup id (skillVersions s1)) as [v|],
           (lookup id (skillVersions s2)) as [w|];
    cbn [option_map] in Hfound; try discriminate Hfound; cbn [fst snd];
    (split; [reflexivity|]); unfold sameForSummary;
    cbn [with_rows skillVersionsTable skills skillVersions storage];
    [|now repeat split].
  split; [assumption|]. split; [|assumption].
  rewrite !(patchRow_through versionApartFromFingerprint
              (fun core => if fst (fst (fst core)) =? id
                           then (fst (fst (fst core)), snd (fst (fst core)),
                                 snd (fst core), parsed)
                           else core) id upd).
  - now rewrite Hversions.
  - intros version. unfold versionApartFromFingerprint at 2. cbn [fst snd].
    now destruct (version_id version =? id).
  - intros version. unfold versionApartFromFingerprint at 2. cbn [fst snd].
    now destruct (version_id version =? id).
Qed.

Lemma summary_applier_related (now : nat) (args : SB.PatchArgs) :
  related sameForSummary (SB.applySkillBackfillPatchInternal now args)
                         (SB.applySkillBackfillPatchInternal now args).
Proof.
  unfold SB.applySkillBackfillPatchInternal.
  apply related_bind; [|intros _; apply related_bind; [|intros _; apply related_ret]].
  - destruct (SB.arg_summary args); [apply summary_patch_skill_related | apply related_ret].
  - destruct (SB.arg_parsed args) as [parsed|];
      [apply summary_patch_version_related | apply related_ret].
Qed.

Lemma summary_processItem_related (dryRun : bool) (totals : SB.BackfillStats)
    (item : SB.BackfillPageItem) :
  related sameForSummary
    (SB.processItem buildSkillSummaryBackfillPatch Date_now dryRun totals item)
    (SB.processItem buildSkillSummaryBackfillPatch Date_now dryRun totals item).
Proof.
  unfold SB.processItem.
  destruct item as [skillId versionId skillSummary versionParsed readmeStorageId| | |];
    try apply related_ret.
  apply related_bind.
  - apply related_read. intros s1 s2 (_ & _ & Hblobs). now rewrite Hblobs.
  - intros [readmeText|]; [|apply related_ret]. cbv zeta.
    destruct (negb _ && negb _); [apply related_ret|].
    destruct dryRun; [apply related_ret|].
    apply related_bind; [|intros _; apply related_ret].
    apply related_runMutation, summary_applier_related.
Qed.

(** On stores that differ in stored fingerprints, fingerprint entries
    and the id counter only, the summary job returns the same result and
    makes the same writes. *)
Lemma summary_handler_related (args : BackfillActionArgs) :
  related sameForSummary
    (SB.backfillSkillSummariesInternalHandler buildSkillSummaryBackfillPatch Date_now args)
    (SB.backfillSkillSummariesInternalHandler buildSkillSummaryBackfillPatch Date_now args).
Proof.
  intros s1 s2 Hs. rewrite !summary_handler_scan.
  destruct (related_scan sameForSummary skillsTable
              (fun s skill => Some (summaryItemOf s skill))
              (SB.processItem buildSkillSummaryBackfillPatch Date_now
                              (Boolean (arg_dryRun args))))
    with (numItems := batchSizeOf args) (n := maxBatchesOf args) (cursor := @None nat)
         (isDone := false) (t := SB.zeroStats) (s1 := s1) (s2 := s2)
    as [Hvalue Hstores].
  - intros s1' s2' cursor numItems Hs'. cbn [rows skillsTable].
    destruct Hs' as (Hskills & Hrest). rewrite Hskills. split; [|now split].
    apply keep_ext_in. intros skill _. f_equal.
    apply summaryItemOf_same. now split.
  - intros t item. apply summary_processItem_related.
  - assumption.
  - destruct (scan skillsTable _ _ _ _ _ _ _ s1) as [s1' [[[cursor1 done1] totals1]|e1]],
             (scan skillsTable _ _ _ _ _ _ _ s2) as [s2' [[[cursor2 done2] totals2]|e2]];
      cbn [fst snd] in Hvalue, Hstores; try discriminate Hvalue.
    + injection Hvalue as _ <- <-. unfold summaryResult.
      destruct done1; cbn [fst snd]; now split.
    + injection Hvalue as <-. unfold summaryResult. cbn [fst snd]. now split.
Qed.

End SummaryIgnoresFingerprints.

Section FingerprintIgnoresSummaries.
Variable hashSkillFiles : list FB.HashedFile -> string.
Variable Date_now : nat -> nat.

Lemma fingerprintItemOf_same (s1 s2 : Store) (v w : SkillVersion) :
  skillVersionFingerprints s1 = skillVersionFingerprints s2 ->
  versionApartFromParsed v = versionApartFromParsed w ->
  fingerprintItemOf s1 v = fingerprintItemOf s2 w.
Proof.
  intros Hentries Hcore. injection Hcore as Hid Hskill Hfiles Hfingerprint.
  unfold fingerprintItemOf, fingerprintItemFor, entriesOf.
  now rewrite Hentries, Hid, Hskill, Hfiles, Hfingerprint.
Qed.

Lemma fingerprint_patch_version_related (id : Id) (fingerprint : string) :
  let upd := fun version =>
               {| version_id := version_id version;
                  version_skillId := version_skillId version;
                  version_files := version_files version;
                  version_parsed := version_parsed version;
                  version_fingerprint := Some fingerprint |} in
  related sameForFingerprint (db_patch skillVersionsTable id upd)
                             (db_patch skillVersionsTable id upd).
Proof.
  intros upd s1 s2 (Hversions & Hentries & Hnext). unfold db_patch.
  cbn [rows skillVersionsTable].
  pose proof (lookup_apart versionApartFromParsed id
                (fun v w Hcore => f_equal (fun core => fst (fst (fst core))) Hcore)
                _ _ Hversions) as Hfound.
  destruct (lookup id (skillVersions s1)) as [v|],
           (lookup id (skillVersions s2)) as [w|];
    cbn [option_map] in Hfound; try discriminate Hfound; cbn [fst snd];
    (split; [reflexivity|]); unfold sameForFingerprint;
    cbn [with_rows skillVersionsTable skillVersions skillVersionFingerprints nextId];
    [|now repeat split].
  split; [|now split].
  rewrite !(patchRow_through versionApartFromParsed
              (fun core => if fst (fst (fst core)) =? id
                           then (fst (fst (fst core)), snd (fst (fst core)),
                                 snd (fst core), Some fingerprint)
                           else core) id upd).
  - now rewrite Hversions.
  - intros version. unfold versionApartFromParsed at 2. cbn [fst snd].
    now destruct (version_id version =? id).
  - intros version. unfold versionApartFromParsed at 2. cbn [fst snd].
    now destruct (version_id version =? id).
Qed.

Lemma fingerprint_delete_related (id : Id) :
  related sameForFingerprint (db_delete fingerprintsTable id) (db_delete fingerprintsTable id).
Proof.
  intros s1 s2 (Hversions & Hentries & Hnext). unfold db_delete.
  cbn [rows fingerprintsTable]. rewrite Hentries.
  destruct (lookup id (skillVersionFingerprints s2)); cbn [fst snd];
    (split; [reflexivity|]); unfold sameForFingerprint;
    cbn [with_rows fingerprintsTable skillVersions skillVersionFingerprints nextId];
    now repeat split.
Qed.

Lemma fingerprint_insert_related (skillId versionId : Id) (fingerprint : string)
    (createdAt : nat) :
  related sameForFingerprint
    (db_insert_fingerprint skillId versionId fingerprint createdAt)
    (db_insert_fingerprint skillId versionId fingerprint createdAt).
Proof.
  intros s1 s2 (Hversions & Hentries & Hnext). unfold db_insert_fingerprint.
  cbn [fst snd]. rewrite Hnext. split; [reflexivity|].
  unfold sameForFingerprint. cbn [skillVersions skillVersionFingerprints nextId].
  rewrite Hentries. now repeat split.
Qed.

Lemma fingerprint_applier_related (now : nat) (args : FB.PatchArgs) :
  related sameForFingerprint (FB.applySkillFingerprintBackfillPatchInternal now args)
                             (FB.applySkillFingerprintBackfillPatchInternal now args).
Proof.
  unfold FB.applySkillFingerprintBackfillPatchInternal.
  apply (related_get_version sameForFingerprint versionApartFromParsed).
  - intros s1 s2 (Hversions & _). apply lookup_apart; [|assumption].
    intros v w Hcore. exact (f_equal (fun core => fst (fst (fst core))) Hcore).
  - apply related_ret.
  - intros v w Hcore. injection Hcore as Hid Hskill _ _.
    change (_id v) with (version_id v). change (_id w) with (version_id w).
    rewrite Hid, Hskill.
    apply related_bind; [|intros _; apply related_bind; [|intros _; apply related_ret]].
    + destruct (FB.arg_patchVersion args);
        [apply fingerprint_patch_version_related | apply related_ret].
    + destruct (FB.arg_replaceEntries args); [|apply related_ret]. cbv zeta.
      apply related_bind.
      * apply related_forOf. intros _ id. apply fingerprint_delete_related.
      * intros _. apply related_bind; [apply fingerprint_insert_related|].
        intros _. apply related_ret.
Qed.

Lemma fingerprint_processItem_related (dryRun : bool) (totals : FB.FingerprintBackfillStats)
    (item : FB.FingerprintBackfillPageItem) :
  related sameForFingerprint
    (FB.processItem hashSkillFiles Date_now dryRun totals item)
    (FB.processItem hashSkillFiles Date_now dryRun totals item).
Proof.
  unfold FB.processItem. cbv zeta.
  destruct (negb (negb _) && negb (negb _)); [apply related_ret|].
  destruct dryRun; [apply related_ret|].
  apply related_bind; [|intros _; apply related_ret].
  apply related_runMutation, fingerprint_applier_related.
Qed.

(** On stores that differ in skills, parsed metadata and blobs only, the
    fingerprint job returns the same result and makes the same writes. *)
Lemma fingerprint_handler_related (args : BackfillActionArgs) :
  related sameForFingerprint
    (FB.backfillSkillFingerprintsInternalHandler hashSkillFiles Date_now args)
    (FB.backfillSkillFingerprintsInternalHandler hashSkillFiles Date_now args).
Proof.
  intros s1 s2 Hs. rewrite !fingerprint_handler_scan.
  destruct (related_scan sameForFingerprint skillVersionsTable fingerprintItemOf
              (FB.processItem hashSkillFiles Date_now (Boolean (arg_dryRun args))))
    with (numItems := batchSizeOf args) (n := maxBatchesOf args) (cursor := @None nat)
         (isDone := false) (t := FB.zeroStats) (s1 := s1) (s2 := s2)
    as [Hvalue Hstores].
  - intros s1' s2' cursor numItems (Hversions & Hentries & _).
    cbn [rows skillVersionsTable]. unfold paginate. cbn [fst snd].
    assert (Hlength : List.length (skillVersions s1') = List.length (skillVersions s2')).
    { rewrite <- (length_map versionApartFromParsed (skillVersions s1')), Hversions.
      apply length_map. }
    split; [|split].
    + apply (keep_related _ _ versionApartFromParsed).
      * intros v w. now apply fingerprintItemOf_same.
      * now rewrite <- !firstn_map, <- !skipn_map, Hversions.
    + now rewrite !length_skipn, Hlength.
    + now rewrite !length_firstn, !length_skipn, Hlength.
  - intros t item. apply fingerprint_processItem_related.
  - assumption.
  - destruct (scan skillVersionsTable _ _ _ _ _ _ _ s1)
      as [s1' [[[cursor1 done1] totals1]|e1]],
             (scan skillVersionsTable _ _ _ _ _ _ _ s2)
      as [s2' [[[cursor2 done2] totals2]|e2]];
      cbn [fst snd] in Hvalue, Hstores; try discriminate Hvalue.
    + injection Hvalue as _ <- <-. unfold fingerprintResult.
      destruct done1; cbn [fst snd]; now split.
    + injection Hvalue as <-. unfold fingerprintResult. cbn [fst snd]. now split.
Qed.

End FingerprintIgnoresSummaries.

Lemma store_eq (s s' : Store) :
  skills s = skills s' ->
  skillVersions s = skillVersions s' ->
  skillVersionFingerprints s = skillVersionFingerprints s' ->
  storage s = storage s' ->
  nextId s = nextId s' ->
  s = s'.
Proof. destruct s, s'. cbn. intros; subst; reflexivity. Qed.

Section Independence.
Variable buildSkillSummaryBackfillPatch :
  string -> option string -> ParsedSkillData -> SB.SummaryPatch.
Variable hashSkillFiles : list FB.HashedFile -> string.
(** Each job reads its own clock. *)
Variable summaryClock fingerprintClock : nat -> nat.

(** X23.  The two jobs do not interfere.  Whatever the store and the
    arguments of each job, the summary job returns the same result or
    error whether or not the fingerprint job ran before it, and the
    other way round; and, each job reading the same clock values in both
    orders, running the two jobs in either order ends in the same
    store. *)
Theorem jobs_do_not_interfere (summaryArgs fingerprintArgs : BackfillActionArgs)
    (s : Store) :
  let summaries :=
    SB.backfillSkillSummariesInternalHandler buildSkillSummaryBackfillPatch summaryClock
                                             summaryArgs in
  let fingerprints :=
    FB.backfillSkillFingerprintsInternalHandler hashSkillFiles fingerprintClock
                                                fingerprintArgs in
  snd (summaries (fst (fingerprints s))) = snd (summaries s) /\
  snd (fingerprints (fst (summaries s))) = snd (fingerprints s) /\
  fst (summaries (fst (fingerprints s))) = fst (fingerprints (fst (summaries s))).
Proof.
  intros summaries fingerprints.
  pose proof (fingerprint_handler_keeps hashSkillFiles fingerprintClock fingerprintArgs s)
    as (Fskills & Fversions & Fblobs & _).
  pose proof (summary_handler_keeps buildSkillSummaryBackfillPatch summaryClock summaryArgs s)
    as (_ & Sversions & Sentries & _ & Snext).
  fold fingerprints in Fskills, Fversions, Fblobs.
  fold summaries in Sversions, Sentries, Snext.
  destruct (summary_handler_related buildSkillSummaryBackfillPatch summaryClock summaryArgs
              s (fst (fingerprints s)))
    as (Hsummary & A1 & A2 & A3); [now repeat split|].
  destruct (fingerprint_handler_related hashSkillFiles fingerprintClock fingerprintArgs
              s (fst (summaries s)))
    as (Hfingerprint & B1 & B2 & B3); [now repeat split|].
  fold summaries in Hsummary, A1, A2, A3. fold fingerprints in Hfingerprint, B1, B2, B3.
  pose proof (summary_handler_keeps buildSkillSummaryBackfillPatch summaryClock summaryArgs
                (fst (fingerprints s))) as (_ & C2 & C3 & _ & C5).
  pose proof (fingerprint_handler_keeps hashSkillFiles fingerprintClock fingerprintArgs
                (fst (summaries s))) as (D1 & D2 & D3 & _).
  fold summaries in C2, C3, C5. fold fingerprints in D1, D2, D3.
  split; [now symmetry|]. split; [now symmetry|].
  apply store_eq.
  - congruence.
  - apply versions_determined; congruence.
  - congruence.
  - congruence.
  - congruence.
Qed.

End Independence.

(* ================================================================= *)
(** ** Empty tables, and how the reach is split into batches *)

Section Edges.
Variable buildSkillSummaryBackfillPatch :
  string -> option string -> ParsedSkillData -> SB.SummaryPatch.
Variable hashSkillFiles : list FB.HashedFile -> string.
Variable Date_now : nat -> nat.

Lemma scan_empty_table {Doc Item Totals} (T : Table Doc)
    (classify : Store -> Doc -> option Item) (process : Totals -> Item -> M Totals)
    (numItems n : nat) (t : Totals) (s : Store) :
  rows T s = [] -> 1 <= numItems -> 1 <= n ->
  exists cursor, scan T classify process numItems n None false t s
                 = (s, Returned (cursor, true, t)).
Proof.
  intros Hempty Hsize Hbatches.
  destruct n as [|n]; [lia|]. cbn [scan]. rewrite Hempty.
  unfold paginate. cbn [nullish skipn List.length]. rewrite firstn_nil.
  cbn [keep flat_map forOf ret List.length].
  cbn [Nat.leb]. now eexists.
Qed.

(** X24.  A job run over an empty table completes: both clamps have 1 as
    their lower bound, so at least one page is fetched, and the first
    page of an empty table is flagged done.  Whatever the arguments, the
    run returns [ok] with every counter at zero and changes nothing. *)
Theorem empty_table_completes (args : BackfillActionArgs) (s : Store) :
  (skills s = [] ->
   SB.backfillSkillSummariesInternalHandler buildSkillSummaryBackfillPatch Date_now args s
   = (s, Returned {| SB.ok := true; SB.stats := SB.zeroStats |})) /\
  (skillVersions s = [] ->
   FB.backfillSkillFingerprintsInternalHandler hashSkillFiles Date_now args s
   = (s, Returned {| FB.ok := true; FB.stats := FB.zeroStats |})).
Proof.
  pose proof (batchSizeOf_bounds args) as [Hsize _].
  pose proof (maxBatchesOf_bounds args) as [Hbatches _].
  split; intros Hempty.
  - rewrite summary_handler_scan.
    destruct (scan_empty_table skillsTable (fun s skill => Some (summaryItemOf s skill))
                (SB.processItem buildSkillSummaryBackfillPatch Date_now
                                (Boolean (arg_dryRun args)))
                (batchSizeOf args) (maxBatchesOf args) SB.zeroStats s Hempty Hsize Hbatches)
      as (cursor & ->).
    reflexivity.
  - rewrite fingerprint_handler_scan.
    destruct (scan_empty_table skillVersionsTable fingerprintItemOf
                (FB.processItem hashSkillFiles Date_now (Boolean (arg_dryRun args)))
                (batchSizeOf args) (maxBatchesOf args) FB.zeroStats s Hempty Hsize Hbatches)
      as (cursor & ->).
    reflexivity.
Qed.

(** X25.  How the reach is split into batches does not matter.  On a
    well-formed store, two runs of a job whose [maxBatches * batchSize]
    are equal return the same result or error, whatever their
    [batchSize], [maxBatches] and [dryRun] are. *)
Theorem result_depends_on_reach_only (args args' : BackfillActionArgs) (s : Store) :
  store_wf s ->
  maxBatchesOf args * batchSizeOf args = maxBatchesOf args' * batchSizeOf args' ->
  snd (SB.backfillSkillSummariesInternalHandler
         buildSkillSummaryBackfillPatch Date_now args s)
  = snd (SB.backfillSkillSummariesInternalHandler
           buildSkillSummaryBackfillPatch Date_now args' s) /\
  snd (FB.backfillSkillFingerprintsInternalHandler hashSkillFiles Date_now args s)
  = snd (FB.backfillSkillFingerprintsInternalHandler hashSkillFiles Date_now args' s).
Proof.
  intros Hwf Hreach. split.
  - rewrite !(summary_run_outcome buildSkillSummaryBackfillPatch Date_now _ s Hwf).
    unfold summaryOutcome, skillsReached. now rewrite Hreach.
  - rewrite !(fingerprint_run_outcome hashSkillFiles Date_now _ s Hwf).
    unfold fingerprintOutcome, versionsReached. now rewrite Hreach.
Qed.

End Edges.

Lemma empty_table_completes_witness :
  SB.backfillSkillSummariesInternalHandler sampleBuild sampleClock unclampedArgs
    emptyFingerprintStore
  = (emptyFingerprintStore, Returned {| SB.ok := true; SB.stats := SB.zeroStats |}) /\
  FB.backfillSkillFingerprintsInternalHandler sampleHash sampleClock unclampedArgs
    orphanSkillStore
  = (orphanSkillStore, Returned {| FB.ok := true; FB.stats := FB.zeroStats |}).
Proof.
  split.
  - exact (proj1 (empty_table_completes sampleBuild sampleHash sampleClock unclampedArgs
                    emptyFingerprintStore) eq_refl).
  - exact (proj2 (empty_table_completes sampleBuild sampleHash sampleClock unclampedArgs
                    orphanSkillStore) eq_refl).
Defined.

Lemma result_depends_on_reach_only_witness :
  snd (SB.backfillSkillSummariesInternalHandler sampleBuild sampleClock
         {| arg_dryRun := Some true; batchSize := Some (of_Z 2); maxBatches := Some (of_Z 50) |}
         twoSkillStore)
  = snd (SB.backfillSkillSummariesInternalHandler sampleBuild sampleClock
           {| arg_dryRun := None; batchSize := Some (of_Z 100); maxBatches := Some (of_Z 1) |}
           twoSkillStore) /\
  snd (FB.backfillSkillFingerprintsInternalHandler sampleHash sampleClock
         {| arg_dryRun := Some true; batchSize := Some (of_Z 2); maxBatches := Some (of_Z 50) |}
         twoSkillStore)
  = snd (FB.backfillSkillFingerprintsInternalHandler sampleHash sampleClock
           {| arg_dryRun := None; batchSize := Some (of_Z 100); maxBatches := Some (of_Z 1) |}
           twoSkillStore).
Proof.
  apply (result_depends_on_reach_only sampleBuild sampleHash sampleClock _ _ twoSkillStore
           twoSkillStore_wf).
  reflexivity.
Defined.

(* ================================================================= *)
(** ** The properties on sample stores *)

Lemma settledStore_wf : store_wf settledStore.
Proof.
  unfold store_wf, settledStore, sampleStore; simpl. repeat split.
  - constructor; [intros [] | constructor].
  - constructor; [intros [] | constructor].
  - constructor; [intros [] | constructor].
  - repeat constructor.
  - intros skill latest version [<-|[]] [= <-]. simpl.
    intros [= <-]. reflexivity.
Qed.

Lemma fingerprint_run_sets_hash_only_witness :
  let s' := fst (FB.backfillSkillFingerprintsInternalHandler sampleHash sampleClock
                   defaultArgs (sampleStore None [])) in
  lookup 1 (skillVersions s') = Some (sampleVersion None) \/
  (None <> Some "a:b" /\
   lookup 1 (skillVersions s') = Some (sampleVersion (Some "a:b"))).
Proof.
  exact (fingerprint_run_sets_hash_only sampleHash sampleClock defaultArgs
           (sampleStore None []) (sampleVersion None)
           (sampleStore_wf None) (or_introl eq_refl)).
Defined.

Lemma fingerprint_run_entries_witness :
  let s' := fst (FB.backfillSkillFingerprintsInternalHandler sampleHash sampleClock
                   defaultArgs crowdedStore) in
  let before := entriesOf 1 crowdedStore in
  (entriesOf 1 s' = before \/
   exists version newId now,
     lookup 1 (skillVersions crowdedStore) = Some version /\
     ~ (firstn 20 before <> [] /\
        forall e, In e (firstn 20 before) ->
                  entry_fingerprint e = fingerprintOf sampleHash version) /\
     ~ In newId (map entry_id before) /\
     entriesOf 1 s' =
       skipn 20 before
       ++ [{| entry_id := newId;
              entry_skillId := version_skillId version;
              entry_versionId := 1;
              entry_fingerprint := fingerprintOf sampleHash version;
              entry_createdAt := now |}]) /\
  List.length (entriesOf 1 s') <= Nat.max 1 (List.length before).
Proof.
  exact (fingerprint_run_entries sampleHash sampleClock defaultArgs crowdedStore 1
           crowdedStore_wf).
Defined.

Lemma correct_version_is_left_alone_witness :
  let s' := fst (FB.backfillSkillFingerprintsInternalHandler sampleHash sampleClock
                   defaultArgs settledStore) in
  lookup 1 (skillVersions s') = Some (sampleVersion (Some "a:b")) /\
  entriesOf 1 s' = [sampleEntry 2 "a:b"].
Proof.
  apply (correct_version_is_left_alone sampleHash sampleClock defaultArgs settledStore
           (sampleVersion (Some "a:b")) settledStore_wf (or_introl eq_refl) eq_refl).
  - discriminate.
  - intros e [<-|[]]. reflexivity.
Defined.

Lemma summary_stats_add_up_witness :
  exists result,
    snd (SB.backfillSkillSummariesInternalHandler sampleBuild sampleClock defaultArgs
           twoSkillStore) = Returned result /\
    summaryStatsAddUp (SB.stats result).
Proof.
  eexists. split; [vm_compute; reflexivity|].
  apply (summary_stats_add_up sampleBuild sampleClock defaultArgs twoSkillStore).
  vm_compute. reflexivity.
Defined.

Lemma fingerprint_stats_add_up_witness :
  exists result,
    snd (FB.backfillSkillFingerprintsInternalHandler sampleHash sampleClock defaultArgs
           crowdedStore) = Returned result /\
    fingerprintStatsAddUp (FB.stats result).
Proof.
  eexists. split; [vm_compute; reflexivity|].
  apply (fingerprint_stats_add_up sampleHash sampleClock defaultArgs crowdedStore).
  vm_compute. reflexivity.
Defined.


Lemma completed_summary_run_counters_witness :
  exists result,
    snd (SB.backfillSkillSummariesInternalHandler sampleBuild sampleClock defaultArgs
           twoSkillStore) = Returned result /\
    SB.stats result = summaryCounters sampleBuild twoSkillStore.
Proof.
  eexists. split; [vm_compute; reflexivity|].
  apply (completed_summary_run_counters sampleBuild sampleClock defaultArgs twoSkillStore
           _ twoSkillStore_wf).
  vm_compute. reflexivity.
Defined.

Lemma completed_fingerprint_run_counters_witness :
  exists result,
    snd (FB.backfillSkillFingerprintsInternalHandler sampleHash sampleClock defaultArgs
           crowdedStore) = Returned result /\
    FB.stats result = fingerprintCounters sampleHash crowdedStore.
Proof.
  eexists. split; [vm_compute; reflexivity|].
  apply (completed_fingerprint_run_counters sampleHash sampleClock defaultArgs crowdedStore
           _ crowdedStore_wf).
  vm_compute. reflexivity.
Defined.
